(** * BuildBetter MCP server: schema cache, type resolver, similarity
    matcher and query synthesizer

  A shallow embedding of the helper functions and tool handlers of
  [src/build/index.js] (the TypeScript revision that starts with
  [getSchemaInfo] at line 2914), and the properties of them that the
  specification states.

  Conventions of the embedding.
  - A JavaScript string is a [string]: a sequence of code units, each an
    [ascii] read as a code point of the Latin-1 range (0..255).
    [trim] and [toLowerCase] are the ECMAScript functions restricted to
    that range.
  - A JSON value received from the client or from the downstream endpoint
    is a [value]; numbers are rationals.
  - The arguments of a tool have the types that the handler casts them
    to ([args?.query as string] is an optional string); an argument that
    the handler converts itself ([String(args?.limit ?? 10)]) is a [value].
  - Code that awaits the downstream endpoint, reads the clock or writes the
    module-level cache runs in the monad [M], a state monad over [World]
    with exceptions; the state survives an exception.
  - What the platform computes and no property here depends on is a
    parameter: the formatting of numbers that are not safe integers,
    [JSON.stringify], the matching of regular expressions with capture
    groups, the calendar arithmetic of [Date]. *)

From Stdlib Require Import ZArith QArith List String Ascii Bool Lia.
From Stdlib Require Import Permutation Sorted DecimalString DecimalZ DecimalPos.
From Stdlib Require Qcanon.
Import ListNotations.

Set Warnings "-register-all".

Local Open Scope string_scope.
Local Open Scope list_scope.
Local Open Scope Z_scope.

(* ===================================================================== *)
(** ** JavaScript strings                                                 *)
(* ===================================================================== *)

Module JSString.

(** The double quote, written by its code so that no string literal of
    this file has to contain one. *)
Definition dq : string := String "034"%char EmptyString.

(** WhiteSpace and LineTerminator code points below 256: TAB, LF, VT, FF,
    CR, SP and NBSP. *)
Definition is_white_space (c : ascii) : bool :=
  let n := nat_of_ascii c in
  ((9 <=? n) && (n <=? 13) || (n =? 32) || (n =? 160))%nat.

Fixpoint trimStart (s : string) : string :=
  match s with
  | EmptyString => EmptyString
  | String c r => if is_white_space c then trimStart r else s
  end.

(** [trimEnd] drops the trailing white space: a character is kept when it
    is not white space or when something is kept after it. *)
Fixpoint trimEnd (s : string) : string :=
  match s with
  | EmptyString => EmptyString
  | String c r =>
      match trimEnd r with
      | EmptyString => if is_white_space c then EmptyString else String c EmptyString
      | r' => String c r'
      end
  end.

Definition trim (s : string) : string := trimEnd (trimStart s).

(** Lower-case mapping of one code point of the Latin-1 range: A-Z and
    the letters U+00C0-U+00DE except the multiplication sign U+00D7. *)
Definition lower_char (c : ascii) : ascii :=
  let n := nat_of_ascii c in
  if ((65 <=? n) && (n <=? 90)
      || (192 <=? n) && (n <=? 222) && negb (n =? 215))%nat
  then ascii_of_nat (n + 32) else c.

Fixpoint toLowerCase (s : string) : string :=
  match s with
  | EmptyString => EmptyString
  | String c r => String (lower_char c) (toLowerCase r)
  end.

Fixpoint startsWith (p s : string) : bool :=
  match p, s with
  | EmptyString, _ => true
  | String a p', String b s' => Ascii.eqb a b && startsWith p' s'
  | String _ _, EmptyString => false
  end.

Fixpoint includes (p s : string) : bool :=
  startsWith p s ||
  match s with
  | EmptyString => false
  | String _ s' => includes p s'
  end.

Fixpoint join (sep : string) (l : list string) : string :=
  match l with
  | [] => EmptyString
  | [x] => x
  | x :: r => x ++ sep ++ join sep r
  end.

(** [`${a}${b}...`], the concatenation of the pieces of a template
    literal. *)
Definition template (l : list string) : string := String.concat EmptyString l.

Definition is_empty (s : string) : bool :=
  match s with EmptyString => true | _ => false end.

Definition chars (s : string) : list ascii := list_ascii_of_string s.

Definition is_digit (c : ascii) : bool :=
  let n := nat_of_ascii c in ((48 <=? n) && (n <=? 57))%nat.

Definition is_ident_start (c : ascii) : bool :=
  let n := nat_of_ascii c in
  ((65 <=? n) && (n <=? 90) || (97 <=? n) && (n <=? 122) || (n =? 95))%nat.

Definition is_ident_char (c : ascii) : bool := is_ident_start c || is_digit c.

Definition is_quote (c : ascii) : bool :=
  let n := nat_of_ascii c in ((n =? 34) || (n =? 39))%nat.

End JSString.
Import JSString.

(* ===================================================================== *)
(** ** JSON values                                                        *)
(* ===================================================================== *)

(** What [JSON.parse] can produce, and [undefined] for an absent property.
  The keys of an object are distinct; a property read finds the first. *)
Inductive value : Type :=
| VUndefined
| VNull
| VBool (b : bool)
| VNum (q : Q)
| VStr (s : string)
| VArr (items : list value)
| VObj (props : list (string * value)).

Module Number.

(** [Number.isInteger]. *)
Definition isInteger (q : Q) : bool := (Qden (Qred q) =? 1)%positive.

Definition to_Z (q : Q) : Z := Qnum (Qred q).

Definition MAX_SAFE_INTEGER : Z := 2 ^ 53 - 1.

Definition isSafeInteger (q : Q) : bool :=
  isInteger q && (Z.abs (to_Z q) <=? MAX_SAFE_INTEGER).

(** The decimal digits of an integer, with a leading minus sign when it
    is negative. *)
Definition Z_toString (z : Z) : string := NilZero.string_of_int (Z.to_int z).

(** [Math.min(limit, cap)]. *)
Definition min (a b : Q) : Q := if Qle_bool a b then a else b.

End Number.

Section Values.

(** [Number::toString] of a number that is not a safe integer (a
    fraction, or an integer beyond 2^53): floating-point formatting is
    the platform's. *)
Variable float_toString : Q -> string.

Definition Number_toString (q : Q) : string :=
  if Number.isSafeInteger q then Number.Z_toString (Number.to_Z q)
  else float_toString q.

(** [String(v)]. *)
Fixpoint js_String (v : value) : string :=
  match v with
  | VUndefined => "undefined"
  | VNull => "null"
  | VBool true => "true"
  | VBool false => "false"
  | VNum q => Number_toString q
  | VStr s => s
  | VArr items =>
      join "," (map (fun x => match x with
                              | VUndefined | VNull => EmptyString
                              | _ => js_String x
                              end) items)
  | VObj _ => "[object Object]"
  end.

End Values.

(** Truthiness ([!!v]). *)
Definition truthy (v : value) : bool :=
  match v with
  | VUndefined | VNull => false
  | VBool b => b
  | VNum q => negb (Qeq_bool q 0)
  | VStr s => negb (is_empty s)
  | VArr _ | VObj _ => true
  end.

Fixpoint lookup_prop (k : string) (props : list (string * value)) : value :=
  match props with
  | [] => VUndefined
  | (k', v) :: r => if String.eqb k k' then v else lookup_prop k r
  end.

(** [v.k] for a [v] that is neither [null] nor [undefined] (every read in
  the source is behind a truthiness test or on a literal); the property
  names read by the source exist on objects only. *)
Definition js_get (v : value) (k : string) : value :=
  match v with
  | VObj props => lookup_prop k props
  | _ => VUndefined
  end.

(** [v === s] for a string [s]. *)
Definition strict_eq_str (v : value) (s : string) : bool :=
  match v with
  | VStr t => String.eqb t s
  | _ => false
  end.

(** [v ?? d]. *)
Definition nullish_or (v d : value) : value :=
  match v with
  | VUndefined | VNull => d
  | _ => v
  end.

(** [parseInt(s, 10)]: leading white space is skipped, then an optional
  sign, then the longest run of decimal digits; [None] is [NaN]. *)
Fixpoint digit_prefix (s : string) : Decimal.uint :=
  match s with
  | EmptyString => Decimal.Nil
  | String c r =>
      match uint_of_char c (Some (digit_prefix r)) with
      | Some d => d
      | None => Decimal.Nil
      end
  end.

Definition parse_unsigned (s : string) : option Z :=
  match digit_prefix s with
  | Decimal.Nil => None
  | d => Some (Z.of_uint d)
  end.

Definition parseInt (s : string) : option Z :=
  match trimStart s with
  | String "-"%char r => option_map Z.opp (parse_unsigned r)
  | String "+"%char r => parse_unsigned r
  | r => parse_unsigned r
  end.

(* ===================================================================== *)
(** ** Effects: the downstream endpoint, the clock, the schema cache      *)
(* ===================================================================== *)

(** A thrown JavaScript [Error]; the handlers only read its [message]. *)
Inductive error : Type :=
| TypeError (message : string)
| ClientError (message : string).

Definition message_of (e : error) : string :=
  match e with
  | TypeError m => m
  | ClientError m => m
  end.

(** One call of [graphqlClient.request(query, variables)]. *)
Record Request : Type := { req_query : string; req_variables : value }.

(** What the endpoint does with it: the promise resolves with the [data] of
  the response or rejects, after [elapsed] milliseconds. *)
Record Reply : Type := { elapsed : Z; outcome : error + value }.

(** [let cachedSchema: { data; fetchedAt } | null]. *)
Record CachedSchema : Type := { data : value; fetchedAt : Z }.

Record World : Type := {
  cachedSchema : option CachedSchema;   (* the module-level cache *)
  clock : Z;                            (* what [Date.now()] returns *)
  http_log : list Request;              (* the requests sent downstream *)
  console : list string                 (* the lines of [console.error] *)
  }.

(** The endpoint: its reply may depend on the time and on what it was sent
  before. *)
Definition Downstream : Type := Z -> list Request -> Request -> Reply.

Definition M (A : Type) : Type := World -> (error + A) * World.

Definition ret {A} (a : A) : M A := fun w => (inr a, w).

Definition throw {A} (e : error) : M A := fun w => (inl e, w).

Definition bind {A B} (m : M A) (k : A -> M B) : M B :=
  fun w => match m w with
           | (inr a, w') => k a w'
           | (inl e, w') => (inl e, w')
           end.

(** [try { body } catch (error) { handler }]. *)
Definition try_catch {A} (body : M A) (handler : error -> M A) : M A :=
  fun w => match body w with
           | (inr a, w') => (inr a, w')
           | (inl e, w') => handler e w'
           end.

Definition lift {A} (r : error + A) : M A := fun w => (r, w).

Declare Scope js_scope.
Delimit Scope js_scope with js.
Notation "x <- m ;; k" := (bind m (fun x => k))
(at level 100, m at next level, right associativity) : js_scope.
Notation "m ;;; k" := (bind m (fun _ => k))
(at level 100, right associativity) : js_scope.
Local Open Scope js_scope.

Definition Date_now : M Z := fun w => (inr (clock w), w).

Definition get_cachedSchema : M (option CachedSchema) :=
  fun w => (inr (cachedSchema w), w).

Definition set_cachedSchema (c : CachedSchema) : M unit :=
  fun w => (inr tt, {| cachedSchema := Some c; clock := clock w;
                       http_log := http_log w; console := console w |}).

Definition console_error (line : string) : M unit :=
  fun w => (inr tt, {| cachedSchema := cachedSchema w; clock := clock w;
                       http_log := http_log w;
                       console := console w ++ [line] |}).


(** [v.k] where [v] may be [null] or [undefined]: that read throws. *)
Definition read_prop (v : value) (k : string) : error + value :=
  match v with
  | VUndefined | VNull =>
      inl (TypeError ("Cannot read properties of null or undefined (reading '" ++ k ++ "')"))
  | _ => inr (js_get v k)
  end.

(** [arr.map(f)] and [arr.filter(f)] on a value that need not be an array:
  on anything else the method is missing and the call throws. *)
Definition as_array (v : value) (method : string) : error + list value :=
  match v with
  | VArr items => inr items
  | _ => inl (TypeError (method ++ " is not a function"))
  end.

Section Client.

Variable downstream : Downstream.

(** [await graphqlClient.request(query, variables)]. *)
Definition request (query : string) (variables : value) : M value :=
  fun w =>
    let rq := {| req_query := query; req_variables := variables |} in
    let rp := downstream (clock w) (http_log w) rq in
    (outcome rp,
     {| cachedSchema := cachedSchema w; clock := clock w + elapsed rp;
        http_log := http_log w ++ [rq]; console := console w |}).

End Client.

(* ===================================================================== *)
(** ** Helper functions of the server                                     *)
(* ===================================================================== *)

(** [const SCHEMA_CACHE_TTL_MS = 30 * 60 * 1000; // 30 minutes] *)
Definition SCHEMA_CACHE_TTL_MS : Z := 30 * 60 * 1000.

(** The text of the introspection query of [getSchemaInfo]. *)
Definition IntrospectionQuery : string := "
    query IntrospectionQuery {
      __schema {
        types {
          kind
          name
          description
          fields(includeDeprecated: false) {
            name
            description
            type { ...TypeRef }
          }
          enumValues { name description } # Added for enum introspection
        }
      }
    }
    fragment TypeRef on __Type {
      kind
      name
      ofType {
        kind
        name
        ofType { kind name ofType { kind name } } 
      }
    }
  ".

(** The text of the query of [getTypeFields]. *)
Definition GetTypeFieldsQuery : string := "
    query GetTypeFields($name: String!) {
      __type(name: $name) {
        ... on __Type {
          name
          kind
          description # Added type description
          fields(includeDeprecated: false) { # Ensure deprecated are false
            name
            description
            type { ...TypeRef }
          }
          inputFields {
            name
            description
            type { ...TypeRef }
          }
          enumValues { name description } # Added for enums
        }
      }
    }
    fragment TypeRef on __Type {
      kind
      name
      ofType {
        kind
        name
        ofType { kind name ofType { kind name ofType { kind name } } } 
      }
    }
  ".

(** [GraphQLOutputType]: [{ kind: string; name?: string | null;
  ofType?: GraphQLOutputType | null }]. An absent and a [null] member are
  both [None]: the code tells them apart nowhere. *)
Inductive GraphQLOutputType : Type :=
| mkType (kind : string) (name : option string) (ofType : option GraphQLOutputType).

Definition kind (t : GraphQLOutputType) : string :=
  match t with mkType k _ _ => k end.
Definition name (t : GraphQLOutputType) : option string :=
  match t with mkType _ n _ => n end.
Definition ofType (t : GraphQLOutputType) : option GraphQLOutputType :=
  match t with mkType _ _ o => o end.

(** [a || b] on an optional string: [null], [undefined] and the empty string
  are falsy. *)
Definition or_else (a : option string) (b : string) : string :=
  match a with
  | Some (String c r) => String c r
  | _ => b
  end.

(** The body of [formatTypeForDisplay] once [type] is known to be an
  object; the recursive calls on [type.ofType] are inlined with their
  [if (!type) return 'Unknown'] test. *)
Fixpoint formatType (type : GraphQLOutputType) : string :=
  match type with
  | mkType k n inner =>
      let rec := match inner with
                 | None => "Unknown"
                 | Some t => formatType t
                 end in
      if String.eqb k "NON_NULL" then template [rec; "!"]
      else if String.eqb k "LIST" then template ["["; rec; "]"]
      else or_else n "UnnamedType"
  end.

Definition formatTypeForDisplay (type : option GraphQLOutputType) : string :=
  match type with
  | None => "Unknown"
  | Some t => formatType t
  end.

(** The callback of the [filter] of [filterObjectTypes]:
  [!!type && type.kind === 'OBJECT' && !!type.name &&
   !type.name.startsWith('__')]. A truthy [name] that is not a string has no
  [startsWith]. *)
Definition isObjectType (type : value) : error + bool :=
  if negb (truthy type) then inr false
  else if negb (strict_eq_str (js_get type "kind") "OBJECT") then inr false
  else if negb (truthy (js_get type "name")) then inr false
  else match js_get type "name" with
       | VStr n => inr (negb (startsWith "__" n))
       | _ => inl (TypeError "type.name.startsWith is not a function")
       end.

(** [Array.prototype.filter] with a callback that may throw: the first
  exception ends the traversal. *)
Fixpoint filter_throwing {A} (f : A -> error + bool) (l : list A) : error + list A :=
  match l with
  | [] => inr []
  | x :: r =>
      match f x with
      | inl e => inl e
      | inr keep =>
          match filter_throwing f r with
          | inl e => inl e
          | inr r' => inr (if keep then x :: r' else r')
          end
      end
  end.

Fixpoint map_throwing {A B} (f : A -> error + B) (l : list A) : error + list B :=
  match l with
  | [] => inr []
  | x :: r =>
      match f x with
      | inl e => inl e
      | inr y =>
          match map_throwing f r with
          | inl e => inl e
          | inr r' => inr (y :: r')
          end
      end
  end.

Definition filterObjectTypes (schema : value) : error + list value :=
  if negb (truthy schema)
     || negb (truthy (js_get schema "__schema"))
     || negb (truthy (js_get (js_get schema "__schema") "types"))
  then inr []
  else
    match as_array (js_get (js_get schema "__schema") "types")
                   "schema.__schema.types.filter" with
    | inl e => inl e
    | inr types => filter_throwing isObjectType types
    end.

(** *** [levenshteinDistance]: the matrix, filled cell by cell *)

Module Matrix.

(** [arr[i] = x] on a JavaScript array: a write at the length appends, a
    write beyond it leaves holes, which the default [d] stands for. *)
Definition array_set {A} (d : A) (arr : list A) (i : nat) (x : A) : list A :=
  firstn i (arr ++ repeat d (i - List.length arr)) ++ x :: skipn (S i) arr.

Definition t : Type := list (list nat).

(** [matrix[i][j]] *)
Definition get (m : t) (i j : nat) : nat := nth j (nth i m []) 0%nat.

(** [matrix[i] = row] *)
Definition set_row (m : t) (i : nat) (row : list nat) : t := array_set [] m i row.

(** [matrix[i][j] = x] *)
Definition set (m : t) (i j : nat) (x : nat) : t :=
  set_row m i (array_set 0%nat (nth i m []) j x).

End Matrix.

(** [for (let i = from; i <= to; i++) body] over a state [St]. *)
Definition for_loop {St} (from to : nat) (body : St -> nat -> St) (s : St) : St :=
  fold_left body (seq from (S to - from)) s.

Definition min3 (x y z : nat) : nat := Nat.min (Nat.min x y) z.

(** [s.charAt(i)]; the code reads inside the string only. *)
Definition charAt (s : list ascii) (i : nat) : ascii := nth i s zero.

Definition levenshteinMatrix (a b : list ascii) : Matrix.t :=
  let matrix : Matrix.t := [] in
  let matrix := for_loop 0 (List.length b) (fun m i => Matrix.set_row m i [i]) matrix in
  let matrix := for_loop 0 (List.length a) (fun m j => Matrix.set m 0 j j) matrix in
  for_loop 1 (List.length b) (fun m i =>
    for_loop 1 (List.length a) (fun m j =>
      if Ascii.eqb (charAt b (i - 1)) (charAt a (j - 1))
      then Matrix.set m i j (Matrix.get m (i - 1) (j - 1))
      else Matrix.set m i j
             (min3 (Matrix.get m (i - 1) (j - 1) + 1)
                   (Matrix.get m i (j - 1) + 1)
                   (Matrix.get m (i - 1) j + 1))) m) matrix.

Definition levenshteinDistance (a b : string) : nat :=
  Matrix.get (levenshteinMatrix (chars a) (chars b))
             (String.length b) (String.length a).

(** *** [Array.prototype.sort] and [slice] *)

(** [arr.sort(compare)]. The sort of ECMAScript is stable; with a
  comparator that is a difference of keys every stable sort gives the
  same array, the one of this insertion sort. *)
Fixpoint sort_insert {A} (compare : A -> A -> Z) (x : A) (l : list A) : list A :=
  match l with
  | [] => [x]
  | y :: r => if compare x y <=? 0 then x :: y :: r
              else y :: sort_insert compare x r
  end.

Fixpoint Array_sort {A} (compare : A -> A -> Z) (l : list A) : list A :=
  match l with
  | [] => []
  | x :: r => sort_insert compare x (Array_sort compare r)
  end.

(** [arr.slice(0, n)] *)
Definition slice0 {A} (n : nat) (l : list A) : list A := firstn n l.

(** *** [normalizeEnumValue] *)

(** A replacement by the empty string of [/^X|Y$/g], for one-character
  classes [X] and [Y]: the first alternative can match at index 0 only and
  the second at the last index only, and a one-character string that
  matches [X] is consumed by the first. *)
Definition strip_leading (X : ascii -> bool) (s : string) : string :=
  match s with
  | String c r => if X c then r else s
  | EmptyString => EmptyString
  end.

Fixpoint strip_trailing (Y : ascii -> bool) (s : string) : string :=
  match s with
  | EmptyString => EmptyString
  | String c EmptyString => if Y c then EmptyString else s
  | String c r => String c (strip_trailing Y r)
  end.

(** [s.replace(/^[Q']|[Q']$/g, '')], Q the double quote *)
Definition replace_surrounding_quotes (s : string) : string :=
  strip_trailing is_quote (strip_leading is_quote s).

(** [s.replace(/^\{|\}$/g, '')] *)
Definition replace_surrounding_braces (s : string) : string :=
  strip_trailing (Ascii.eqb "}"%char) (strip_leading (Ascii.eqb "{"%char) s).

Section Server.

Variable float_toString : Q -> string.
Variable downstream : Downstream.

Definition normalizeEnumValue (value : value) : string :=
  match value with
  | VUndefined | VNull => EmptyString
  | _ => replace_surrounding_quotes (js_String float_toString value)
  end.

(** The part of [getSchemaInfo] after the freshness test. *)
Definition fetchSchema : M value :=
  try_catch
    (data <- request downstream IntrospectionQuery VUndefined ;;
     now <- Date_now ;;
     set_cachedSchema {| data := data; fetchedAt := now |} ;;;
     ret data)
    (fun error =>
       console_error ("Error fetching schema: " ++ message_of error) ;;;
       throw error).

Definition getSchemaInfo : M value :=
  cached <- get_cachedSchema ;;
  now <- Date_now ;;
  match cached with
  | Some c =>
      if now - fetchedAt c <? SCHEMA_CACHE_TTL_MS then ret (data c)
      else fetchSchema
  | None => fetchSchema
  end.

End Server.

Section TypeFields.

Variable downstream : Downstream.

(** An entry of the array that [getTypeFields] returns:
    [{ name, type, description }]. *)
Record FieldInfo : Type := {
    f_name : value;
    f_type : value;
    f_description : value
  }.

(** [(f: any) => ({ name: f.name, type: f.type, description: f.description })] *)
Definition field_entry (f : value) : error + FieldInfo :=
  match read_prop f "name" with
  | inl e => inl e
  | inr n => inr {| f_name := n; f_type := js_get f "type";
                    f_description := js_get f "description" |}
  end.

(** [(ev: any) => ({ name: ev.name, type: { kind: "ENUM_VALUE", name: ev.name },
    description: ev.description })] *)
Definition enum_entry (ev : value) : error + FieldInfo :=
  match read_prop ev "name" with
  | inl e => inl e
  | inr n => inr {| f_name := n;
                    f_type := VObj [("kind", VStr "ENUM_VALUE"); ("name", n)];
                    f_description := js_get ev "description" |}
  end.

(** [if (member) fieldsWithType.push(...member.map(entry))] *)
Definition push_entries (member : value) (entry : value -> error + FieldInfo)
  (fieldsWithType : list FieldInfo) : error + list FieldInfo :=
  if truthy member then
    match as_array member "map" with
    | inl e => inl e
    | inr items =>
        match map_throwing entry items with
        | inl e => inl e
        | inr entries => inr (fieldsWithType ++ entries)
        end
    end
  else inr fieldsWithType.

Definition getTypeFields (typeName : string) : M (list FieldInfo) :=
  data <- request downstream GetTypeFieldsQuery (VObj [("name", VStr typeName)]) ;;
  t <- lift (read_prop data "__type") ;;
  if negb (truthy t) then ret []
  else
    fieldsWithType <- lift (push_entries (js_get t "fields") field_entry []) ;;
    fieldsWithType <- lift (push_entries (js_get t "inputFields") field_entry fieldsWithType) ;;
    fieldsWithType <- lift (push_entries (js_get t "enumValues") enum_entry fieldsWithType) ;;
    ret fieldsWithType.

(** The [filter] of [findSimilarFields] over [fieldNames]: a name that is
    not a string has no [toLowerCase], and the call throws. *)
Fixpoint filter_names (keep : string -> bool) (fieldNames : list value)
  : error + list string :=
  match fieldNames with
  | [] => inr []
  | VStr n :: r =>
      match filter_names keep r with
      | inl e => inl e
      | inr r' => inr (if keep n then n :: r' else r')
      end
  | _ :: _ => inl (TypeError "name.toLowerCase is not a function")
  end.

(** [levenshteinDistance(name.toLowerCase(), fieldName.toLowerCase())] *)
Definition distance_to (fieldName name : string) : nat :=
  levenshteinDistance (toLowerCase name) (toLowerCase fieldName).

(** [maxDistance] has the default 3, which every caller takes. *)
Definition findSimilarFields (typeName fieldName : string) (maxDistance : nat)
  : M (list string) :=
  try_catch
    (fields <- getTypeFields typeName ;;
     let fieldNames := map f_name fields in
     similar <- lift (filter_names
                        (fun name =>
                           let dist := distance_to fieldName name in
                           (0 <? dist)%nat && (dist <=? maxDistance)%nat)
                        fieldNames) ;;
     let similar :=
       Array_sort (fun a b => Z.of_nat (distance_to fieldName a)
                              - Z.of_nat (distance_to fieldName b)) similar in
     ret (slice0 3 similar))
    (fun err => ret []).

End TypeFields.

(* ===================================================================== *)
(** ** Tool handlers                                                      *)
(* ===================================================================== *)

(** The result of a tool call: the texts of its [content] blocks (all of
  type [text]) and the [isError] flag. *)
Record ToolResult : Type := { content : list string; isError : bool }.

Definition tool_ok (texts : list string) : ToolResult :=
  {| content := texts; isError := false |}.

Definition tool_error (texts : list string) : ToolResult :=
  {| content := texts; isError := true |}.

(** The regular expressions with a capture group that the handlers match
  against the message of a downstream error; each gives the text of its
  group 1 when it matches. They are evaluated by the platform's engine. *)
Record ErrorPatterns : Type := {
  (* /\$\.selectionSet\.([^\s]+)/ *)
  hasuraPath : string -> option string;
  (* /field '([^']+)' not found/ *)
  fieldNotFound : string -> option string;
  (* /Cannot query field Q([^Q]+)Q on type/, Q the double quote *)
  cannotQueryField : string -> option string;
  (* /on type [Q'](^[Q']+)[Q']/, one or more characters other than quotes
     between two quotes of either kind *)
  onType : string -> option string;
  (* /on field Q([^Q]+)Q/ *)
  onField : string -> option string
  }.

Definition nl : string := String "010"%char EmptyString.

(** [m && m[1]] on the result of [match]. *)
Definition group1 (m : option string) : option string :=
  match m with
  | Some (String c r) => Some (String c r)
  | _ => None
  end.

Section RunQuery.

Variable downstream : Downstream.
Variable patterns : ErrorPatterns.
(** [JSON.stringify(v, null, 2)] *)
Variable JSON_stringify_pretty : value -> string.

(** The [catch] block of the [run-query] handler. *)
Definition run_query_catch (error : error) : M ToolResult :=
  let errorMsg := message_of error in
  let userFriendlyMessage := "An error occurred while executing the query." in
  let originalErrorForContext := ("Original error: " ++ errorMsg)%string in
  let suggestions : list string :=
    [ "Review your query for syntax errors. You can use the `validate-query` tool. ";
      ("Ensure all types and fields exist and are correctly spelled. Use `find-fields(typeName: " ++ dq ++ "YourType" ++ dq ++ ")` to explore the schema. ")%string;
      ("Check the main guide for query patterns and examples: `read-resource(uri: " ++ dq ++ "graphql://guide/context" ++ dq ++ ")`.")%string ] in
  let suggestions :=
    match group1 (hasuraPath patterns errorMsg) with
    | Some path => ("The error might be related to the path: " ++ path ++ ".")%string :: suggestions
    | None => suggestions
    end in
  branch <-
    (if includes "expected an enum value" errorMsg
        && (includes "but found a string" errorMsg || includes "but found String" errorMsg)
     then
       ret ("Invalid Enum Value Usage:",
            [ ("Enum values in GraphQL queries should be used directly without quotes (e.g., `type: {_eq: Issue}` NOT `type: {_eq: " ++ dq ++ "Issue" ++ dq ++ "}`).")%string;
              "Ensure the enum value is spelled correctly and is a valid member of its enum type.";
              ("To find the correct enum type name and its valid values, first identify the field expecting the enum. Then use `find-fields(typeName: " ++ dq ++ "TheEnumTypeName" ++ dq ++ ")` to list all valid, unquoted enum values.")%string;
              ("Example: If a field `status` on type `Task` expects an enum `TaskStatus`, you would use `find-fields(typeName: " ++ dq ++ "TaskStatus" ++ dq ++ ")`.")%string ])
     else if includes "field not found" errorMsg || includes "Cannot query field" errorMsg
     then
       let fieldMatch := match fieldNotFound patterns errorMsg with
                         | Some f => Some f
                         | None => cannotQueryField patterns errorMsg
                         end in
       let typeMatch := onType patterns errorMsg in
       let fieldName := or_else fieldMatch "unknown_field" in
       let typeName := group1 typeMatch in
       let userFriendlyMessage :=
         ("Field Error: Field '" ++ fieldName ++ "' not found" ++ match typeName with Some typeName => (" on type '" ++ typeName ++ "'")%string | None => EmptyString end ++ ".")%string in
       match typeName with
       | Some typeName =>
           similar <- findSimilarFields downstream typeName fieldName 3 ;;
           let suggestions :=
             match similar with
             | [] => []
             | _ => [ ("Did you mean one of these fields on type '" ++ typeName ++ "': " ++ join ", " similar ++ "?")%string ]
             end in
           let suggestions := suggestions ++
             [ ("To see all available fields for type '" ++ typeName ++ "', use the tool: `find-fields(typeName: " ++ dq ++ typeName ++ dq ++ ")`.")%string ] in
           ret (userFriendlyMessage, suggestions ++ [ "Verify that if it's a nested field, the parent fields are correct and lead to this field." ])
       | None =>
           ret (userFriendlyMessage,
                [ "Check the spelling of the field and ensure it exists on the queried type.";
                  ("Use `find-fields(typeName: " ++ dq ++ "RelevantType" ++ dq ++ ")` to explore the schema.")%string;
                  "Verify that if it's a nested field, the parent fields are correct and lead to this field." ])
       end
     else if includes "unexpected subselection" errorMsg
     then
       let fieldName := or_else (onField patterns errorMsg) "unknown field" in
       ret (("Invalid Query Structure: Unexpected sub-selection on field '" ++ fieldName ++ "'.")%string,
            [ ("The field '" ++ fieldName ++ "' is likely a scalar type (like String, Int, Boolean, Enum) or a custom scalar, and cannot have further fields selected within { ... } block.")%string;
              ("Remove the sub-selection (the { ... } part) for the field '" ++ fieldName ++ "'.")%string;
              ("Use `find-fields(typeName: " ++ dq ++ "ParentTypeNameOf_" ++ fieldName ++ dq ++ ")` to check the type of '" ++ fieldName ++ "'. If it's a scalar or enum, it cannot have sub-fields.")%string ])
     else ret (userFriendlyMessage, suggestions)) ;;
  let '(userFriendlyMessage, suggestions) := branch in
  ret (tool_error
         [ userFriendlyMessage;
           ("Suggestions:
- " ++ join (nl ++ "- ")%string suggestions)%string;
           originalErrorForContext ]).

(** The [run-query] branch of the [CallToolRequestSchema] handler;
    [query] is [args?.query as string], absent when [None]. *)
Definition run_query (query : option string) (variables : value) : M ToolResult :=
  match query with
  | None | Some EmptyString => ret (tool_error [ "Error: 'query' argument is required for run-query." ])
  | Some query =>
      let queryText := toLowerCase (trim query) in
      if startsWith "mutation" queryText || includes "mutation {" queryText
      then ret (tool_error [ "Error: Only read-only queries (query, subscription) are allowed. Mutations are blocked." ])
      else
        try_catch
          (result <- request downstream query variables ;;
           ret (tool_ok [ JSON_stringify_pretty result ]))
          run_query_catch
  end.

End RunQuery.

Section Tools.

Variable float_toString : Q -> string.
Variable downstream : Downstream.
Variable patterns : ErrorPatterns.
(** [JSON.stringify(v, null, 2)] and [JSON.stringify(v)] *)
Variable JSON_stringify_pretty : value -> string.
Variable JSON_stringify : value -> string.
(** [s.replace(/Q([^Q]+)Q:/g, '$1:')], Q the double quote: the quotes
    around the keys of a serialized object are removed. *)
Variable unquote_keys : string -> string.
(** [d = new Date(); d.setDate(d.getDate() - days); d.toISOString()] at
    the time [now]: calendar arithmetic of the platform. *)
Variable isoDateDaysAgo : Z -> Z -> string.

(** *** [list-types] *)


(** *** The resource [graphql://schema] *)



(** *** [build-query] *)

(** [/^[A-Za-z_][A-Za-z0-9_]*$/] *)
Definition is_bare_word (s : string) : bool :=
  match s with
  | EmptyString => false
  | String c r => is_ident_start c && forallb is_ident_char (chars r)
  end.

(** [if (limit !== undefined && Number.isInteger(limit) && limit > 0)
      params.push(`limit: ${Math.min(limit, 100)}`)] *)
Definition push_limit (params : list string) (limit : value) : list string :=
  match limit with
  | VNum q =>
      if Number.isInteger q && negb (Qle_bool q 0)
      then params ++ [ ("limit: " ++ Number_toString float_toString (Number.min q 100))%string ]
      else params
  | _ => params
  end.

(** The callback of [Object.entries(filter).map]. *)
Definition filter_entry (kv : string * value) : string :=
  let '(k, v) := kv in
  match v with
  | VStr s =>
      if negb (startsWith "{" s) && negb (is_bare_word s)
      then (k ++ ": {_eq: " ++ JSON_stringify v ++ "}")%string
      else (k ++ ": " ++ s)%string
  | VNull | VArr _ | VObj _ => (k ++ ": " ++ unquote_keys (JSON_stringify v))%string
  | _ => (k ++ ": " ++ js_String float_toString v)%string
  end.

(** [if (filter && Object.keys(filter).length > 0) { ...
      if (filterStr) params.push(`where: {${filterStr}}`) }];
    [filter] is [args?.filter as Record<string, any> | undefined]. *)
Definition push_where (params : list string) (filter : option (list (string * value)))
  : list string :=
  match filter with
  | Some (kv :: r) =>
      let filterStr := join ", " (map filter_entry (kv :: r)) in
      if negb (is_empty filterStr)
      then params ++ [ ("where: {" ++ filterStr ++ "}")%string ]
      else params
  | _ => params
  end.

Definition build_query_string (selectedType_name typeName : string)
  (fields : list string) (limit : value)
  (filter : option (list (string * value))) : string :=
  let queryParams := EmptyString in
  let params : list string := [] in
  let params := push_limit params limit in
  let params := push_where params filter in
  let queryParams :=
    match params with
    | [] => queryParams
    | _ => ("(" ++ join ", " params ++ ")")%string
    end in
  let queryRootField := typeName in
  ("query Get" ++ selectedType_name ++ " { " ++ queryRootField ++ queryParams ++ " { " ++ join (nl ++ "    ")%string fields ++ " } }")%string.

(** [selectedType.fields?.map((f) => f.name) ?? []] *)
Definition valid_fields (fields : value) : error + list value :=
  match fields with
  | VUndefined | VNull => inr []
  | _ =>
      match as_array fields "selectedType.fields.map" with
      | inl e => inl e
      | inr items => map_throwing (fun f => read_prop f "name") items
      end
  end.

Definition build_query (typeName : option string) (fields : option (list string))
  (limit : value) (filter : option (list (string * value))) : M ToolResult :=
  match typeName, fields with
  | Some (String c0 r0), Some (f0 :: fr) =>
      let typeName := String c0 r0 in
      let fields := f0 :: fr in
      if existsb (fun f => includes "." f) fields
      then ret (tool_error [ "Error: Nested fields (e.g., 'parent.child') are not supported by build-query. Please write the query manually or use run-query." ])
      else
        try_catch
          (schema <- getSchemaInfo downstream ;;
           objectTypes <- lift (filterObjectTypes schema) ;;
           match find (fun type => strict_eq_str (js_get type "name") typeName)
                      objectTypes with
           | None => ret (tool_error [ ("Error: Type " ++ dq ++ typeName ++ dq ++ " not found.")%string ])
           | Some selectedType =>
               validFields <- lift (valid_fields (js_get selectedType "fields")) ;;
               let invalidFields :=
                 List.filter (fun f => negb (existsb (fun v => strict_eq_str v f) validFields))
                        fields in
               match invalidFields with
               | first :: _ =>
                   suggestions <- findSimilarFields downstream typeName first 3 ;;
                   let suggestionText :=
                     match suggestions with
                     | [] => EmptyString
                     | _ => (" Did you mean one of: " ++ join ", " suggestions ++ "?")%string
                     end in
                   ret (tool_error [ ("Error: Invalid field(s) for type " ++ dq ++ typeName ++ dq ++ ": " ++ join ", " invalidFields ++ "." ++ suggestionText ++ " Check available fields with find-fields.")%string ])
               | [] =>
                   let queryString :=
                     build_query_string
                       (js_String float_toString (js_get selectedType "name"))
                       typeName fields limit filter in
                   ret (tool_ok [ trim queryString ])
               end
           end)
          (fun error =>
             ret (tool_error [ ("Error building query: " ++ message_of error)%string ]))
  | _, _ => ret (tool_error [ "Error: 'typeName' and 'fields' arguments are required for build-query." ])
  end.

(** *** [search-extractions] *)

(** [let limit = parseInt(String(arg ?? dflt), 10);
     if (isNaN(limit) || limit <= 0) limit = dflt;
     limit = Math.min(limit, cap);]
    the three statements that open [search-extractions] (10, 50),
    [recent-conversation-with] (1, 10), [top-customer-issues] (10, 50 and,
    for [days], 30, 365) and [topic-conversations] (5, 25). *)
Definition guarded_limit (arg : value) (dflt cap : Z) : Z :=
  let limit := parseInt (js_String float_toString (nullish_or arg (VNum (inject_Z dflt)))) in
  let limit := match limit with
               | None => dflt
               | Some n => if n <=? 0 then dflt else n
               end in
  Z.min limit cap.

Definition has_field (extractionFields : list FieldInfo) (fieldName : string) : bool :=
  existsb (fun ef => strict_eq_str (f_name ef) fieldName) extractionFields.

Definition smartSearchableFields (extractionFields : list FieldInfo) : list string :=
  List.filter (has_field extractionFields) ["summary"; "exact_quote"; "text"; "context"].

(** The text condition that opens [whereClauses]; [None] when the handler
    returns its no-suitable-field error. *)
Definition textClause (extractionFields : list FieldInfo) (phrase : string)
  : option string :=
  let smart := smartSearchableFields extractionFields in
  if (0 <? List.length smart)%nat then
    let orConditions :=
      join ", " (map (fun field => ("{ " ++ field ++ ": {_ilike: " ++ dq ++ "%" ++ phrase ++ "%" ++ dq ++ "} }")%string) smart) in
    Some (if (1 <? List.length smart)%nat
          then ("_or: [" ++ orConditions ++ "]")%string
          else replace_surrounding_braces orConditions)
  else
    match find (fun f => strict_eq_str (f_name f) "summary"
                         || strict_eq_str (f_name f) "text") extractionFields with
    | Some f =>
        let defaultTextField := f_name f in
        if truthy defaultTextField
        then Some (js_String float_toString defaultTextField ++ ": {_ilike: " ++ dq ++ "%" ++ phrase ++ "%" ++ dq ++ "}")%string
        else None
    | None => None
    end.

(** [extType]: [args?.type as string | undefined] after
    [if (extType) extType = normalizeEnumValue(extType)]. *)
Definition normalized_type (extType : option string) : option string :=
  match extType with
  | Some (String c r) => Some (normalizeEnumValue float_toString (VStr (String c r)))
  | other => other
  end.

(** The clauses pushed after the text condition. [extType] is the
    normalized one; [personaIds] is [args?.personaIds as number[] |
    undefined]. *)
Definition filterClauses (extractionFields : list FieldInfo)
  (extType : option string) (personaIds : option (list value)) : list string :=
  (match extType with
   | Some (String c r) => [ ("types: { type: { name: {_eq: " ++ String c r ++ "} } }")%string ]
   | _ => []
   end)
  ++
  (match personaIds with
   | Some (p :: ps) =>
       if has_field extractionFields "speaker"
       then [ ("speaker: { person: { persona_id: {_in: [" ++ js_String float_toString (VArr (p :: ps)) ++ "]} } }")%string ]
       else []
   | _ => []
   end).

Definition selectionFields (extractionFields : list FieldInfo) : list string :=
  ["id"; "summary"; "display_ts"]
  ++ (if has_field extractionFields "text" then ["text"] else [])
  ++ (if has_field extractionFields "sentiment" then ["sentiment"] else [])
  ++ (if has_field extractionFields "call" then [ "call { id name display_ts company { name } }" ]
      else if has_field extractionFields "interview" then [ "interview { id name display_ts company { name } }" ]
      else [])
  ++ [ "types { type { name } }" ].

(** The query text; [gql] concatenates the pieces of its template. *)
Definition searchQueryString (whereCombined : string) (limit : Z)
  (selection : list string) : string :=
  ("
      query SearchExtractions {
        extraction(
          where: { " ++ whereCombined ++ " }
          order_by: { display_ts: desc }
          limit: " ++ Number.Z_toString limit ++ "
        ) {
          " ++ join (nl ++ "          ")%string selection ++ "
        }
      }")%string.

Definition search_extractions_catch (queryString : string) (error : error)
  : M ToolResult :=
  let errorMsg := message_of error in
  let actionableHint := ("For schema issues, try `help(topic: " ++ dq ++ "schema" ++ dq ++ ")` or review the main guide at `graphql://guide/context`.")%string in
  let actionableHint :=
    match group1 (hasuraPath patterns errorMsg) with
    | Some path => ("Failing path might be related to: " ++ path ++ ". " ++ actionableHint)%string
    | None => actionableHint
    end in
  let errorMsg :=
    if includes "expected an enum value" errorMsg
       && (includes "but found a string" errorMsg || includes "but found String" errorMsg)
    then ("Error: Invalid enum value. Enum values should be used directly without quotes (e.g., `type_name: {_eq: Issue}` not `type_name: {_eq: " ++ dq ++ "Issue" ++ dq ++ "}`). Check available enum values using `find-fields(typeName: " ++ dq ++ "YourEnumTypeName" ++ dq ++ ")`. Original error: " ++ errorMsg)%string
    else errorMsg in
  ret (tool_error [ ("Error executing search: " ++ errorMsg ++ "
Query attempted:
" ++ queryString ++ "
" ++ actionableHint)%string ]).

Definition search_extractions (phrase extType : option string) (limit : value)
  (personaIds : option (list value)) : M ToolResult :=
  let limit := guarded_limit limit 10 50 in
  match phrase with
  | None | Some EmptyString => ret (tool_error [ "Error: 'phrase' argument is required for search-extractions." ])
  | Some phrase =>
      let extType := normalized_type extType in
      extractionFields <- getTypeFields downstream "extraction" ;;
      match textClause extractionFields phrase with
      | None => ret (tool_error [ "Error: No suitable text field found on 'extraction' for searching." ])
      | Some clause =>
          let whereClauses :=
            [clause] ++ filterClauses extractionFields extType personaIds in
          let whereCombined := join ", " whereClauses in
          let queryString :=
            searchQueryString whereCombined limit (selectionFields extractionFields) in
          try_catch
            (result <- request downstream queryString VUndefined ;;
             ret (tool_ok [ ("Executed query:

```graphql
" ++ queryString ++ "
```")%string;
                            JSON_stringify_pretty result ]))
            (search_extractions_catch queryString)
      end
  end.

(** *** [top-customer-issues] *)



End Tools.

(* ===================================================================== *)
(** ** Query templates                                                    *)
(* ===================================================================== *)

(** [throw new Error(message)]. Whatever a handler catches it reads the
  [message] of; nothing tells the classes of errors apart, and a plain
  [Error] is carried like a [TypeError]. *)
Definition Error (message : string) : error := TypeError message.

(** [s.replace(/[%_]/g, '')] *)
Fixpoint remove_wildcards (s : string) : string :=
  match s with
  | EmptyString => EmptyString
  | String c r =>
      if Ascii.eqb c "%" || Ascii.eqb c "_" then remove_wildcards r
      else String c (remove_wildcards r)
  end.

(** [Math.min(Math.max(1, n), cap)] on what [parseInt] gave; [NaN], which
  is [None], goes through both. *)
Definition clamp (n : option Z) (cap : Z) : option Z :=
  option_map (fun n => Z.min (Z.max 1 n) cap) n.

(** [`${n}`] for such a number. *)
Definition int_toString (n : option Z) : string :=
  match n with
  | Some z => Number.Z_toString z
  | None => "NaN"
  end.

(** [v !== undefined] *)
Definition is_defined (v : value) : bool :=
  match v with
  | VUndefined => false
  | _ => true
  end.

(** The parameters of a template, [params: any], an object in every
  call. *)
Definition Params : Type := list (string * value).

(** A member of the object that [getExampleVariables] returns: a string or
  a number, which may be [NaN]. *)
Inductive ExampleValue : Type :=
| EText (s : string)
| ENumber (n : option Z).

Definition ExampleVariables : Type := list (string * ExampleValue).

(** What [JSON.stringify] sees of such an object: [NaN] is serialized as
  [null]. *)
Definition example_json (exampleVars : ExampleVariables) : value :=
  VObj (map (fun kv => (fst kv,
                        match snd kv with
                        | EText s => VStr s
                        | ENumber (Some z) => VNum (inject_Z z)
                        | ENumber None => VNull
                        end)) exampleVars).

(** [QueryTemplateParameter], with the members that the handlers read. *)
Record QueryTemplateParameter : Type := {
  p_name : string;
  p_type : string;
  p_description : string
  }.

(** [QueryTemplate]; [getExampleVariables] is present in every template. *)
Record QueryTemplate : Type := {
  t_description : string;
  t_parameters : list QueryTemplateParameter;
  generateQuery : Params -> error + string;
  getExampleVariables : Params -> M ExampleVariables
  }.

Section Templates.

Variable float_toString : Q -> string.
(** [d = new Date(); d.setDate(d.getDate() - days); d.toISOString()] at
    the time [now]. *)
Variable isoDateDaysAgo : Z -> Z -> string.

(** [params?.k ? String(params.k).replace(/[%_]/g, '') : dflt] *)
Definition text_param (params : Params) (k dflt : string) : string :=
  if truthy (lookup_prop k params)
  then remove_wildcards (js_String float_toString (lookup_prop k params))
  else dflt.

(** [Math.min(Math.max(1, parseInt(String(params?.k ?? dflt), 10)), cap)] *)
Definition limit_param (params : Params) (k : string) (dflt cap : Z) : option Z :=
  clamp (parseInt (js_String float_toString
                     (nullish_or (lookup_prop k params) (VNum (inject_Z dflt))))) cap.

Definition find_person : QueryTemplate := {|
  t_description := "Find a person by their first or last name. Returns basic info and company.";
  t_parameters :=
    [ {| p_name := "name"; p_type := "string"; p_description := "First or last name to search for." |};
      {| p_name := "limit"; p_type := "number"; p_description := "Maximum number of person records to return." |} ];
  generateQuery := fun params =>
    let name := text_param params "name" EmptyString in
    let nameParam := ("%" ++ name ++ "%")%string in
    let limit := limit_param params "limit" 5 25 in
    inr "
        query FindPerson($nameParam: String!, $limit: Int!) {
          person(
            where: {_or: [{first_name: {_ilike: $nameParam}}, {last_name: {_ilike: $nameParam}}]},
            limit: $limit
          ) {
            id
            first_name
            last_name
            email
            title
            company { name }
          }
        }
      ";
  getExampleVariables := fun params =>
    let name := text_param params "name" "Alice" in
    ret [ ("nameParam", EText ("%" ++ name ++ "%")%string);
          ("limit", ENumber (limit_param params "limit" 5 25)) ]
  |}.

Definition last_call_with_person : QueryTemplate := {|
  t_description := "Find the last call (interview) a specific person attended, identified by name. Returns person details and their last interview details including attendees.";
  t_parameters :=
    [ {| p_name := "name"; p_type := "string"; p_description := "First or last name of the person." |};
      {| p_name := "interviewLimit"; p_type := "number"; p_description := "Max number of interviews to return per matching person (useful if name is ambiguous)." |} ];
  generateQuery := fun params =>
    let personSearchLimit := 5 in
    let interviewLimit := limit_param params "interviewLimit" 1 10 in
    inr "
        query LastCallWithPersonByName($nameParam: String!, $personSearchLimit: Int!, $interviewLimit: Int!) {
          person( 
            where: {_or: [{first_name: {_ilike: $nameParam}}, {last_name: {_ilike: $nameParam}}]},
            limit: $personSearchLimit 
          ) {
            id
            first_name
            last_name
            email
            title
            company { name }
            interview_attendees(
              order_by: {interview: {display_ts: desc}},
              limit: $interviewLimit 
            ) {
              interview {
                id
                name
                display_ts
                recorded_at
                short_summary
                attendees(limit: 5) {
                  person { id first_name last_name email }
                }
              }
            }
          }
        }
      ";
  getExampleVariables := fun params =>
    let name := text_param params "name" "Bob" in
    ret [ ("nameParam", EText ("%" ++ name ++ "%")%string);
          ("personSearchLimit", ENumber (Some 5));
          ("interviewLimit", ENumber (limit_param params "interviewLimit" 1 10)) ]
  |}.

Definition recent_calls_with_person : QueryTemplate := {|
  t_description := "Find recent calls involving a specific person by searching interview attendees. Returns interview details.";
  t_parameters :=
    [ {| p_name := "name"; p_type := "string"; p_description := "Person name (first or last) to search within attendees." |};
      {| p_name := "limit"; p_type := "number"; p_description := "Maximum number of calls to return." |} ];
  generateQuery := fun params =>
    let name := text_param params "name" EmptyString in
    let limit := limit_param params "limit" 5 25 in
    inr "
        query RecentCallsWithPerson($nameParam: String!, $limit: Int!) {
          interview_attendee(
            where: {
              person: {
                _or: [
                  {first_name: {_ilike: $nameParam}},
                  {last_name: {_ilike: $nameParam}}
                ]
              }
            },
            order_by: {interview: {display_ts: desc}},
            limit: $limit
          ) {
            interview {
              id
              name
              display_ts
              recorded_at
              short_summary
              attendees(limit: 3) {
                person { first_name, last_name }
              }
            }
          }
        }
      ";
  getExampleVariables := fun params =>
    let name := text_param params "name" "Nikhil" in
    ret [ ("nameParam", EText ("%" ++ name ++ "%")%string);
          ("limit", ENumber (limit_param params "limit" 5 25)) ]
  |}.

Definition recent_calls : QueryTemplate := {|
  t_description := "List the most recent calls (interviews).";
  t_parameters :=
    [ {| p_name := "limit"; p_type := "number"; p_description := "Number of calls to return." |} ];
  generateQuery := fun params =>
    let limit := limit_param params "limit" 10 50 in
    inr "
        query RecentCalls($limit: Int!) {
          interview(
            order_by: {display_ts: desc},
            limit: $limit
          ) {
            id
            name
            display_ts
            recorded_at
            short_summary
            attendees(limit: 3) { person { first_name last_name } }
          }
        }
      ";
  getExampleVariables := fun params =>
    ret [ ("limit", ENumber (limit_param params "limit" 10 50)) ]
  |}.

Definition call_with_topic : QueryTemplate := {|
  t_description := "Find calls (interviews) discussing a specific topic by searching extraction summaries.";
  t_parameters :=
    [ {| p_name := "topic"; p_type := "string"; p_description := "Topic/keyword to search for in extraction summaries." |};
      {| p_name := "limit"; p_type := "number"; p_description := "Maximum number of extractions (and thus indirectly calls) to return." |} ];
  generateQuery := fun params =>
    let topic := text_param params "topic" EmptyString in
    let topicParam := ("%" ++ topic ++ "%")%string in
    let limit := limit_param params "limit" 5 25 in
    inr "
        query CallsWithTopic($topicParam: String!, $limit: Int!) {
          extraction(
            where: { summary: {_ilike: $topicParam} },
            order_by: {display_ts: desc},
            limit: $limit
          ) {
            id
            summary
            display_ts
            call {
              id
              name
              display_ts
              recorded_at
            }
          }
        }
      ";
  getExampleVariables := fun params =>
    let topic := text_param params "topic" "integration" in
    ret [ ("topicParam", EText ("%" ++ topic ++ "%")%string);
          ("limit", ENumber (limit_param params "limit" 5 25)) ]
  |}.

(** The variable definitions and the conditions that [generateQuery] of
    [signal-by-type] pushes for [days] and [personaId]. *)
Definition signal_gqlVariables (params : Params) : list string :=
  (if is_defined (lookup_prop "days" params) then [ "$sinceDateParam: timestamp!" ] else [])
  ++ (if is_defined (lookup_prop "personaId" params) then [ "$personaIdParam: Int!" ] else []).

Definition signal_whereClauses (type : string) (params : Params) : list string :=
  [ ("types: { type: { name: {_eq: " ++ type ++ "} } }")%string ]
  ++ (if is_defined (lookup_prop "days" params) then [ "display_ts: {_gte: $sinceDateParam}" ] else [])
  ++ (if is_defined (lookup_prop "personaId" params) then [ "attendee: { person: { persona_id: {_eq: $personaIdParam} } }" ] else []).

Definition signal_by_type : QueryTemplate := {|
  t_description := "Retrieve recent extractions (signals) of a specific type. Can optionally filter by time window (days) and speaker's persona ID.";
  t_parameters :=
    [ {| p_name := "type"; p_type := "string"; p_description := "The extraction type name (enum value, e.g., 'issue', 'featureRequest')." |};
      {| p_name := "limit"; p_type := "number"; p_description := "Number of signals to return." |};
      {| p_name := "days"; p_type := "number"; p_description := "Optional: Time window in days. If provided, filters signals newer than this many days ago." |};
      {| p_name := "personaId"; p_type := "number"; p_description := "Optional: Filter by speaker's persona ID (e.g., 246 for Customer)." |} ];
  generateQuery := fun params =>
    let type := normalizeEnumValue float_toString (lookup_prop "type" params) in
    if is_empty type
    then inl (Error "The 'type' parameter is required for the signal-by-type template.")
    else
      let gqlVariables := signal_gqlVariables params in
      let whereClauses := signal_whereClauses type params in
      let variableDefinitionString :=
        match gqlVariables with
        | [] => EmptyString
        | _ => ("(" ++ join ", " gqlVariables ++ ")")%string
        end in
      let whereClauseString := join ", " whereClauses in
      let limit := limit_param params "limit" 10 50 in
      inr ("
        query SignalsByType" ++ variableDefinitionString ++ " {
          extraction(
            where: { _and: [ {" ++ whereClauseString ++ "} ] },
            order_by: {display_ts: desc},
            limit: " ++ int_toString limit ++ "
          ) {
            id
            summary
            display_ts
            sentiment
            call { id name company { name } }
            attendee { person { first_name last_name persona_id company { name } } }
            types { type { name } }
          }
        }
      ")%string;
  getExampleVariables := fun params =>
    exampleVars <-
      (if is_defined (lookup_prop "days" params) then
         match parseInt (js_String float_toString (lookup_prop "days" params)) with
         | Some daysNum =>
             if 0 <? daysNum then
               let daysNum := Z.min daysNum 365 in
               now <- Date_now ;;
               ret [ ("sinceDateParam", EText (isoDateDaysAgo now daysNum)) ]
             else ret []
         | None => ret []
         end
       else ret []) ;;
    ret (exampleVars ++
         if is_defined (lookup_prop "personaId" params) then
           match parseInt (js_String float_toString (lookup_prop "personaId" params)) with
           | Some personaIdNum => [ ("personaIdParam", ENumber (Some personaIdNum)) ]
           | None => []
           end
         else [])%list
  |}.

(** [const queryTemplates: Record<string, QueryTemplate>], in the order of
    its keys. *)
Definition queryTemplates : list (string * QueryTemplate) :=
  [ ("find-person", find_person);
    ("last-call-with-person", last_call_with_person);
    ("recent-calls-with-person", recent_calls_with_person);
    ("recent-calls", recent_calls);
    ("call-with-topic", call_with_topic);
    ("signal-by-type", signal_by_type) ].

(** The properties that an object literal inherits from
    [Object.prototype]. *)
Definition Object_prototype_keys : list string :=
  [ "constructor"; "__defineGetter__"; "__defineSetter__"; "hasOwnProperty";
    "__lookupGetter__"; "__lookupSetter__"; "isPrototypeOf";
    "propertyIsEnumerable"; "toString"; "valueOf"; "__proto__";
    "toLocaleString" ].

(** [queryTemplates[templateName]]: a template, a member of
    [Object.prototype], which is truthy and has no [generateQuery], or
    [undefined]. *)
Inductive TemplateLookup : Type :=
| OwnTemplate (t : QueryTemplate)
| Inherited
| NoTemplate.

Fixpoint assoc {A} (k : string) (l : list (string * A)) : option A :=
  match l with
  | [] => None
  | (k', a) :: r => if String.eqb k k' then Some a else assoc k r
  end.

Definition lookup_template (templateName : string) : TemplateLookup :=
  match assoc templateName queryTemplates with
  | Some t => OwnTemplate t
  | None =>
      if existsb (String.eqb templateName) Object_prototype_keys then Inherited
      else NoTemplate
  end.

End Templates.

(* ===================================================================== *)
(** ** Tool handlers that generate or send a fixed query                  *)
(* ===================================================================== *)

(** The regular expressions of [nl-query], evaluated by the platform's
  engine against the description; the first and the last give the text of
  their group 1 when they match. *)
Record DescriptionPatterns : Type := {
  (* /(?:last call with|recent call with|most recent call with|latest call
     with|recent conversation with|most recent conversation with|latest
     conversation with|find the most recent call with|calls with|
     conversations with|meetings with|interviews with)\s+([\w\s.-]+)/i *)
  callsWith : string -> option string;
  (* /(?:top|customer|recent)\s+issues/i *)
  someIssues : string -> bool;
  (* /feature\s+requests/i *)
  featureRequests : string -> bool;
  (* /(?:conversation|calls?|discussion|talk)\s+about\s+([\w\s.-]+)/i *)
  talkAbout : string -> option string
  }.

Section Generators.

Variable float_toString : Q -> string.
Variable downstream : Downstream.
(** [JSON.stringify(v, null, 2)] *)
Variable JSON_stringify_pretty : value -> string.
Variable isoDateDaysAgo : Z -> Z -> string.
Variable descriptionPatterns : DescriptionPatterns.
(** The successive matches of [quotedEnumPattern] in a query: one of the
    operators [_eq], [_neq], [_in], [_nin], [_gt], [_lt], [_gte], [_lte],
    a colon, white space or none, and an identifier between double quotes.
    Each match gives the operator, [match[1]], and the identifier,
    [match[2]]. *)
Variable quotedEnumPattern : string -> list (string * string).
(** [new RegExp(`\b${scalarField}\s*\{`, 'g').test(query)], of a field and
    a query. *)
Variable subSelectionPattern : string -> string -> bool.

Local Abbreviation queryTemplates := (queryTemplates float_toString isoDateDaysAgo).
Local Abbreviation lookup_template := (lookup_template float_toString isoDateDaysAgo).

(** *** [recent-conversation-with] *)

Definition FindPersonConversationsQuery : string := "
        query FindPersonConversations($nameParam: String!, $personLimitParam: Int!, $interviewLimitParam: Int!) {
          person(
            where: {_or: [{first_name: {_ilike: $nameParam}}, {last_name: {_ilike: $nameParam}}]},
            limit: $personLimitParam 
          ) {
            id
            first_name
            last_name
            email
            company { name }
            interview_attendees(order_by: {interview: {display_ts: desc}}, limit: $interviewLimitParam) {
              interview {
                id
                name
                display_ts
                recorded_at
                short_summary
              }
            }
          }
        }
      ".

Definition recent_conversation_with (name : option string) (limit : value)
  : M ToolResult :=
  let interviewLimit := guarded_limit float_toString limit 1 10 in
  let personSearchLimit := 5 in
  match name with
  | None | Some EmptyString => ret (tool_error [ "Error: 'name' argument is required for recent-conversation-with." ])
  | Some name =>
      try_catch
        (let query := FindPersonConversationsQuery in
         let variables :=
           VObj [ ("nameParam", VStr ("%" ++ normalizeEnumValue float_toString (VStr name) ++ "%")%string);
                  ("personLimitParam", VNum (inject_Z personSearchLimit));
                  ("interviewLimitParam", VNum (inject_Z interviewLimit)) ] in
         result <- request downstream query variables ;;
         ret (tool_ok [ JSON_stringify_pretty result ]))
        (fun error =>
           ret (tool_error [ ("Error finding conversations with " ++ name ++ ": " ++ message_of error)%string ]))
  end.

(** *** [topic-conversations] *)

Definition CallsWithTopicQuery : string := "
        query CallsWithTopic($topicParam: String!, $limitParam: Int!) {
          extraction(
            where: {
              summary: {_ilike: $topicParam} 
            },
            order_by: {display_ts: desc}, 
            limit: $limitParam
          ) {
            id
            summary 
            display_ts
            call { 
              id
              name
              display_ts
              recorded_at
            }
          }
        }
      ".

Definition topic_conversations (topic : option string) (limit : value)
  : M ToolResult :=
  let limit := guarded_limit float_toString limit 5 25 in
  match topic with
  | None | Some EmptyString => ret (tool_error [ "Error: 'topic' argument is required for topic-conversations." ])
  | Some topic =>
      try_catch
        (let variables :=
           VObj [ ("topicParam", VStr ("%" ++ normalizeEnumValue float_toString (VStr topic) ++ "%")%string);
                  ("limitParam", VNum (inject_Z limit)) ] in
         let query := CallsWithTopicQuery in
         result <- request downstream query variables ;;
         ret (tool_ok [ JSON_stringify_pretty result ]))
        (fun error =>
           ret (tool_error [ ("Error finding conversations about '" ++ topic ++ "': " ++ message_of error)%string ]))
  end.

(** *** [query-template] *)

(** The lines that the [forEach] over the parameters of a template
    appends, one for each parameter that the object has a value for. *)
Definition provided_lines (templateDefinition : QueryTemplate) (parameters : Params)
  : string :=
  String.concat EmptyString
    (map (fun pInfo =>
            if is_defined (lookup_prop (p_name pInfo) parameters)
            then ("  - " ++ p_name pInfo ++ ": " ++ js_String float_toString (lookup_prop (p_name pInfo) parameters) ++ " (Type: " ++ p_type pInfo ++ (if is_empty (p_description pInfo) then EmptyString else (", " ++ p_description pInfo)%string) ++ ")\n")%string
            else EmptyString)
         (t_parameters templateDefinition)).

(** [args?.parameters as Record<string, any> | undefined || {}] *)
Definition or_empty (parameters : option Params) : Params :=
  match parameters with
  | Some p => p
  | None => []
  end.

Definition query_template (templateName : option string) (parameters : option Params)
  : M ToolResult :=
  let parameters := or_empty parameters in
  match templateName with
  | None | Some EmptyString => ret (tool_error [ "Error: 'template' argument is required for query-template." ])
  | Some templateName =>
      match lookup_template templateName with
      | NoTemplate =>
          ret (tool_error [ ("Template '" ++ templateName ++ "' not found. Available templates: " ++ join ", " (map fst queryTemplates))%string ])
      | found =>
          try_catch
            (templateDefinition <-
               lift (match found with
                     | OwnTemplate t => inr t
                     | _ => inl (TypeError "templateDefinition.generateQuery is not a function")
                     end) ;;
             queryStr <- lift (generateQuery templateDefinition parameters) ;;
             let responseText := ("Template: " ++ templateName ++ "\nDescription: " ++ t_description templateDefinition ++ "\n")%string in
             let responseText := (responseText ++ "\nParameters Provided:\n")%string in
             let responseText :=
               match parameters with
               | _ :: _ => (responseText ++ provided_lines templateDefinition parameters)%string
               | [] => (responseText ++ "  (No parameters provided, using defaults where applicable)\n")%string
               end in
             let responseText := (responseText ++ "\nGenerated query:\n```graphql\n" ++ queryStr ++ "\n```")%string in
             exampleVars <- getExampleVariables templateDefinition parameters ;;
             let responseText :=
               match exampleVars with
               | _ :: _ => (responseText ++ ("\n\nRecommended GraphQL variables for this query:\n```json\n" ++ JSON_stringify_pretty (example_json exampleVars) ++ "\n```")%string)%string
               | [] => responseText
               end in
             ret (tool_ok [ responseText ]))
            (fun error =>
               ret (tool_error [ ("Error generating query from template '" ++ templateName ++ "': " ++ message_of error)%string ]))
      end
  end.

(** *** [validate-query] *)

Definition commonScalarLikeFields : list string :=
  [ "id"; "name"; "summary"; "text"; "display_ts"; "status"; "type"; "email"; "title"; "kind" ].

(** The handler awaits nothing. [gql] of graphql-request concatenates the
    pieces of its template and parses nothing, so that the [catch] of the
    syntax check is never entered and [syntaxValid] stays [true]. *)
Definition validate_query (query : option string) : ToolResult :=
  match query with
  | None | Some EmptyString => tool_error [ "Error: 'query' argument is required for validate-query." ]
  | Some query =>
      let syntaxValid := true in
      let syntaxErrorMessage := EmptyString in
      let lowerQuery := toLowerCase (trim query) in
      let isMutation :=
        syntaxValid && (startsWith "mutation" lowerQuery || includes "mutation {" lowerQuery) in
      let potentialIssues : list string :=
        if syntaxValid then
          map (fun m : string * string =>
                 (("Potential quoted enum: Found `" ++ dq ++ snd m ++ dq ++ "` after `" ++ fst m ++ "`. ")%string ++ ("Enum values in GraphQL are typically unquoted (e.g., `" ++ fst m ++ ": " ++ snd m ++ "`). ")%string ++ ("Use `find-fields(typeName: " ++ dq ++ "YourEnumTypeName" ++ dq ++ ")` to see valid unquoted enum values.")%string)%string)
              (quotedEnumPattern query)
          ++ map (fun scalarField =>
                    (("Potential invalid sub-selection on '" ++ scalarField ++ "'. Fields like '" ++ scalarField ++ "' are often scalar or enum types and cannot have sub-fields (e.g., { ... }). ")%string ++ ("Verify with `find-fields` if '" ++ scalarField ++ "' on its parent type is an Object type. If it's a scalar/enum, remove the sub-selection.")%string)%string)
                 (List.filter (fun scalarField => subSelectionPattern scalarField query)
                              commonScalarLikeFields)
        else [] in
      let response := "## Query Validation Report ##\n" in
      let response := (response ++ ("**Syntax Valid:** " ++ (if syntaxValid then "Yes" else ("No - " ++ syntaxErrorMessage)%string) ++ "\n")%string)%string in
      let response :=
        if syntaxValid
        then (response ++ ("**Is Mutation:** " ++ (if isMutation then "Yes (Mutations are BLOCKED)" else "No") ++ "\n")%string)%string
        else response in
      if syntaxValid && isMutation
      then tool_error [ (response ++ "\n**Overall Result: INVALID (Mutations not allowed)**")%string ]
      else
        let response :=
          match potentialIssues with
          | _ :: _ =>
              (response ++ "\n**Potential Issues & Recommendations:**\n"
               ++ String.concat EmptyString (map (fun issue => ("- " ++ issue ++ "\n")%string) potentialIssues))%string
          | [] => response
          end in
        let response :=
          if syntaxValid && negb isMutation && (List.length potentialIssues =? 0)%nat
          then (response ++ "\n**Overall Result: Query appears valid and is not a mutation. No common pitfalls detected by heuristics.**")%string
          else if syntaxValid && negb isMutation
               then (response ++ "\n**Overall Result: Query syntax is valid and not a mutation, but review potential issues above.**")%string
               else response in
        let response := (response ++ "\n\n**General Advice:**\n")%string in
        let response := (response ++ "- Always double-check field names, type names, and their casing.\n")%string in
        let response := (response ++ ("- Use `find-fields(typeName: " ++ dq ++ "YourType" ++ dq ++ ")` to get details about a type, its fields, and if it's an enum, its valid values.\n")%string)%string in
        let response := (response ++ ("- Consult the main guide for schema overview and query examples: `read-resource(uri: " ++ dq ++ "graphql://guide/context" ++ dq ++ ")`.\n")%string)%string in
        {| content := [ response ]; isError := negb syntaxValid || isMutation |}
  end.

(** *** [nl-query] *)







End Generators.

(* ===================================================================== *)
(** ** [find-fields]                                                      *)
(* ===================================================================== *)

Section FindFields.

Variable float_toString : Q -> string.
Variable downstream : Downstream.

(** [formatTypeForDisplay] on the [type] of a field as the endpoint sent
    it, a JSON value that nothing has checked. The inner function is the
    call on [type.ofType], [undefined] when the object has no such
    property. *)
Fixpoint formatTypeForDisplay_json (type : value) : string :=
  match type with
  | VObj props =>
      let ofType_display :=
        (fix at_ofType (l : list (string * value)) : string :=
           match l with
           | [] => "Unknown"
           | (k, v) :: r =>
               if String.eqb "ofType" k then formatTypeForDisplay_json v
               else at_ofType r
           end) props in
      if strict_eq_str (lookup_prop "kind" props) "NON_NULL"
      then template [ofType_display; "!"]
      else if strict_eq_str (lookup_prop "kind" props) "LIST"
           then template ["["; ofType_display; "]"]
           else if truthy (lookup_prop "name" props)
                then js_String float_toString (lookup_prop "name" props)
                else "UnnamedType"
  | _ => if truthy type then "UnnamedType" else "Unknown"
  end.

(** [while (currentFieldType.ofType && (currentFieldType.kind === 'NON_NULL'
    || currentFieldType.kind === 'LIST')) currentFieldType =
    currentFieldType.ofType], from a [currentFieldType] that is neither
    [null] nor [undefined]. *)
Fixpoint unwrap (currentFieldType : value) : value :=
  match currentFieldType with
  | VObj props =>
      (fix at_ofType (l : list (string * value)) : value :=
         match l with
         | [] => currentFieldType
         | (k, v) :: r =>
             if String.eqb "ofType" k
             then if truthy v
                     && (strict_eq_str (lookup_prop "kind" props) "NON_NULL"
                         || strict_eq_str (lookup_prop "kind" props) "LIST")
                  then unwrap v
                  else currentFieldType
             else at_ofType r
         end) props
  | _ => currentFieldType
  end.

(** [field.type.kind === 'LIST' || (field.type.kind === 'NON_NULL' &&
    field.type.ofType?.kind === 'LIST')] *)
Definition isList (type : value) : bool :=
  strict_eq_str (js_get type "kind") "LIST"
  || strict_eq_str (js_get type "kind") "NON_NULL"
     && strict_eq_str (js_get (js_get type "ofType") "kind") "LIST".

(** What one turn of the loop over the fields appends to [output]; the
    read of [ofType] throws when [field.type] is [null] or [undefined]. *)
Definition field_lines (typeName : string) (field : FieldInfo) : error + string :=
  let output := ("- `" ++ js_String float_toString (f_name field) ++ "`: `" ++ formatTypeForDisplay_json (f_type field) ++ "`" ++ (if truthy (f_description field) then (" - " ++ js_String float_toString (f_description field))%string else EmptyString) ++ "\n")%string in
  match read_prop (f_type field) "ofType" with
  | inl e => inl e
  | inr _ =>
      let currentFieldType := unwrap (f_type field) in
      if strict_eq_str (js_get currentFieldType "kind") "OBJECT" then
        let relatedTypeName := js_get currentFieldType "name" in
        if truthy relatedTypeName then
          let isList := isList (f_type field) in
          inr (output
               ++ ("   Relationship to: " ++ (if isList then ("[" ++ js_String float_toString relatedTypeName ++ "]")%string else js_String float_toString relatedTypeName) ++ "\n")%string
               ++ ("   Access via: " ++ typeName ++ " { " ++ js_String float_toString (f_name field) ++ " { ... } }\n")%string)%string
        else inr output
      else if strict_eq_str (js_get currentFieldType "kind") "ENUM" then
        let enumTypeName := js_get currentFieldType "name" in
        if truthy enumTypeName then
          inr (output ++ ("   This field is an ENUM type: `" ++ js_String float_toString enumTypeName ++ "`. Use `find-fields(typeName: " ++ dq ++ js_String float_toString enumTypeName ++ dq ++ ")` to see its values.\n")%string)%string
        else inr output
      else inr output
  end.

(** [for (const field of fields) { output += ... }] *)
Fixpoint fields_lines (typeName : string) (fields : list FieldInfo) (output : string)
  : error + string :=
  match fields with
  | [] => inr output
  | field :: rest =>
      match field_lines typeName field with
      | inl e => inl e
      | inr lines => fields_lines typeName rest (output ++ lines)%string
      end
  end.

(** [types.find(t => t.name === typeName)]: the callback reads [name] of
    every entry up to the one found. *)
Fixpoint find_type (typeName : string) (types : list value) : error + option value :=
  match types with
  | [] => inr None
  | t :: rest =>
      match read_prop t "name" with
      | inl e => inl e
      | inr n => if strict_eq_str n typeName then inr (Some t)
                 else find_type typeName rest
      end
  end.

(** [schema.__schema.types.find(...)] on a snapshot that nothing has
    checked. *)
Definition find_typeDetail (schema : value) (typeName : string) : error + option value :=
  match read_prop schema "__schema" with
  | inl e => inl e
  | inr s =>
      match read_prop s "types" with
      | inl e => inl e
      | inr types =>
          match read_prop types "find" with
          | inl e => inl e
          | inr _ =>
              match as_array types "schema.__schema.types.find" with
              | inl e => inl e
              | inr types => find_type typeName types
              end
          end
      end
  end.

Definition find_fields (typeName : option string) : M ToolResult :=
  match typeName with
  | None | Some EmptyString => ret (tool_error [ "Error: 'typeName' argument is required for find-fields." ])
  | Some typeName =>
      try_catch
        (schema <- getSchemaInfo downstream ;;
         typeDetail <- lift (find_typeDetail schema typeName) ;;
         match typeDetail with
         | None => ret (tool_ok [ ("Type '" ++ typeName ++ "' not found.")%string ])
         | Some typeDetail =>
             let output := ("=== " ++ typeName ++ " SCHEMA ===\n")%string in
             let output :=
               if truthy (js_get typeDetail "description")
               then (output ++ ("Description: " ++ js_String float_toString (js_get typeDetail "description") ++ "\n")%string)%string
               else output in
             let output := (output ++ ("Kind: " ++ js_String float_toString (js_get typeDetail "kind") ++ "\n\n")%string)%string in
             fields <- getTypeFields downstream typeName ;;
             output <-
               (if strict_eq_str (js_get typeDetail "kind") "ENUM" then
                  let output := (output ++ "ENUM VALUES:\n")%string in
                  match fields with
                  | _ :: _ =>
                      ret (output
                           ++ String.concat EmptyString
                                (map (fun val => ("- `" ++ js_String float_toString (f_name val) ++ "`" ++ (if truthy (f_description val) then (" - " ++ js_String float_toString (f_description val))%string else EmptyString) ++ "\n")%string)
                                     fields))%string
                  | [] => ret (output ++ "No enum values found for this type.\n")%string
                  end
                else if strict_eq_str (js_get typeDetail "kind") "OBJECT"
                        || strict_eq_str (js_get typeDetail "kind") "INPUT_OBJECT" then
                  let output := (output ++ "FIELDS:\n")%string in
                  output <-
                    match fields with
                    | _ :: _ => lift (fields_lines typeName fields output)
                    | [] => ret (output ++ "No fields found for this type.\n")%string
                    end ;;
                  let output :=
                    if String.eqb typeName "extraction"
                    then (output ++ "\nCOMMON QUERY PATTERNS for extraction:\n" ++ "  - Get recent extractions: order_by: { display_ts: desc }\n" ++ "  - Filter by type (e.g., Issue, FeatureRequest - use bare enum value without quotes):\n" ++ "    where: { types: { type: { name: { _eq: YourEnumValue } } } }\n" ++ "  - Common enum values for filtering by type: Issue, FeatureRequest, Objection, PositiveFeedback, ActionItem, Question, Pricing\n" ++ ("  - Search summary/text: where: { summary: { _ilike: " ++ dq ++ "%keyword%" ++ dq ++ " } } (also works for 'text' field if available)\n")%string)%string
                    else output in
                  let output :=
                    if String.eqb typeName "interview"
                    then (output ++ "\nCOMMON QUERY PATTERNS for interview:\n" ++ "  - Get recent interviews: order_by: { display_ts: desc }\n" ++ ("  - Get specific interview by ID: query { interview_by_pk(id: " ++ dq ++ "your_id_here" ++ dq ++ ") { ...fields... } } (note: uses primary key lookup, not 'where' clause for ID)\n")%string ++ "  - Find interviews a person attended: see 'recent-conversation-with' tool or 'last-call-with-person' query template.\n")%string
                    else output in
                  let output :=
                    if String.eqb typeName "person"
                    then (output ++ "\nCOMMON QUERY PATTERNS for person:\n" ++ ("  - Find person by name: where: {_or: [{first_name: {_ilike: " ++ dq ++ "%name%" ++ dq ++ "}}, {last_name: {_ilike: " ++ dq ++ "%name%" ++ dq ++ "}}]} \n")%string ++ "  - Filter by customer persona: where: { persona_id: {_eq: 246} } \n")%string
                    else output in
                  ret output
                else
                  ret (output ++ ("Details for kind " ++ js_String float_toString (js_get typeDetail "kind") ++ " are not specially formatted by this tool.\n")%string)%string) ;;
             ret (tool_ok [ trim output ])
         end)
        (fun error =>
           ret (tool_error [ ("Error introspecting type '" ++ typeName ++ "': " ++ message_of error)%string ]))
  end.

End FindFields.

(* ===================================================================== *)
(** ** Prompts                                                            *)
(* ===================================================================== *)

(** What the handler of [GetPromptRequestSchema] throws: an object with a
  [code] and a [message]. *)
Record PromptError : Type := { rpc_code : Z; rpc_message : string }.

(** [promptsList]: what [ListPromptsRequestSchema] answers. *)
Record PromptArgument : Type := {
  a_name : string;
  a_description : string;
  a_required : bool
  }.

Record Prompt : Type := {
  prompt_name : string;
  prompt_description : string;
  prompt_arguments : list PromptArgument
  }.

Definition promptsList : list Prompt :=
  [
    {| prompt_name := "recent-calls";
       prompt_description := "Guide: Generate a GraphQL query to list the most recent calls (interviews).";
       prompt_arguments :=
         [ {| a_name := "limit"; a_description := "Number of calls to return (default 10, max 50)."; a_required := false |} ] |};
    {| prompt_name := "call-details";
       prompt_description := "Guide: Retrieve detailed information about a specific call (interview) by ID.";
       prompt_arguments :=
         [ {| a_name := "id"; a_description := "The ID of the call (interview)."; a_required := true |} ] |};
    {| prompt_name := "call-transcript";
       prompt_description := "Guide: Retrieve the full transcript for a specific call (interview) by ID.";
       prompt_arguments :=
         [ {| a_name := "id"; a_description := "The ID of the call (interview)."; a_required := true |} ] |};
    {| prompt_name := "search-transcript";
       prompt_description := "Guide: Search within a call's transcript for a specific phrase.";
       prompt_arguments :=
         [ {| a_name := "id"; a_description := "The ID of the call (interview)."; a_required := true |};
           {| a_name := "phrase"; a_description := "Text to search for (case-insensitive)."; a_required := true |} ] |};
    {| prompt_name := "call-extractions";
       prompt_description := "Guide: Retrieve extractions (signals) from a call, optionally filtered by type name (e.g., 'Issue'). Use bare enum value for type.";
       prompt_arguments :=
         [ {| a_name := "id"; a_description := "The ID of the call (interview)."; a_required := true |};
           {| a_name := "type"; a_description := "Optional: Extraction type name (enum value, e.g., 'Issue', 'FeatureRequest')."; a_required := false |} ] |};
    {| prompt_name := "signal-frequency";
       prompt_description := "Guide: Show how many extractions exist for each extraction type across all calls.";
       prompt_arguments := [] |};
    {| prompt_name := "feature-requests-by-date";
       prompt_description := "Guide: List 'FeatureRequest' extractions across calls in a date range.";
       prompt_arguments :=
         [ {| a_name := "startDate"; a_description := "Start date (YYYY-MM-DD)."; a_required := true |};
           {| a_name := "endDate"; a_description := "End date (YYYY-MM-DD)."; a_required := true |} ] |};
    {| prompt_name := "explore-schema";
       prompt_description := "Guide: Instructions on how to explore the GraphQL schema using available tools/resources.";
       prompt_arguments := [] |};
    {| prompt_name := "recent-issues";
       prompt_description := "Guide: Query the most recent 'Issue'-type extractions (default limit 20, max 50).";
       prompt_arguments :=
         [ {| a_name := "limit"; a_description := "Number of issues to return (default 20)."; a_required := false |} ] |};
    {| prompt_name := "feature-requests";
       prompt_description := "Guide: Query the most recent 'FeatureRequest'-type extractions (default limit 20, max 50).";
       prompt_arguments :=
         [ {| a_name := "limit"; a_description := "Number of feature requests to return (default 20)."; a_required := false |} ] |};
    {| prompt_name := "recent-objections";
       prompt_description := "Guide: List 'Objection'-type extractions in a date range (defaults to last 30 days, max 365 days).";
       prompt_arguments :=
         [ {| a_name := "days"; a_description := "Optional: Number of days back (default 30, max 365)."; a_required := false |};
           {| a_name := "startDate"; a_description := "Optional: Start date (YYYY-MM-DD). Overrides 'days'."; a_required := false |};
           {| a_name := "endDate"; a_description := "Optional: End date (YYYY-MM-DD). Overrides 'days'."; a_required := false |} ] |};
    {| prompt_name := "top-objections";
       prompt_description := "Guide: Alias for recent-objections (past N days, default 30, max 365).";
       prompt_arguments :=
         [ {| a_name := "days"; a_description := "Days back (default 30, max 365)."; a_required := false |} ] |};
    {| prompt_name := "customer-objections";
       prompt_description := "Guide: Get 'Objection'-type extractions voiced by customers (persona filter) within a time range (default 30 days, max 365).";
       prompt_arguments :=
         [ {| a_name := "days"; a_description := "Days back (default 30, max 365)."; a_required := false |} ] |};
    {| prompt_name := "context-guide";
       prompt_description := "Guide: Reminds to open the main BuildBetter Context Guide resource.";
       prompt_arguments := [] |} ].

(** [s.split('T')[0]] *)
Fixpoint before_T (s : string) : string :=
  match s with
  | EmptyString => EmptyString
  | String c r => if Ascii.eqb c "T" then EmptyString else String c (before_T r)
  end.

Section Prompts.

Variable float_toString : Q -> string.
(** [new Date().toISOString()] at the time [now]. *)
Variable Date_toISOString : Z -> string.
(** [d = new Date(); d.setDate(d.getDate() - days); d.toISOString()] at
    the time [now]. *)
Variable isoDateDaysAgo : Z -> Z -> string.

(** [let daysVal = 30; if (args.days !== undefined) { const parsed =
    parseInt(String(args.days), 10); if (!isNaN(parsed) && parsed > 0)
    daysVal = Math.min(parsed, 365) }], the statements that open the three
    prompts on objections. *)
Definition daysVal (days : value) : Z :=
  let daysVal := 30 in
  if is_defined days then
    match parseInt (js_String float_toString days) with
    | Some parsed => if 0 <? parsed then Z.min parsed 365 else daysVal
    | None => daysVal
    end
  else daysVal.

(** The handler; the result is the text of the one message that
    [sendUserMessage] wraps. [args] is [request.params.arguments], with
    the default [{}]. *)
Definition get_prompt (name : string) (args : option Params) (w : World)
  : PromptError + string :=
  let args := match args with Some a => a | None => [] end in
  let arg k := lookup_prop k args in
  let customerPersonaId := 246 in
  if String.eqb name "recent-calls" then
    let limit := limit_param float_toString args "limit" 10 50 in
    let query := ("query GetRecentCalls {
  interview(order_by: {display_ts: desc}, limit: " ++ int_toString limit ++ ") {
    id
    name
    display_ts
    recorded_at
    short_summary 
    attendees(limit:3){person{first_name last_name}}
  }
}")%string in
    inr ("Use the `run-query` tool with the following GraphQL to list the " ++ int_toString limit ++ " most recent calls (interviews):

```graphql
" ++ query ++ "
```")%string
  else if String.eqb name "call-details" then
    let id := arg "id" in
    if negb (truthy id) then inl {| rpc_code := -32602; rpc_message := "Missing required argument 'id' for call-details prompt." |}
    else
      let query := ("query GetCallDetails {
  interview_by_pk(id: " ++ dq ++ js_String float_toString id ++ dq ++ ") {
    id
    name
    display_ts
    recorded_at
    short_summary
    asset_duration_seconds
    attendees {
      person {
        id
        first_name
        last_name
        email
        persona_id 
        company { name }
      }
    }
  }
}")%string in
      inr ("Retrieve details for call (interview) **" ++ js_String float_toString id ++ "** by running this query via `run-query`:

```graphql
" ++ query ++ "
```")%string
  else if String.eqb name "call-transcript" then
    let id := arg "id" in
    if negb (truthy id) then inl {| rpc_code := -32602; rpc_message := "Missing required argument 'id' for call-transcript prompt." |}
    else
      let query := ("query GetCallTranscript {
  interview_by_pk(id: " ++ dq ++ js_String float_toString id ++ dq ++ ") {
    id
    name
    display_ts
    monologues(order_by: {start_sec: asc}) {
      id
      speaker 
      text
      start_sec
      end_sec
      speaker_person { first_name last_name persona_id } 
    }
  }
}")%string in
      inr ("Fetch the full transcript for call (interview) **" ++ js_String float_toString id ++ "** with:

```graphql
" ++ query ++ "
```")%string
  else if String.eqb name "search-transcript" then
    let id := arg "id" in
    let phrase := arg "phrase" in
    if negb (truthy id) || negb (truthy phrase)
    then inl {| rpc_code := -32602; rpc_message := "Arguments 'id' and 'phrase' are required for search-transcript prompt." |}
    else
      let query := ("query SearchTranscriptContent {
  interview_monologue(
    where: {
      text: {_ilike: " ++ dq ++ "%" ++ normalizeEnumValue float_toString phrase ++ "%" ++ dq ++ "},
      interview_id: {_eq: " ++ dq ++ js_String float_toString id ++ dq ++ "}
    },
    order_by: {start_sec: asc}
  ) {
    id
    start_sec
    end_sec
    text
    speaker_person { first_name, last_name } 
    interview { id name }
  }
}")%string in
      inr ("Search for " ++ dq ++ "**" ++ js_String float_toString phrase ++ "**" ++ dq ++ " in the transcript of call (interview) **" ++ js_String float_toString id ++ "** using:

```graphql
" ++ query ++ "
```")%string
  else if String.eqb name "call-extractions" then
    let id := arg "id" in
    if negb (truthy id) then inl {| rpc_code := -32602; rpc_message := "Missing required argument 'id' for call-extractions prompt." |}
    else
      (* [undefined] and the empty string are told apart nowhere *)
      let typeName :=
        if truthy (arg "type") then normalizeEnumValue float_toString (arg "type")
        else EmptyString in
      let whereClause := ("call_id: {_eq: " ++ dq ++ js_String float_toString id ++ dq ++ "}")%string in
      let whereClause :=
        if negb (is_empty typeName)
        then (whereClause ++ (", types: { type: { name: {_eq: " ++ typeName ++ "} } }")%string)%string
        else whereClause in
      let query := ("query GetCallExtractions {
  extraction(
    where: { " ++ whereClause ++ " }
    order_by: {display_ts: asc}
  ) {
    id
    summary 
    display_ts 
    sentiment
    types { type { name } } 
    speaker { person { first_name last_name persona_id } } 
  }
}")%string in
      let desc := if negb (is_empty typeName) then ("type **" ++ typeName ++ "**")%string else "all types" in
      inr ("Retrieve " ++ desc ++ " extractions for call (interview) **" ++ js_String float_toString id ++ "** with:

```graphql
" ++ query ++ "
```")%string
  else if String.eqb name "signal-frequency" then
    let query := "query GetExtractionTypeFrequency {
  extraction_type {
    id
    name
    extraction_type_joins_aggregate { 
       aggregate { count }
    }
  }
}" in
    inr ("Run this query to see extraction (signal) counts per type across all calls:

```graphql
" ++ query ++ "
```")%string
  else if String.eqb name "feature-requests-by-date" then
    let startDate := arg "startDate" in
    let endDate := arg "endDate" in
    if negb (truthy startDate) || negb (truthy endDate)
    then inl {| rpc_code := -32602; rpc_message := "Arguments 'startDate' and 'endDate' are required for feature-requests-by-date prompt." |}
    else
      let featureRequestType := normalizeEnumValue float_toString (VStr "FeatureRequest") in
      let query := ("query FeatureRequestsByDate {
  extraction(
    where: {
      types: { type: { name: {_eq: " ++ featureRequestType ++ "} } }, 
      display_ts: { _gte: " ++ dq ++ js_String float_toString startDate ++ "T00:00:00Z" ++ dq ++ ", _lte: " ++ dq ++ js_String float_toString endDate ++ "T23:59:59Z" ++ dq ++ " } 
    },
    order_by: { display_ts: desc }
  ) {
    id
    summary
    display_ts
    call { id name display_ts }
  }
}")%string in
      inr ("Get 'FeatureRequest' extractions between **" ++ js_String float_toString startDate ++ "** and **" ++ js_String float_toString endDate ++ "** using:

```graphql
" ++ query ++ "
```")%string
  else if String.eqb name "explore-schema" then
    inr ("To explore the GraphQL schema:
1.  **List All Object Types:** Use the `list-types` tool.
2.  **View Fields/Values of a Specific Type:**
    -   Use `find-fields(typeName: " ++ dq ++ "YourTypeName" ++ dq ++ ")`. This works for Objects, Input Objects, and Enums.
    -   Or, use `read-resource(uri: " ++ dq ++ "graphql://type/YourTypeName" ++ dq ++ ")` for a markdown description.
3.  **Understand Relationships:** Consult Section 2 of the main guide (`read-resource(uri: " ++ dq ++ "graphql://guide/context" ++ dq ++ ")`) or use `read-resource(uri: " ++ dq ++ "graphql://diagram/schema-relationships" ++ dq ++ ")`.
4.  **Build Basic Queries:** Use the `build-query` tool (note: no nested fields).")%string
  else if String.eqb name "recent-issues" then
    let limit := limit_param float_toString args "limit" 20 50 in
    let issueType := normalizeEnumValue float_toString (VStr "Issue") in
    let query := ("query RecentIssues {
  extraction(
    where: { types: { type: { name: {_eq: " ++ issueType ++ "} } } }, 
    order_by: { display_ts: desc }, 
    limit: " ++ int_toString limit ++ "
  ) {
    id
    summary
    display_ts
    call { id name display_ts }
  }
}")%string in
    inr ("Use `run-query` with the following GraphQL to get the " ++ int_toString limit ++ " most recent 'Issue' extractions:

```graphql
" ++ query ++ "
```")%string
  else if String.eqb name "feature-requests" then
    let limit := limit_param float_toString args "limit" 20 50 in
    let featureRequestType := normalizeEnumValue float_toString (VStr "FeatureRequest") in
    let query := ("query RecentFeatureRequests {
  extraction(
    where: { types: { type: { name: {_eq: " ++ featureRequestType ++ "} } } }, 
    order_by: { display_ts: desc }, 
    limit: " ++ int_toString limit ++ "
  ) {
    id
    summary
    display_ts
    call { id name display_ts }
  }
}")%string in
    inr ("Use `run-query` with the following GraphQL to get the " ++ int_toString limit ++ " most recent 'FeatureRequest' extractions:

```graphql
" ++ query ++ "
```")%string
  else if String.eqb name "recent-objections" then
    let daysVal := daysVal (arg "days") in
    let startDate := arg "startDate" in
    let endDate := arg "endDate" in
    let dates :=
      if negb (truthy startDate) || negb (truthy endDate)
      then (before_T (isoDateDaysAgo (clock w) daysVal),
            before_T (Date_toISOString (clock w)))
      else (js_String float_toString startDate, js_String float_toString endDate) in
    let startDate := fst dates in
    let endDate := snd dates in
    let objectionType := normalizeEnumValue float_toString (VStr "Objection") in
    let query := ("query RecentObjections {
  extraction(
    where: {
      types: { type: { name: {_eq: " ++ objectionType ++ "} } }, 
      display_ts: { _gte: " ++ dq ++ startDate ++ "T00:00:00Z" ++ dq ++ ", _lte: " ++ dq ++ endDate ++ "T23:59:59Z" ++ dq ++ " }
    },
    order_by: { display_ts: desc }
  ) {
    id
    summary
    display_ts
    call { id name }
  }
}")%string in
    inr ("Run this query to get 'Objection' type extractions from **" ++ startDate ++ "** to **" ++ endDate ++ "**:

```graphql
" ++ query ++ "
```")%string
  else if String.eqb name "context-guide" then
    inr ("Open the main BuildBetter Context Guide with the `read-resource` tool:

```json
{
  " ++ dq ++ "name" ++ dq ++ ": " ++ dq ++ "read-resource" ++ dq ++ ",
  " ++ dq ++ "arguments" ++ dq ++ ": { " ++ dq ++ "uri" ++ dq ++ ": " ++ dq ++ "graphql://guide/context" ++ dq ++ " }
}
```")%string
  else if String.eqb name "top-objections" then
    let daysVal := daysVal (arg "days") in
    let endDate := substring 0 10 (Date_toISOString (clock w)) in
    let startDate := substring 0 10 (isoDateDaysAgo (clock w) daysVal) in
    let objectionType := normalizeEnumValue float_toString (VStr "Objection") in
    let query := ("query TopObjections {
  extraction(
    where: {
      types: { type: { name: {_eq: " ++ objectionType ++ "} } }, 
      display_ts: { _gte: " ++ dq ++ startDate ++ "T00:00:00Z" ++ dq ++ ", _lte: " ++ dq ++ endDate ++ "T23:59:59Z" ++ dq ++ " }
    },
    order_by: { display_ts: desc }
  ) {
    id
    summary
    display_ts
    call { id name }
  }
}")%string in
    inr ("To get top objections from the last " ++ Number.Z_toString daysVal ++ " days (from **" ++ startDate ++ "** to **" ++ endDate ++ "**), run this query:

```graphql
" ++ query ++ "
```")%string
  else if String.eqb name "customer-objections" then
    let daysVal := daysVal (arg "days") in
    let endDate := substring 0 10 (Date_toISOString (clock w)) in
    let startDate := substring 0 10 (isoDateDaysAgo (clock w) daysVal) in
    let objectionType := normalizeEnumValue float_toString (VStr "Objection") in
    let query := ("query CustomerObjections {
  extraction(
    where: {
      types: { type: { name: {_eq: " ++ objectionType ++ "} } },
      speaker: { person: { persona_id: {_eq: " ++ Number.Z_toString customerPersonaId ++ "} } }, 
      display_ts: { _gte: " ++ dq ++ startDate ++ "T00:00:00Z" ++ dq ++ ", _lte: " ++ dq ++ endDate ++ "T23:59:59Z" ++ dq ++ " }
    },
    order_by: { display_ts: desc },
    limit: 20 
  ) {
    id
    summary
    display_ts
    sentiment
    call { id name }
  }
}")%string in
    inr ("To get objections voiced by customers in the last " ++ Number.Z_toString daysVal ++ " days (from **" ++ startDate ++ "** to **" ++ endDate ++ "**), use the `run-query` tool with this GraphQL:

```graphql
" ++ query ++ "
```")%string
  else inl {| rpc_code := -32601; rpc_message := ("Prompt named '" ++ name ++ "' not found.")%string |}.

End Prompts.

(* ===================================================================== *)
(** ** Definitions on the side of the specification                       *)
(* ===================================================================== *)

(** The number of requests that a computation sent downstream. *)
Definition calls_between (w w' : World) : Z :=
  Z.of_nat (List.length (http_log w')) - Z.of_nat (List.length (http_log w)).

(** The error of the read-only enforcement ([MutationRejected]). *)
Definition MutationRejected : ToolResult :=
  tool_error ["Error: Only read-only queries (query, subscription) are allowed. Mutations are blocked."].

(** The request of a full-schema introspection. *)
Definition introspection_request : Request :=
  {| req_query := IntrospectionQuery; req_variables := VUndefined |}.

(** A snapshot is fresh at [now] when its age is below the TTL. *)
Definition fresh (now : Z) (c : CachedSchema) : Prop :=
  now - fetchedAt c < SCHEMA_CACHE_TTL_MS.

(** The reply of the endpoint to an introspection request sent in [w]. *)
Definition introspection_reply (downstream : Downstream) (w : World) : Reply :=
  downstream (clock w) (http_log w) introspection_request.

(** The snapshot that is current in [w] is stale or missing. *)
Definition needs_fetch (w : World) : Prop :=
  match cachedSchema w with
  | Some c => ~ fresh (clock w) c
  | None => True
  end.


(** The wrapping layers of a type reference. *)
Module TypeRef.

(** A wrapping layer of a type reference. *)
Inductive Wrapper : Type := NON_NULL | LIST.

Definition wrapper_kind (l : Wrapper) : string :=
  match l with
  | NON_NULL => "NON_NULL"
  | LIST => "LIST"
  end.

(** [Chain base layers t]: [t] is [base] under the wrapping [layers],
    outermost first; a wrapping node carries any name. *)
Inductive Chain (base : GraphQLOutputType) : list Wrapper -> GraphQLOutputType -> Prop :=
| Chain_base : Chain base [] base
| Chain_wrap (l : Wrapper) (n : option string) (layers : list Wrapper)
    (t : GraphQLOutputType) :
    Chain base layers t ->
    Chain base (l :: layers) (mkType (wrapper_kind l) n (Some t)).

(** A concrete type named [X]: its kind is no wrapper and its name is the
    non-empty [X]. *)
Definition concrete (base : GraphQLOutputType) (X : string) : Prop :=
  kind base <> "NON_NULL" /\ kind base <> "LIST"
  /\ name base = Some X /\ X <> EmptyString.

(** The display string as the specification words it: a trailing [!] for a
    NON_NULL layer, surrounding brackets for a LIST layer. *)
Fixpoint render (layers : list Wrapper) (X : string) : string :=
  match layers with
  | [] => X
  | NON_NULL :: r => render r X ++ "!"
  | LIST :: r => "[" ++ render r X ++ "]"
  end.

Fixpoint count (l : Wrapper) (layers : list Wrapper) : nat :=
  match layers with
  | [] => 0
  | NON_NULL :: r => (match l with NON_NULL => 1 | LIST => 0 end + count l r)%nat
  | LIST :: r => (match l with NON_NULL => 0 | LIST => 1 end + count l r)%nat
  end.

Fixpoint repeat_string (s : string) (n : nat) : string :=
  match n with
  | O => EmptyString
  | S k => s ++ repeat_string s k
  end.

(** What follows the name: the closing mark of every layer, the innermost
    layer first. *)
Fixpoint closers (layers : list Wrapper) : string :=
  match layers with
  | [] => EmptyString
  | NON_NULL :: r => closers r ++ "!"
  | LIST :: r => closers r ++ "]"
  end.

Fixpoint count_char (c : ascii) (s : string) : nat :=
  match s with
  | EmptyString => 0
  | String a r => ((if Ascii.eqb a c then 1 else 0) + count_char c r)%nat
  end.

End TypeRef.

(** *** Browsable types *)






Local Open Scope nat_scope.

(** *** Edit distance *)

(** The Levenshtein recurrence on the lengths [i] and [j] of a prefix of
    [b] and of a prefix of [a]: against the empty prefix the distance is the
    length; two prefixes that end with the same character are as far apart
    as without it; otherwise one edit is added to the least of a
    substitution, an insertion and a deletion. *)
Fixpoint prefix_distance (a b : list ascii) (i : nat) : nat -> nat :=
  match i with
  | O => fun j => j
  | S i' =>
      fix row (j : nat) : nat :=
        match j with
        | O => S i'
        | S j' =>
            if Ascii.eqb (charAt b i') (charAt a j')
            then prefix_distance a b i' j'
            else S (min3 (prefix_distance a b i' j') (row j')
                         (prefix_distance a b i' (S j')))
        end
  end.

Definition edit_distance (a b : string) : nat :=
  prefix_distance (chars a) (chars b) (String.length b) (String.length a).


(** [edit_script xs ys n]: [n] single-character edits (substitutions,
    deletions, insertions) turn [xs] into [ys]. The Levenshtein distance is
    the least such [n]. *)
Inductive edit_script : list ascii -> list ascii -> nat -> Prop :=
| script_done : edit_script [] [] 0
| script_keep (c : ascii) (xs ys : list ascii) (n : nat) :
    edit_script xs ys n -> edit_script (c :: xs) (c :: ys) n
| script_substitute (c d : ascii) (xs ys : list ascii) (n : nat) :
    edit_script xs ys n -> edit_script (c :: xs) (d :: ys) (S n)
| script_delete (c : ascii) (xs ys : list ascii) (n : nat) :
    edit_script xs ys n -> edit_script (c :: xs) ys (S n)
| script_insert (d : ascii) (xs ys : list ascii) (n : nat) :
    edit_script xs ys n -> edit_script xs (d :: ys) (S n).

(** The recurrence of [prefix_distance] on the characters themselves, last
    character first. *)
Fixpoint lev (xs : list ascii) : list ascii -> nat :=
  match xs with
  | [] => fun ys => List.length ys
  | x :: xs' =>
      fix lev_x (ys : list ascii) : nat :=
        match ys with
        | [] => S (List.length xs')
        | y :: ys' =>
            if Ascii.eqb x y then lev xs' ys'
            else S (min3 (lev xs' ys') (lev_x ys') (lev xs' ys))
        end
  end.

(** The rows of the matrix of [levenshteinDistance] while it is filled, and
    the bodies of its loops. *)
Section LevenshteinRows.

Variables a b : list ascii.

Definition matrix_stub (r : nat) : list nat := [r].

Definition matrix_partial_row (i j : nat) : list nat :=
  map (prefix_distance a b i) (seq 0 j).

Definition matrix_full_row (i : nat) : list nat :=
  matrix_partial_row i (S (List.length a)).

Definition cell_loop_body (i : nat) (m : Matrix.t) (j : nat) : Matrix.t :=
  if Ascii.eqb (charAt b (i - 1)) (charAt a (j - 1))
  then Matrix.set m i j (Matrix.get m (i - 1) (j - 1))
  else Matrix.set m i j
         (min3 (Matrix.get m (i - 1) (j - 1) + 1)
               (Matrix.get m i (j - 1) + 1)
               (Matrix.get m (i - 1) j + 1)).

Definition row_loop_body (m : Matrix.t) (i : nat) : Matrix.t :=
  for_loop 1 (List.length a) (cell_loop_body i) m.

End LevenshteinRows.

Local Open Scope Z_scope.

(** *** Ranking of the suggestions *)



(** A comparator that is the difference of a key. *)
Definition by_key {A} (key : A -> nat) (x y : A) : Z :=
  Z.of_nat (key x) - Z.of_nat (key y).





(** *** Guardrails *)



(** *** The query of a keyword search *)

(** The condition on one text field, as the handler writes it. *)
Definition ilike_condition (phrase field : string) : string :=
  "{ " ++ field ++ ": {_ilike: " ++ dq ++ "%" ++ phrase ++ "%" ++ dq ++ "} }".

(** The same condition without its outer braces. *)
Definition plain_condition (phrase field : string) : string :=
  " " ++ field ++ ": {_ilike: " ++ dq ++ "%" ++ phrase ++ "%" ++ dq ++ "} ".

(** The condition on the type of an extraction. *)
Definition type_condition (extType : string) : string :=
  "types: { type: { name: {_eq: " ++ extType ++ "} } }".

(** [needle] occurs in [hay]. *)
Definition contains (needle hay : string) : Prop :=
  exists pre post, hay = (pre ++ needle ++ post)%string.

(** A text without its spaces, to compare two query texts up to the spaces
    that GraphQL ignores. *)
Fixpoint remove_spaces (s : string) : string :=
  match s with
  | EmptyString => EmptyString
  | String c r => if Ascii.eqb c " " then remove_spaces r else String c (remove_spaces r)
  end.

(** The where-clause of the end-to-end scenario, as the specification
    writes it. *)
Definition or_clause_as_stated : string :=
  "_or: [{summary: {_ilike: " ++ dq ++ "%pricing%" ++ dq ++ "}}, {text: {_ilike: "
  ++ dq ++ "%pricing%" ++ dq ++ "}}]".

(** The query that [search-extractions] sends for a type with the fields
    [fields]; [None] when no field can be searched. *)
Definition search_query (float_toString : Q -> string) (fields : list FieldInfo)
  (phrase : string) (extType : option string) (limit : value)
  (personaIds : option (list value)) : option string :=
  match textClause float_toString fields phrase with
  | Some clause =>
      Some (searchQueryString
              (join ", " ([clause] ++ filterClauses float_toString fields
                                        (normalized_type float_toString extType)
                                        personaIds))
              (guarded_limit float_toString limit 10 50)
              (selectionFields fields))
  | None => None
  end.

Definition search_request (q : string) : Request :=
  {| req_query := q; req_variables := VUndefined |}.

(** The fields [a] and [b] have the same names. *)
Definition same_names (a b : list FieldInfo) : Prop :=
  map f_name a = map f_name b.


(** *** The query of [build-query] *)


(** The query without arguments. *)
Definition bare_query (selectedType_name typeName : string) (fields : list string)
  : string :=
  "query Get" ++ selectedType_name ++ " { " ++ typeName ++ " { "
  ++ join (nl ++ "    ") fields ++ " } }".

(* ===================================================================== *)
(** ** Definitions for the properties of the remaining code               *)
(* ===================================================================== *)

(** The request of [getTypeFields] for one type. *)
Definition type_lookup (typeName : string) : Request :=
  {| req_query := GetTypeFieldsQuery; req_variables := VObj [("name", VStr typeName)] |}.

(** The elements of a member of an introspected type: those of the array,
    none when the member is missing. *)
Definition members (v : value) : list value :=
  match v with
  | VArr items => items
  | _ => []
  end.

(** The entries that [getTypeFields] makes of a field and of an enum
    value. *)
Definition as_field (f : value) : FieldInfo :=
  {| f_name := js_get f "name"; f_type := js_get f "type";
     f_description := js_get f "description" |}.

Definition as_enum_value (ev : value) : FieldInfo :=
  {| f_name := js_get ev "name";
     f_type := VObj [("kind", VStr "ENUM_VALUE"); ("name", js_get ev "name")];
     f_description := js_get ev "description" |}.

(** The test of the read-only enforcement, shared by [run-query] and
    [validate-query]. *)
Definition mutation_guard (query : string) : bool :=
  startsWith "mutation" (toLowerCase (trim query))
  || includes "mutation {" (toLowerCase (trim query)).

(** A text of white space only. *)
Definition all_white_space (s : string) : Prop :=
  forall c, In c (chars s) -> is_white_space c = true.


(** The wildcards of a LIKE pattern. *)
Definition is_wildcard (c : ascii) : bool := Ascii.eqb c "%" || Ascii.eqb c "_".

Definition no_wildcard (s : string) : Prop :=
  forall c, In c (chars s) -> c <> "%"%char /\ c <> "_"%char.

(** The JSON of a type reference, as introspection sends it. *)
Fixpoint encode_type (t : GraphQLOutputType) : value :=
  match t with
  | mkType k n o =>
      VObj [ ("kind", VStr k);
             ("name", match n with Some s => VStr s | None => VNull end);
             ("ofType", match o with Some t' => encode_type t' | None => VNull end) ]
  end.

(** A field is a list when a LIST layer is outermost or directly under an
    outermost NON_NULL. *)
Definition list_field (layers : list TypeRef.Wrapper) : bool :=
  match layers with
  | TypeRef.LIST :: _ => true
  | TypeRef.NON_NULL :: TypeRef.LIST :: _ => true
  | _ => false
  end.

(* ===================================================================== *)
(** ** Sample inputs                                                      *)
(* ===================================================================== *)

Definition no_patterns : ErrorPatterns :=
  {| hasuraPath := fun _ => None; fieldNotFound := fun _ => None;
     cannotQueryField := fun _ => None; onType := fun _ => None;
     onField := fun _ => None |}.





Definition schema_of (types : list value) : value :=
  VObj [("__schema", VObj [("types", VArr types)])].

Definition object_type (n : string) : value :=
  VObj [("kind", VStr "OBJECT"); ("name", VStr n)].

(** The snapshot of the end-to-end scenario of the specification. *)
Definition sample_types : list value :=
  [ VObj [("kind", VStr "SCALAR"); ("name", VStr "__Schema")];
    object_type "interview";
    object_type "extraction";
    VObj [("kind", VStr "ENUM"); ("name", VStr "extraction_type_enum")] ].

Definition sample_schema : value := schema_of sample_types.

Definition empty_world : World :=
  {| cachedSchema := None; clock := 0; http_log := []; console := [] |}.

(** An endpoint that answers every request with [sample_schema] after 40
    milliseconds, and one that rejects every request. *)
Definition sample_endpoint : Downstream :=
  fun _ _ _ => {| elapsed := 40; outcome := inr sample_schema |}.

Definition failing_endpoint : Downstream :=
  fun _ _ _ => {| elapsed := 40; outcome := inl (ClientError "fetch failed") |}.

Definition sample_float_toString : Q -> string :=
  fun q => if Qle_bool 0 q then "1e+21" else "-1e+21".

(** The fields of a type [extraction] as the introspection of one type
    returns them, and an endpoint that answers every request with them. *)
Definition field_named (n : string) : value :=
  VObj [("name", VStr n); ("description", VNull);
        ("type", VObj [("kind", VStr "SCALAR"); ("name", VStr "String")])].

Definition extraction_field_names : list string :=
  ["id"; "summary"; "text"; "display_ts"; "sentiment"; "call"; "types"; "speaker"].

Definition extraction_type_data : value :=
  VObj [("__type",
         VObj [("name", VStr "extraction"); ("kind", VStr "OBJECT");
               ("fields", VArr (map field_named extraction_field_names));
               ("inputFields", VNull); ("enumValues", VNull)])].

Definition extraction_endpoint : Downstream :=
  fun _ _ _ => {| elapsed := 25; outcome := inr extraction_type_data |}.

(** A field [summary] declared as a string, and one declared as an enum. *)
Definition summary_declared_string : FieldInfo :=
  {| f_name := VStr "summary";
     f_type := VObj [("kind", VStr "SCALAR"); ("name", VStr "String")];
     f_description := VNull |}.

Definition summary_declared_enum : FieldInfo :=
  {| f_name := VStr "summary";
     f_type := VObj [("kind", VStr "ENUM"); ("name", VStr "summary_enum")];
     f_description := VNull |}.

(** The fields that [getTypeFields] makes of [extraction_type_data]. *)
Definition extraction_fields : list FieldInfo :=
  map (fun n => {| f_name := VStr n; f_type := js_get (field_named n) "type";
                   f_description := VNull |}) extraction_field_names.

Definition after_extraction_lookup : World :=
  {| cachedSchema := None; clock := 25;
     http_log := [ {| req_query := GetTypeFieldsQuery;
                      req_variables := VObj [("name", VStr "extraction")] |} ];
     console := [] |}.

(** A snapshot in which [extraction] has the fields [id] and [summary], and
    an endpoint that answers with it. *)
Definition schema_with_fields : value :=
  schema_of
    [ VObj [("kind", VStr "OBJECT"); ("name", VStr "extraction");
            ("fields", VArr [field_named "id"; field_named "summary"])] ].

Definition schema_endpoint : Downstream :=
  fun _ _ _ => {| elapsed := 40; outcome := inr schema_with_fields |}.


(** A world whose snapshot is an hour old. *)
Definition stale_world : World :=
  {| cachedSchema := Some {| data := sample_schema; fetchedAt := 0 |};
     clock := 3600000; http_log := [introspection_request]; console := [] |}.

(** [[String!]!]: a required list of required strings. *)
Definition required_list_of_strings : GraphQLOutputType :=
  mkType "NON_NULL" None
    (Some (mkType "LIST" None
       (Some (mkType "NON_NULL" None
          (Some (mkType "SCALAR" (Some "String") None)))))).

(** The world after [schema_endpoint] answered one introspection. *)
Definition after_schema_fetch : World :=
  {| cachedSchema := Some {| data := schema_with_fields; fetchedAt := 40 |};
     clock := 40; http_log := [introspection_request]; console := [] |}.

(** A required list of required references to the object type [call], and
    its layers. *)
Definition call_type : GraphQLOutputType := mkType "OBJECT" (Some "call") None.

Definition required_list_of_calls : GraphQLOutputType :=
  mkType "NON_NULL" None
    (Some (mkType "LIST" None (Some (mkType "NON_NULL" None (Some call_type))))).

Definition required_list_layers : list TypeRef.Wrapper :=
  [TypeRef.NON_NULL; TypeRef.LIST; TypeRef.NON_NULL].

(* ===================================================================== *)
(** ** Read-only enforcement                                              *)
(* ===================================================================== *)

Section RunQueryFacts.

Variable downstream : Downstream.
Variable patterns : ErrorPatterns.
Variable JSON_stringify_pretty : value -> string.

Lemma trim_lower_empty : toLowerCase (trim EmptyString) = EmptyString.
Proof. reflexivity. Qed.

(** C1. A raw query whose trimmed, lower-cased text starts with
    [mutation] or contains [mutation {] is answered with the
    mutation-rejected error, and the world is left as it was: nothing is
    sent downstream. *)
Theorem run_query_rejects_mutation :
  forall (query : string) (variables : value) (w : World),
    startsWith "mutation" (toLowerCase (trim query)) = true
    \/ includes "mutation {" (toLowerCase (trim query)) = true ->
    run_query downstream patterns JSON_stringify_pretty (Some query) variables w
    = (inr MutationRejected, w)
    /\ isError MutationRejected = true
    /\ calls_between w
         (snd (run_query downstream patterns JSON_stringify_pretty (Some query)
                 variables w)) = 0.
Proof.
  intros query variables w H.
  assert (Hguard : startsWith "mutation" (toLowerCase (trim query))
                   || includes "mutation {" (toLowerCase (trim query)) = true)
    by (apply orb_true_iff; exact H).
  assert (Hrun : run_query downstream patterns JSON_stringify_pretty (Some query)
                   variables w = (inr MutationRejected, w)).
  { destruct query as [|c r].
    - rewrite trim_lower_empty in Hguard. discriminate Hguard.
    - unfold run_query. rewrite Hguard. reflexivity. }
  rewrite Hrun. split; [reflexivity|]. split; [reflexivity|].
  unfold calls_between. simpl. lia.
Qed.

End RunQueryFacts.

Lemma run_query_rejects_mutation_witness :
  run_query sample_endpoint no_patterns (fun _ => EmptyString)
    (Some "  MUTATION { delete_all }") VUndefined empty_world
  = (inr MutationRejected, empty_world)
  /\ isError MutationRejected = true
  /\ calls_between empty_world
       (snd (run_query sample_endpoint no_patterns (fun _ => EmptyString)
               (Some "  MUTATION { delete_all }") VUndefined empty_world)) = 0.
Proof.
  apply (run_query_rejects_mutation sample_endpoint no_patterns
           (fun _ => EmptyString) "  MUTATION { delete_all }" VUndefined empty_world).
  left. reflexivity.
Defined.

(* ===================================================================== *)
(** ** The schema cache                                                   *)
(* ===================================================================== *)

Section CacheFacts.

Variable downstream : Downstream.

Lemma getSchemaInfo_hit (w : World) (c : CachedSchema) :
  cachedSchema w = Some c -> fresh (clock w) c ->
  getSchemaInfo downstream w = (inr (data c), w).
Proof.
  intros Hc Hfresh. unfold getSchemaInfo, bind, get_cachedSchema, Date_now. simpl.
  rewrite Hc. unfold fresh in Hfresh.
  destruct (Z.ltb_spec (clock w - fetchedAt c) SCHEMA_CACHE_TTL_MS) as [_|Hge].
  - reflexivity.
  - lia.
Qed.

Lemma getSchemaInfo_miss (w : World) :
  needs_fetch w -> getSchemaInfo downstream w = fetchSchema downstream w.
Proof.
  unfold needs_fetch, getSchemaInfo, bind, get_cachedSchema, Date_now. simpl.
  destruct (cachedSchema w) as [c|]; [|reflexivity].
  unfold fresh. intros Hstale.
  destruct (Z.ltb_spec (clock w - fetchedAt c) SCHEMA_CACHE_TTL_MS) as [Hlt|_].
  - contradiction.
  - reflexivity.
Qed.

Lemma fetchSchema_resolved (w : World) (d : value) :
  outcome (introspection_reply downstream w) = inr d ->
  fetchSchema downstream w =
    (inr d,
     {| cachedSchema :=
          Some {| data := d;
                  fetchedAt := clock w + elapsed (introspection_reply downstream w) |};
        clock := clock w + elapsed (introspection_reply downstream w);
        http_log := http_log w ++ [introspection_request];
        console := console w |}).
Proof.
  intros Hd.
  unfold fetchSchema, try_catch, bind, request, Date_now, set_cachedSchema, ret.
  fold introspection_request. unfold introspection_reply in Hd.
  rewrite Hd. reflexivity.
Qed.

Lemma fetchSchema_rejected (w : World) (e : error) :
  outcome (introspection_reply downstream w) = inl e ->
  fetchSchema downstream w =
    (inl e,
     {| cachedSchema := cachedSchema w;
        clock := clock w + elapsed (introspection_reply downstream w);
        http_log := http_log w ++ [introspection_request];
        console := console w ++ [("Error fetching schema: " ++ message_of e)%string] |}).
Proof.
  intros He.
  unfold fetchSchema, try_catch, bind, request, console_error, throw.
  fold introspection_request. unfold introspection_reply in He.
  rewrite He. reflexivity.
Qed.

(** Every fetch sends exactly the introspection request, whatever comes
    back. *)
Lemma fetchSchema_log (w : World) :
  http_log (snd (fetchSchema downstream w)) = http_log w ++ [introspection_request].
Proof.
  destruct (outcome (introspection_reply downstream w)) as [e|d] eqn:Ho.
  - rewrite (fetchSchema_rejected w e Ho). reflexivity.
  - rewrite (fetchSchema_resolved w d Ho). reflexivity.
Qed.


End CacheFacts.


(** C8. When the refresh fetch is rejected, the call throws the error of
    the fetch, and the cache, snapshot and timestamp, is what it was; no
    snapshot is returned. *)
Theorem getSchemaInfo_failed_refresh (downstream : Downstream) :
  forall w e,
    needs_fetch w ->
    outcome (introspection_reply downstream w) = inl e ->
    exists w',
      getSchemaInfo downstream w = (inl e, w')
      /\ cachedSchema w' = cachedSchema w
      /\ http_log w' = http_log w ++ [introspection_request].
Proof.
  intros w e Hneed He.
  rewrite (getSchemaInfo_miss downstream w Hneed).
  rewrite (fetchSchema_rejected downstream w e He).
  eexists. repeat split; reflexivity.
Qed.

(* ===================================================================== *)
(** ** The display format of a type reference                             *)
(* ===================================================================== *)


Lemma append_assoc (a b c : string) : ((a ++ b) ++ c = a ++ (b ++ c))%string.
Proof. induction a as [|x a IH]; simpl; [reflexivity | now rewrite IH]. Qed.

Lemma append_empty_r (a : string) : (a ++ EmptyString)%string = a.
Proof. induction a as [|x a IH]; simpl; [reflexivity | now rewrite IH]. Qed.

Lemma length_append (a b : string) :
  String.length (a ++ b) = (String.length a + String.length b)%nat.
Proof. induction a as [|x a IH]; simpl; [reflexivity | now rewrite IH]. Qed.

Lemma count_char_append (c : ascii) (a b : string) :
  TypeRef.count_char c (a ++ b)
  = (TypeRef.count_char c a + TypeRef.count_char c b)%nat.
Proof. induction a as [|x a IH]; simpl; [reflexivity | rewrite IH; lia]. Qed.

(** The equations of the source function. *)
Lemma formatTypeForDisplay_eqn (type : option GraphQLOutputType) :
  formatTypeForDisplay type =
    match type with
    | None => "Unknown"
    | Some t =>
        if String.eqb (kind t) "NON_NULL"
        then (formatTypeForDisplay (ofType t) ++ "!")%string
        else if String.eqb (kind t) "LIST"
        then ("[" ++ formatTypeForDisplay (ofType t) ++ "]")%string
        else or_else (name t) "UnnamedType"
    end.
Proof.
  destruct type as [[k n o]|]; [|reflexivity].
  simpl. destruct o as [t|]; reflexivity.
Qed.

Lemma formatTypeForDisplay_concrete (base : GraphQLOutputType) (X : string) :
  TypeRef.concrete base X -> formatTypeForDisplay (Some base) = X.
Proof.
  intros (Hnn & Hl & Hname & HX).
  rewrite formatTypeForDisplay_eqn.
  apply String.eqb_neq in Hnn, Hl. rewrite Hnn, Hl, Hname.
  destruct X as [|c r]; [contradiction | reflexivity].
Qed.

Lemma formatTypeForDisplay_wrap (l : TypeRef.Wrapper) (n : option string)
  (t : GraphQLOutputType) :
  formatTypeForDisplay (Some (mkType (TypeRef.wrapper_kind l) n (Some t))) =
    match l with
    | TypeRef.NON_NULL => (formatTypeForDisplay (Some t) ++ "!")%string
    | TypeRef.LIST => ("[" ++ formatTypeForDisplay (Some t) ++ "]")%string
    end.
Proof. rewrite formatTypeForDisplay_eqn. destruct l; reflexivity. Qed.

Lemma render_shape (layers : list TypeRef.Wrapper) (X : string) :
  TypeRef.render layers X =
    (TypeRef.repeat_string "[" (TypeRef.count TypeRef.LIST layers)
     ++ X ++ TypeRef.closers layers)%string.
Proof.
  induction layers as [|[|] r IH]; simpl.
  - now rewrite append_empty_r.
  - rewrite IH. now rewrite !append_assoc.
  - rewrite IH. now rewrite !append_assoc.
Qed.

Lemma closers_counts (layers : list TypeRef.Wrapper) :
  TypeRef.count_char "!" (TypeRef.closers layers) = TypeRef.count TypeRef.NON_NULL layers
  /\ TypeRef.count_char "]" (TypeRef.closers layers) = TypeRef.count TypeRef.LIST layers
  /\ String.length (TypeRef.closers layers)
     = (TypeRef.count TypeRef.NON_NULL layers + TypeRef.count TypeRef.LIST layers)%nat.
Proof.
  induction layers as [|[|] r (IH1 & IH2 & IH3)]; simpl.
  - repeat split.
  - rewrite !count_char_append, length_append, IH1, IH2, IH3. simpl.
    repeat split; lia.
  - rewrite !count_char_append, length_append, IH1, IH2, IH3. simpl.
    repeat split; lia.
Qed.

Lemma formatType_not_empty (t : GraphQLOutputType) : formatType t <> EmptyString.
Proof.
  destruct t as [k n o]. simpl.
  destruct (String.eqb k "NON_NULL").
  - destruct (match o with Some t => formatType t | None => "Unknown" end);
      discriminate.
  - destruct (String.eqb k "LIST"); [discriminate|].
    destruct n as [[|c r]|]; discriminate.
Qed.

(** C5. For a chain of NON_NULL and LIST layers around a concrete type
    named [X], the display string is [X] with a [!] appended for a NON_NULL
    layer and brackets put around for a LIST layer, from the innermost layer
    outward: it is one [[] per LIST layer, then [X], then the closing marks,
    among them one [!] per NON_NULL layer and one []] per LIST layer and
    nothing else. A type with no name (or with the empty name) is shown by a
    placeholder, an absent reference by another, and the function returns a
    non-empty string on every input. *)
Theorem formatTypeForDisplay_chain :
  (forall base X layers t,
      TypeRef.concrete base X ->
      TypeRef.Chain base layers t ->
      formatTypeForDisplay (Some t) = TypeRef.render layers X
      /\ formatTypeForDisplay (Some t)
         = (TypeRef.repeat_string "[" (TypeRef.count TypeRef.LIST layers)
            ++ X ++ TypeRef.closers layers)%string
      /\ TypeRef.count_char "!" (TypeRef.closers layers)
         = TypeRef.count TypeRef.NON_NULL layers
      /\ TypeRef.count_char "]" (TypeRef.closers layers)
         = TypeRef.count TypeRef.LIST layers
      /\ String.length (formatTypeForDisplay (Some t))
         = (String.length X + TypeRef.count TypeRef.NON_NULL layers
            + 2 * TypeRef.count TypeRef.LIST layers)%nat)
  /\ (forall k n o,
        k <> "NON_NULL" -> k <> "LIST" -> n = None \/ n = Some EmptyString ->
        formatTypeForDisplay (Some (mkType k n o)) = "UnnamedType")
  /\ formatTypeForDisplay None = "Unknown"
  /\ (forall type, formatTypeForDisplay type <> EmptyString).
Proof.
  split; [|split; [|split]].
  - intros base X layers t Hbase Hchain.
    assert (Hrender : formatTypeForDisplay (Some t) = TypeRef.render layers X).
    { induction Hchain as [|l n layers t Hchain IH].
      - exact (formatTypeForDisplay_concrete base X Hbase).
      - rewrite formatTypeForDisplay_wrap, IH. destruct l; reflexivity. }
    destruct (closers_counts layers) as (Hbang & Hclose & Hlen).
    split; [exact Hrender|].
    split; [rewrite Hrender; apply render_shape|].
    split; [exact Hbang|]. split; [exact Hclose|].
    rewrite Hrender, render_shape, !length_append, Hlen.
    assert (Hopen : forall n, String.length (TypeRef.repeat_string "[" n) = n)
      by (induction n as [|n IHn]; simpl; [reflexivity | now rewrite IHn]).
    rewrite Hopen. lia.
  - intros k n o Hnn Hl Hn.
    rewrite formatTypeForDisplay_eqn. simpl.
    apply String.eqb_neq in Hnn, Hl. rewrite Hnn, Hl.
    destruct Hn as [-> | ->]; reflexivity.
  - reflexivity.
  - intros [t|]; simpl; [apply formatType_not_empty | discriminate].
Qed.

(* ===================================================================== *)
(** ** Browsable types                                                    *)
(* ===================================================================== *)




(** A handler whose [catch] block returns never throws. *)
Lemma try_catch_returns {A} (body : M A) (recover : error -> A) (w : World) :
  exists a w', try_catch body (fun e => ret (recover e)) w = (inr a, w').
Proof.
  unfold try_catch, ret. destruct (body w) as [[e|a] w']; eexists; eexists; reflexivity.
Qed.




(* ===================================================================== *)
(** ** The similarity matcher                                             *)
(* ===================================================================== *)

Local Open Scope nat_scope.

Lemma array_set_at_length {A} (d : A) (arr : list A) (x : A) :
  Matrix.array_set d arr (List.length arr) x = arr ++ [x].
Proof.
  unfold Matrix.array_set.
  rewrite (skipn_all2 arr) by lia.
  rewrite Nat.sub_diag. cbn [repeat]. rewrite app_nil_r.
  rewrite firstn_all. reflexivity.
Qed.

Lemma array_set_middle {A} (d : A) (pre post : list A) (old x : A) :
  Matrix.array_set d (pre ++ old :: post) (List.length pre) x = pre ++ x :: post.
Proof.
  unfold Matrix.array_set.
  replace (S (List.length pre)) with (List.length pre + 1) by lia.
  rewrite skipn_app, (skipn_all2 pre) by lia.
  replace (List.length pre + 1 - List.length pre) with 1 by lia.
  replace (List.length pre - List.length (pre ++ old :: post)) with 0
    by (rewrite length_app; lia).
  cbn [repeat skipn]. rewrite app_nil_r.
  rewrite firstn_app, Nat.sub_diag, firstn_all. cbn [firstn].
  rewrite app_nil_r. reflexivity.
Qed.

Section Levenshtein.

Variables a b : list ascii.

Let D := prefix_distance a b.
Let la := List.length a.
Let lb := List.length b.

Local Abbreviation stub := matrix_stub.
Local Abbreviation partial_row := (matrix_partial_row a b).
Local Abbreviation full_row := (matrix_full_row a b).
Local Abbreviation cell_loop_body := (cell_loop_body a b).
Local Abbreviation row_loop_body := (row_loop_body a b).

Lemma D_row_0 (j : nat) : D 0 j = j.
Proof. reflexivity. Qed.

Lemma D_col_0 (i : nat) : D i 0 = i.
Proof. destruct i; reflexivity. Qed.

Lemma D_step (i j : nat) :
  D (S i) (S j) =
    if Ascii.eqb (charAt b i) (charAt a j) then D i j
    else S (min3 (D i j) (D (S i) j) (D i (S j))).
Proof. reflexivity. Qed.

Lemma nth_map_seq {A} (f : nat -> A) (n k : nat) (d : A) :
  k < n -> nth k (map f (seq 0 n)) d = f k.
Proof.
  intros Hk.
  rewrite (nth_indep _ d (f 0)) by (rewrite length_map, length_seq; exact Hk).
  rewrite map_nth, seq_nth by exact Hk. reflexivity.
Qed.

Lemma partial_row_length (i j : nat) : List.length (partial_row i j) = j.
Proof. unfold partial_row. now rewrite length_map, length_seq. Qed.

Lemma partial_row_S (i j : nat) : partial_row i (S j) = partial_row i j ++ [D i j].
Proof. unfold partial_row. rewrite seq_S, map_app. reflexivity. Qed.

Lemma partial_row_nth (i j k : nat) : k < j -> nth k (partial_row i j) 0 = D i k.
Proof. intros Hk. unfold partial_row. now apply nth_map_seq. Qed.

(** The first loop: a one-cell row per prefix of [b]. *)
Lemma rows_loop (n k : nat) :
  fold_left (fun m i => Matrix.set_row m i [i]) (seq k n) (map stub (seq 0 k))
  = map stub (seq 0 (k + n)).
Proof.
  revert k. induction n as [|n IH]; intros k.
  - now rewrite Nat.add_0_r.
  - cbn [seq fold_left].
    assert (Hstep : Matrix.set_row (map stub (seq 0 k)) k [k]
                    = map stub (seq 0 (S k))).
    { unfold Matrix.set_row.
      pose proof (array_set_at_length [] (map stub (seq 0 k)) [k]) as H.
      rewrite length_map, length_seq in H. rewrite H.
      rewrite seq_S, map_app. reflexivity. }
    rewrite Hstep, IH. replace (S k + n) with (k + S n) by lia. reflexivity.
Qed.

(** Writing cell [j] of a row that has [j] cells appends it. *)
Lemma set_appends (pre post : list (list nat)) (row : list nat) (x : nat) :
  Matrix.set (pre ++ row :: post) (List.length pre) (List.length row) x
  = pre ++ (row ++ [x]) :: post.
Proof.
  unfold Matrix.set, Matrix.set_row.
  rewrite nth_middle, array_set_at_length. apply array_set_middle.
Qed.

(** The second loop: the first row. *)
Lemma cols_loop (rest : list (list nat)) (n j : nat) :
  fold_left (fun m j => Matrix.set m 0 j j) (seq j n) (partial_row 0 j :: rest)
  = partial_row 0 (j + n) :: rest.
Proof.
  revert j. induction n as [|n IH]; intros j.
  - now rewrite Nat.add_0_r.
  - cbn [seq fold_left].
    pose proof (set_appends [] rest (partial_row 0 j) j) as Hset.
    rewrite partial_row_length in Hset. cbn [List.length app] in Hset.
    rewrite Hset.
    replace (partial_row 0 j ++ [j]) with (partial_row 0 (S j))
      by (rewrite partial_row_S; reflexivity).
    rewrite IH. replace (S j + n) with (j + S n) by lia. reflexivity.
Qed.

(** One step of the inner loop writes the cell of the recurrence. *)
Lemma cell_step (i j : nat) (post : list (list nat)) :
  1 <= i -> 1 <= j -> j <= la ->
  cell_loop_body i (map full_row (seq 0 i) ++ partial_row i j :: post) j
  = map full_row (seq 0 i) ++ partial_row i (S j) :: post.
Proof.
  intros Hi Hj Hla.
  set (pre := map full_row (seq 0 i)).
  assert (Hpre : List.length pre = i) by (unfold pre; now rewrite length_map, length_seq).
  assert (Hup : forall k, k <= la ->
            Matrix.get (pre ++ partial_row i j :: post) (i - 1) k = D (i - 1) k).
  { intros k Hk. unfold Matrix.get.
    rewrite app_nth1 by lia. unfold pre.
    rewrite nth_map_seq by lia. unfold full_row. apply partial_row_nth. lia. }
  assert (Hleft : Matrix.get (pre ++ partial_row i j :: post) i (j - 1) = D i (j - 1)).
  { unfold Matrix.get. rewrite <- Hpre at 1. rewrite nth_middle.
    apply partial_row_nth. lia. }
  unfold cell_loop_body.
  rewrite !Hup, Hleft by lia.
  assert (Hcell : (if Ascii.eqb (charAt b (i - 1)) (charAt a (j - 1))
                   then D (i - 1) (j - 1)
                   else min3 (D (i - 1) (j - 1) + 1) (D i (j - 1) + 1) (D (i - 1) j + 1))
                  = D i j).
  { destruct i as [|i']; [lia|]. destruct j as [|j']; [lia|].
    replace (S i' - 1) with i' by lia. replace (S j' - 1) with j' by lia.
    rewrite D_step. destruct (Ascii.eqb (charAt b i') (charAt a j')); [reflexivity|].
    unfold min3. lia. }
  pose proof (set_appends pre post (partial_row i j)) as Hset.
  rewrite Hpre, partial_row_length in Hset.
  destruct (Ascii.eqb (charAt b (i - 1)) (charAt a (j - 1)));
    rewrite Hset, partial_row_S, <- Hcell; reflexivity.
Qed.

Lemma cells_loop (i : nat) (post : list (list nat)) (n j : nat) :
  1 <= i -> 1 <= j -> j + n <= S la ->
  fold_left (cell_loop_body i) (seq j n)
            (map full_row (seq 0 i) ++ partial_row i j :: post)
  = map full_row (seq 0 i) ++ partial_row i (j + n) :: post.
Proof.
  intros Hi. revert j. induction n as [|n IH]; intros j Hj Hn.
  - now rewrite Nat.add_0_r.
  - cbn [seq fold_left]. rewrite cell_step by lia.
    rewrite IH by lia. replace (S j + n) with (j + S n) by lia. reflexivity.
Qed.

Lemma rows_filled (n i : nat) :
  1 <= i -> i + n <= S lb ->
  fold_left row_loop_body (seq i n)
            (map full_row (seq 0 i) ++ map stub (seq i (S lb - i)))
  = map full_row (seq 0 (i + n)) ++ map stub (seq (i + n) (S lb - (i + n))).
Proof.
  revert i. induction n as [|n IH]; intros i Hi Hn.
  - now rewrite Nat.add_0_r.
  - cbn [seq fold_left].
    replace (S lb - i) with (S (lb - i)) by lia. cbn [seq map].
    unfold row_loop_body at 2, for_loop.
    replace (S (List.length a) - 1) with la by (unfold la; lia).
    change (stub i) with [i].
    replace [i] with (partial_row i 1)
      by (unfold partial_row; cbn [seq map]; now rewrite D_col_0).
    rewrite cells_loop by lia.
    change (partial_row i (1 + la)) with (full_row i).
    replace (map full_row (seq 0 i) ++ full_row i :: map stub (seq (S i) (lb - i)))
      with (map full_row (seq 0 (S i)) ++ map stub (seq (S i) (S lb - S i))).
    + rewrite IH by lia. replace (S i + n) with (i + S n) by lia. reflexivity.
    + rewrite seq_S, map_app, <- app_assoc. reflexivity.
Qed.

Lemma levenshteinMatrix_filled :
  levenshteinMatrix a b = map full_row (seq 0 (S lb)).
Proof.
  unfold levenshteinMatrix, for_loop.
  fold la lb. rewrite !Nat.sub_0_r.
  pose proof (rows_loop (S lb) 0) as Hrows.
  change (map stub (seq 0 0)) with (@nil (list nat)) in Hrows.
  change (0 + S lb) with (S lb) in Hrows.
  rewrite Hrows.
  (* the first row *)
  replace (seq 0 (S la)) with (0 :: seq 1 la) by reflexivity.
  cbn [fold_left].
  replace (Matrix.set (map stub (seq 0 (S lb))) 0 0 0)
    with (partial_row 0 1 :: map stub (seq 1 lb)) by reflexivity.
  rewrite cols_loop.
  (* the other rows *)
  replace (S lb - 1) with lb by lia.
  change (fold_left _ (seq 1 lb) ?m) with (fold_left row_loop_body (seq 1 lb) m).
  pose proof (rows_filled lb 1) as Hfill.
  replace (S lb - 1) with lb in Hfill by lia.
  change (map full_row (seq 0 1) ++ map stub (seq 1 lb))
    with (full_row 0 :: map stub (seq 1 lb)) in Hfill.
  change (partial_row 0 (1 + la)) with (full_row 0).
  rewrite Hfill by lia.
  replace (S lb - (1 + lb)) with 0 by lia. cbn [seq map]. now rewrite app_nil_r.
Qed.

Lemma levenshteinMatrix_cell (i j : nat) :
  i <= lb -> j <= la ->
  Matrix.get (levenshteinMatrix a b) i j = D i j.
Proof.
  intros Hi Hj. rewrite levenshteinMatrix_filled. unfold Matrix.get.
  rewrite nth_map_seq by lia. unfold full_row. apply partial_row_nth. lia.
Qed.

End Levenshtein.

Lemma chars_length (s : string) : List.length (chars s) = String.length s.
Proof. induction s as [|c r IH]; simpl; [reflexivity | now rewrite IH]. Qed.

(** The matrix of the code computes the Levenshtein recurrence. *)
Lemma levenshteinDistance_recurrence (a b : string) :
  levenshteinDistance a b = edit_distance a b.
Proof.
  unfold levenshteinDistance, edit_distance.
  rewrite <- !chars_length. apply levenshteinMatrix_cell; lia.
Qed.


Local Open Scope Z_scope.


Section SortFacts.

Context {A : Type} (key : A -> nat).

Lemma sort_insert_perm (x : A) (l : list A) :
  Permutation (sort_insert (by_key key) x l) (x :: l).
Proof.
  induction l as [|y r IH]; simpl; [apply Permutation_refl|].
  destruct (by_key key x y <=? 0).
  - apply Permutation_refl.
  - eapply perm_trans; [apply perm_skip, IH | apply perm_swap].
Qed.

Lemma Array_sort_perm (l : list A) : Permutation (Array_sort (by_key key) l) l.
Proof.
  induction l as [|x r IH]; simpl; [constructor|].
  eapply perm_trans; [apply sort_insert_perm | apply perm_skip, IH].
Qed.







End SortFacts.




Section SimilarFacts.

Variable downstream : Downstream.



Lemma findSimilarFields_returns (typeName fieldName : string) (maxDistance : nat)
  (w : World) :
  exists l w', findSimilarFields downstream typeName fieldName maxDistance w = (inr l, w').
Proof. unfold findSimilarFields. apply try_catch_returns. Qed.

(** A rejected request is a failed lookup. *)
Lemma getTypeFields_rejected (typeName : string) (w : World) (e : error) :
  outcome (downstream (clock w) (http_log w)
             {| req_query := GetTypeFieldsQuery;
                req_variables := VObj [("name", VStr typeName)] |}) = inl e ->
  exists w1, getTypeFields downstream typeName w = (inl e, w1).
Proof.
  intros He. unfold getTypeFields, bind, request. rewrite He. eexists; reflexivity.
Qed.

End SimilarFacts.




Local Open Scope nat_scope.


Lemma lev_nil_r (xs : list ascii) : lev xs [] = List.length xs.
Proof. destruct xs; reflexivity. Qed.

Lemma lev_cons_cons (x y : ascii) (xs ys : list ascii) :
  lev (x :: xs) (y :: ys) =
    if Ascii.eqb x y then lev xs ys
    else S (min3 (lev xs ys) (lev (x :: xs) ys) (lev xs (y :: ys))).
Proof. reflexivity. Qed.

(** One more character on either side moves the distance by one at most. *)
Lemma lev_lipschitz (k : nat) :
  forall xs ys, List.length xs + List.length ys <= k ->
    (forall x, lev (x :: xs) ys <= S (lev xs ys))
    /\ (forall y, lev xs (y :: ys) <= S (lev xs ys))
    /\ (forall x, lev xs ys <= S (lev (x :: xs) ys))
    /\ (forall y, lev xs ys <= S (lev xs (y :: ys))).
Proof.
  induction k as [|k IH]; intros xs ys Hk.
  - destruct xs; destruct ys; simpl in Hk; try lia.
    repeat split; intros; simpl; lia.
  - assert (F2 : forall y, lev xs (y :: ys) <= S (lev xs ys)).
    { intros y. destruct xs as [|x xs'].
      - simpl. lia.
      - rewrite lev_cons_cons. destruct (Ascii.eqb x y).
        + apply (IH xs' ys); simpl in Hk; lia.
        + unfold min3. lia. }
    assert (F1 : forall x, lev (x :: xs) ys <= S (lev xs ys)).
    { intros x. destruct ys as [|y ys'].
      - rewrite !lev_nil_r. simpl. lia.
      - rewrite lev_cons_cons. destruct (Ascii.eqb x y).
        + apply (IH xs ys'); simpl in Hk; lia.
        + unfold min3. lia. }
    split; [exact F1|]. split; [exact F2|]. split.
    + intros x. destruct ys as [|y ys'].
      * rewrite !lev_nil_r. simpl. lia.
      * assert (Hsmall : List.length xs + List.length ys' <= k) by (simpl in Hk; lia).
        destruct (IH xs ys' Hsmall) as (_ & G2 & G3 & _).
        rewrite (lev_cons_cons x y). destruct (Ascii.eqb x y).
        -- apply G2.
        -- specialize (G2 y). specialize (G3 x). unfold min3. lia.
    + intros y. destruct xs as [|x xs'].
      * simpl. lia.
      * assert (Hsmall : List.length xs' + List.length ys <= k) by (simpl in Hk; lia).
        destruct (IH xs' ys Hsmall) as (G1 & _ & _ & G4).
        rewrite (lev_cons_cons x y). destruct (Ascii.eqb x y).
        -- apply G1.
        -- specialize (G1 x). specialize (G4 y). unfold min3. lia.
Qed.

Lemma lev_delete (x : ascii) (xs ys : list ascii) : lev (x :: xs) ys <= S (lev xs ys).
Proof. apply (lev_lipschitz _ xs ys (Nat.le_refl _)). Qed.

Lemma lev_insert (y : ascii) (xs ys : list ascii) : lev xs (y :: ys) <= S (lev xs ys).
Proof. apply (lev_lipschitz _ xs ys (Nat.le_refl _)). Qed.

(** No script is shorter than the recurrence says. *)
Lemma lev_lower_bound (xs ys : list ascii) (n : nat) :
  edit_script xs ys n -> lev xs ys <= n.
Proof.
  induction 1 as [|c xs ys n _ IH|c d xs ys n _ IH|c xs ys n _ IH|d xs ys n _ IH].
  - simpl. lia.
  - rewrite lev_cons_cons, Ascii.eqb_refl. exact IH.
  - rewrite lev_cons_cons. destruct (Ascii.eqb c d); [lia | unfold min3; lia].
  - pose proof (lev_delete c xs ys). lia.
  - pose proof (lev_insert d xs ys). lia.
Qed.

Lemma script_insert_all (ys : list ascii) : edit_script [] ys (List.length ys).
Proof. induction ys as [|y ys IH]; simpl; constructor; exact IH. Qed.

Lemma script_delete_all (xs : list ascii) : edit_script xs [] (List.length xs).
Proof. induction xs as [|x xs IH]; simpl; constructor; exact IH. Qed.

(** A script of that length exists. *)
Lemma lev_script (xs ys : list ascii) : edit_script xs ys (lev xs ys).
Proof.
  revert ys. induction xs as [|x xs IHx]; intros ys.
  - apply script_insert_all.
  - induction ys as [|y ys IHy].
    + rewrite lev_nil_r. apply script_delete_all.
    + rewrite lev_cons_cons.
      destruct (Ascii.eqb_spec x y) as [->|Hne].
      * apply script_keep, IHx.
      * unfold min3.
        destruct (Nat.min_spec (Nat.min (lev xs ys) (lev (x :: xs) ys)) (lev xs (y :: ys)))
          as [[_ ->]|[_ ->]].
        -- destruct (Nat.min_spec (lev xs ys) (lev (x :: xs) ys)) as [[_ ->]|[_ ->]].
           ++ apply script_substitute, IHx.
           ++ apply script_insert, IHy.
        -- apply script_delete, IHx.
Qed.

(** Scripts can be read backwards and from the other string. *)
Lemma script_app (xs ys xs' ys' : list ascii) (n n' : nat) :
  edit_script xs ys n -> edit_script xs' ys' n' ->
  edit_script (xs ++ xs') (ys ++ ys') (n + n').
Proof.
  intros H H'. induction H; simpl; try (constructor; assumption). exact H'.
Qed.

Lemma script_rev (xs ys : list ascii) (n : nat) :
  edit_script xs ys n -> edit_script (rev xs) (rev ys) n.
Proof.
  induction 1 as [|c xs ys n _ IH|c d xs ys n _ IH|c xs ys n _ IH|d xs ys n _ IH];
    simpl.
  - constructor.
  - replace n with (n + 0) by lia.
    apply script_app; [exact IH | repeat constructor].
  - replace (S n) with (n + 1) by lia.
    apply script_app; [exact IH | repeat constructor].
  - replace (S n) with (n + 1) by lia. rewrite <- (app_nil_r (rev ys)).
    apply script_app; [exact IH | repeat constructor].
  - replace (S n) with (n + 1) by lia. rewrite <- (app_nil_r (rev xs)).
    apply script_app; [exact IH | repeat constructor].
Qed.

Lemma script_sym (xs ys : list ascii) (n : nat) :
  edit_script xs ys n -> edit_script ys xs n.
Proof. induction 1; constructor; assumption. Qed.

Lemma rev_firstn_S (l : list ascii) (i : nat) :
  i < List.length l ->
  rev (firstn (S i) l) = charAt l i :: rev (firstn i l).
Proof.
  intros Hi. unfold charAt.
  rewrite <- (firstn_skipn i l) at 1 2.
  assert (Hlen : List.length (firstn i l) = i) by (apply firstn_length_le; lia).
  destruct (skipn i l) as [|c rest] eqn:Hskip.
  - exfalso. pose proof (f_equal (@List.length ascii) (firstn_skipn i l)) as Hl.
    rewrite Hskip, length_app in Hl. simpl in Hl. lia.
  - replace (S i) with (List.length (firstn i l) + 1) by lia.
    rewrite firstn_app_2. simpl firstn.
    rewrite rev_app_distr. simpl.
    rewrite <- Hlen at 2. rewrite nth_middle. reflexivity.
Qed.

(** The recurrence on prefix lengths is the recurrence on the characters of
    the prefixes. *)
Lemma prefix_distance_lev (a b : list ascii) (i j : nat) :
  i <= List.length b -> j <= List.length a ->
  prefix_distance a b i j = lev (rev (firstn i b)) (rev (firstn j a)).
Proof.
  revert j. induction i as [|i IHi]; intros j Hi Hj.
  - simpl. now rewrite length_rev, firstn_length_le.
  - induction j as [|j IHj].
    + simpl firstn at 2. simpl rev at 2. rewrite lev_nil_r, length_rev.
      now rewrite firstn_length_le.
    + assert (E1 : lev (rev (firstn i b)) (rev (firstn j a)) = prefix_distance a b i j)
        by (symmetry; apply IHi; lia).
      assert (E2 : lev (rev (firstn i b)) (charAt a j :: rev (firstn j a))
                   = prefix_distance a b i (S j))
        by (rewrite <- rev_firstn_S by lia; symmetry; apply IHi; lia).
      assert (E3 : lev (charAt b i :: rev (firstn i b)) (rev (firstn j a))
                   = prefix_distance a b (S i) j)
        by (rewrite <- rev_firstn_S by lia; symmetry; apply IHj; lia).
      rewrite (rev_firstn_S b i), (rev_firstn_S a j) by lia.
      rewrite lev_cons_cons, E1, E2, E3. reflexivity.
Qed.

(** The distance that the code computes is the least number of edits that
    turn one string into the other. *)
Lemma edit_distance_minimal (a b : string) :
  edit_script (chars a) (chars b) (edit_distance a b)
  /\ forall n, edit_script (chars a) (chars b) n -> edit_distance a b <= n.
Proof.
  assert (Hlev : edit_distance a b = lev (rev (chars b)) (rev (chars a))).
  { unfold edit_distance. rewrite <- !chars_length.
    rewrite prefix_distance_lev by lia. now rewrite !firstn_all. }
  rewrite Hlev. split.
  - apply script_sym. rewrite <- (rev_involutive (chars a)), <- (rev_involutive (chars b)).
    apply script_rev. rewrite !rev_involutive. apply lev_script.
  - intros n Hn. apply lev_lower_bound. apply script_rev, script_sym, Hn.
Qed.

Local Open Scope Z_scope.

Section StableSortUnique.

Context {A : Type} (key : A -> nat).


Lemma in_filter_key (x : A) (l : list A) :
  In x l -> In x (filter (fun y => (key y =? key x)%nat) l).
Proof. intros H. apply filter_In. split; [exact H | apply Nat.eqb_refl]. Qed.



End StableSortUnique.



(* ===================================================================== *)
(** ** Queries that pass the read-only guard                              *)
(* ===================================================================== *)

Section ForwardedQueries.

Variable downstream : Downstream.
Variable patterns : ErrorPatterns.
Variable JSON_stringify_pretty : value -> string.

Lemma getTypeFields_log (typeName : string) (w : World) :
  http_log (snd (getTypeFields downstream typeName w))
  = http_log w ++ [ {| req_query := GetTypeFieldsQuery;
                       req_variables := VObj [("name", VStr typeName)] |} ].
Proof.
  unfold getTypeFields, bind, request, lift, ret.
  destruct (outcome _) as [e|data]; [reflexivity|]. cbn [snd fst].
  destruct (read_prop data "__type") as [e|t]; [reflexivity|].
  destruct (truthy t); [|reflexivity]. cbn [negb].
  destruct (push_entries (js_get t "fields") field_entry []) as [e|f1]; [reflexivity|].
  destruct (push_entries (js_get t "inputFields") field_entry f1) as [e|f2]; [reflexivity|].
  destruct (push_entries (js_get t "enumValues") enum_entry f2) as [e|f3]; reflexivity.
Qed.

Lemma findSimilarFields_log (typeName fieldName : string) (maxDistance : nat) (w : World) :
  http_log (snd (findSimilarFields downstream typeName fieldName maxDistance w))
  = http_log w ++ [ {| req_query := GetTypeFieldsQuery;
                       req_variables := VObj [("name", VStr typeName)] |} ].
Proof.
  unfold findSimilarFields, try_catch, bind, lift, ret.
  pose proof (getTypeFields_log typeName w) as Hlog.
  destruct (getTypeFields downstream typeName w) as [[e|fields] w1]; cbn [snd] in *;
    [exact Hlog|].
  destruct (filter_names _ _); exact Hlog.
Qed.

(** The diagnosis of a failed query looks up at most one type. *)
Lemma run_query_catch_log (error : error) (w : World) :
  exists result w' lookups,
    run_query_catch downstream patterns error w = (inr result, w')
    /\ isError result = true
    /\ http_log w' = http_log w ++ lookups
    /\ (List.length lookups <= 1)%nat.
Proof.
  unfold run_query_catch.
  destruct (includes "expected an enum value" (message_of error)
            && (includes "but found a string" (message_of error)
                || includes "but found String" (message_of error))).
  { eexists. exists w, []. rewrite app_nil_r. repeat split. simpl. lia. }
  destruct (includes "field not found" (message_of error)
            || includes "Cannot query field" (message_of error)).
  { destruct (group1 (onType patterns (message_of error))) as [typeName|].
    - unfold bind at 1. unfold bind at 1.
      pose proof (findSimilarFields_log typeName
                    (or_else
                       match fieldNotFound patterns (message_of error) with
                       | Some f => Some f
                       | None => cannotQueryField patterns (message_of error)
                       end "unknown_field") 3 w) as Hlog.
      destruct (findSimilarFields_returns downstream typeName
                  (or_else
                     match fieldNotFound patterns (message_of error) with
                     | Some f => Some f
                     | None => cannotQueryField patterns (message_of error)
                     end "unknown_field") 3 w) as (l & w1 & Hrun).
      rewrite Hrun in *. cbn [snd] in Hlog.
      eexists. exists w1. eexists.
      split; [reflexivity|]. split; [reflexivity|]. split; [exact Hlog|]. simpl. lia.
    - eexists. exists w, []. rewrite app_nil_r. repeat split. simpl. lia. }
  destruct (includes "unexpected subselection" (message_of error)).
  { eexists. exists w, []. rewrite app_nil_r. repeat split. simpl. lia. }
  eexists. exists w, []. rewrite app_nil_r. repeat split. simpl. lia.
Qed.

(** A query that passes the guard is sent, as it is and first. *)
Lemma run_query_forwards (c : ascii) (r : string) (variables : value) (w : World) :
  startsWith "mutation" (toLowerCase (trim (String c r))) = false ->
  includes "mutation {" (toLowerCase (trim (String c r))) = false ->
  exists result w' lookups,
    run_query downstream patterns JSON_stringify_pretty (Some (String c r)) variables w
    = (inr result, w')
    /\ http_log w'
       = http_log w ++ {| req_query := String c r; req_variables := variables |} :: lookups.
Proof.
  intros Hs Hi. unfold run_query. rewrite Hs, Hi. cbn [orb].
  unfold try_catch, bind, request.
  destruct (outcome _) as [e|result].
  - match goal with
    | |- context [run_query_catch _ _ e ?w1] =>
        destruct (run_query_catch_log e w1) as (res & w' & lookups & Hrun & _ & Hlog & _)
    end.
    rewrite Hrun. exists res, w', lookups. split; [reflexivity|].
    rewrite Hlog. cbn [http_log]. now rewrite <- app_assoc.
  - eexists. eexists. exists []. split; reflexivity.
Qed.

End ForwardedQueries.

(* ===================================================================== *)
(** ** Numbers and limits                                                 *)
(* ===================================================================== *)

Lemma digit_prefix_string_of_uint (d : Decimal.uint) :
  digit_prefix (NilEmpty.string_of_uint d) = d.
Proof. induction d; simpl; try (rewrite IHd); reflexivity. Qed.

Lemma parseInt_digits (d : Decimal.uint) :
  d <> Decimal.Nil ->
  parseInt (NilEmpty.string_of_uint d) = Some (Z.of_uint d).
Proof.
  intros Hd. unfold parseInt.
  assert (Hparse : parse_unsigned (NilEmpty.string_of_uint d) = Some (Z.of_uint d)).
  { unfold parse_unsigned. rewrite digit_prefix_string_of_uint.
    destruct d; try reflexivity. contradiction. }
  destruct d; try contradiction; simpl NilEmpty.string_of_uint in *;
    cbn [trimStart is_white_space]; exact Hparse.
Qed.

Lemma parse_unsigned_digits (d : Decimal.uint) :
  d <> Decimal.Nil ->
  parse_unsigned (NilEmpty.string_of_uint d) = Some (Z.of_uint d).
Proof.
  intros Hd. unfold parse_unsigned. rewrite digit_prefix_string_of_uint.
  destruct d; try reflexivity. contradiction.
Qed.

Lemma parseInt_minus (s : string) :
  parseInt (String "-" s) = option_map Z.opp (parse_unsigned s).
Proof. reflexivity. Qed.

Lemma string_of_uint_nonnil (d : Decimal.uint) :
  d <> Decimal.Nil -> NilZero.string_of_uint d = NilEmpty.string_of_uint d.
Proof. destruct d; try reflexivity. contradiction. Qed.

Lemma parseInt_Z_toString (z : Z) : parseInt (Number.Z_toString z) = Some z.
Proof.
  unfold Number.Z_toString.
  rewrite <- (DecimalZ.of_to z) at 2.
  destruct z as [|p|p]; simpl Z.to_int.
  - reflexivity.
  - unfold NilZero.string_of_int.
    rewrite string_of_uint_nonnil by apply DecimalPos.Unsigned.to_uint_nonnil.
    rewrite parseInt_digits by apply DecimalPos.Unsigned.to_uint_nonnil. reflexivity.
  - unfold NilZero.string_of_int.
    rewrite string_of_uint_nonnil by apply DecimalPos.Unsigned.to_uint_nonnil.
    rewrite parseInt_minus, parse_unsigned_digits by apply DecimalPos.Unsigned.to_uint_nonnil.
    reflexivity.
Qed.

(** Numbers *)


Lemma inject_Z_safe (z : Z) :
  Z.abs z <= Number.MAX_SAFE_INTEGER ->
  Number.isSafeInteger (inject_Z z) = true /\ Number.to_Z (inject_Z z) = z.
Proof.
  intros Hz.
  assert (Hred : Qred (inject_Z z) = inject_Z z).
  { unfold inject_Z. apply Qcanon.Qred_identity. apply Z.gcd_1_r. }
  unfold Number.isSafeInteger, Number.isInteger, Number.to_Z. rewrite Hred. simpl.
  split; [|reflexivity]. apply Z.leb_le. exact Hz.
Qed.

Section NumberFacts.

Variable float_toString : Q -> string.

Lemma Number_toString_safe (q : Q) :
  Number.isSafeInteger q = true ->
  Number_toString float_toString q = Number.Z_toString (Number.to_Z q).
Proof. intros H. unfold Number_toString. now rewrite H. Qed.

Lemma parseInt_safe (q : Q) :
  Number.isSafeInteger q = true ->
  parseInt (js_String float_toString (VNum q)) = Some (Number.to_Z q).
Proof.
  intros H. simpl. rewrite (Number_toString_safe q H). apply parseInt_Z_toString.
Qed.


Lemma guarded_limit_safe (q : Q) (dflt cap : Z) :
  Number.isSafeInteger q = true ->
  guarded_limit float_toString (VNum q) dflt cap
  = Z.min (if Number.to_Z q <=? 0 then dflt else Number.to_Z q) cap.
Proof.
  intros H. unfold guarded_limit.
  change (nullish_or (VNum q) (VNum (inject_Z dflt))) with (VNum q).
  now rewrite (parseInt_safe q H).
Qed.


Lemma guarded_limit_range (arg : value) (dflt cap : Z) :
  1 <= dflt -> 1 <= cap ->
  1 <= guarded_limit float_toString arg dflt cap <= cap.
Proof.
  intros Hd Hc. unfold guarded_limit.
  destruct (parseInt _) as [n|]; [destruct (Z.leb_spec n 0)|]; lia.
Qed.

End NumberFacts.



(* ===================================================================== *)
(** ** The query synthesizer                                              *)
(* ===================================================================== *)

Lemma strip_trailing_last (Y : ascii -> bool) (s : string) (c : ascii) :
  Y c = true -> strip_trailing Y (s ++ String c EmptyString) = s.
Proof.
  intros Hc. induction s as [|a r IH]; simpl.
  - now rewrite Hc.
  - rewrite IH. destruct r; reflexivity.
Qed.

Lemma ilike_condition_braces (phrase field : string) :
  ilike_condition phrase field
  = String "{" (plain_condition phrase field ++ String "}" EmptyString).
Proof.
  unfold ilike_condition, plain_condition. rewrite !append_assoc. reflexivity.
Qed.

Lemma replace_surrounding_braces_condition (phrase field : string) :
  replace_surrounding_braces (ilike_condition phrase field) = plain_condition phrase field.
Proof.
  rewrite ilike_condition_braces. unfold replace_surrounding_braces.
  change (strip_leading (Ascii.eqb "{") (String "{" ?s)) with s.
  apply strip_trailing_last. reflexivity.
Qed.

Lemma replace_surrounding_quotes_quoted (q1 q2 : ascii) (s : string) :
  is_quote q1 = true -> is_quote q2 = true ->
  replace_surrounding_quotes (String q1 (s ++ String q2 EmptyString)) = s.
Proof.
  intros H1 H2. unfold replace_surrounding_quotes. simpl. rewrite H1.
  now apply strip_trailing_last.
Qed.

Lemma has_field_iff (fields : list FieldInfo) (f : string) :
  has_field fields f = true <-> exists ef, In ef fields /\ f_name ef = VStr f.
Proof.
  unfold has_field. rewrite existsb_exists. split.
  - intros (ef & Hin & Heq). exists ef. split; [exact Hin|].
    unfold strict_eq_str in Heq. destruct (f_name ef); try discriminate.
    apply String.eqb_eq in Heq. now subst.
  - intros (ef & Hin & Heq). exists ef. split; [exact Hin|].
    rewrite Heq. simpl. apply String.eqb_refl.
Qed.

Lemma has_field_names (a b : list FieldInfo) (f : string) :
  same_names a b -> has_field a f = has_field b f.
Proof.
  unfold same_names, has_field. revert b.
  induction a as [|x a IH]; intros [|y b] H; simpl in *; try discriminate; [reflexivity|].
  inversion H as [[Hx Hr]]. rewrite Hx, (IH b Hr). reflexivity.
Qed.

Section SearchFacts.

Variable float_toString : Q -> string.

Lemma textClause_or (fields : list FieldInfo) (phrase : string) :
  (1 < List.length (smartSearchableFields fields))%nat ->
  textClause float_toString fields phrase
  = Some ("_or: [" ++ join ", " (map (ilike_condition phrase) (smartSearchableFields fields))
          ++ "]")%string.
Proof.
  intros H. unfold textClause.
  destruct (Nat.ltb_spec 0 (List.length (smartSearchableFields fields))); [|lia].
  destruct (Nat.ltb_spec 1 (List.length (smartSearchableFields fields))); [|lia].
  reflexivity.
Qed.

Lemma textClause_single (fields : list FieldInfo) (phrase f : string) :
  smartSearchableFields fields = [f] ->
  textClause float_toString fields phrase = Some (plain_condition phrase f).
Proof.
  intros H. unfold textClause. rewrite H.
  change (Some (replace_surrounding_braces (ilike_condition phrase f))
          = Some (plain_condition phrase f)).
  now rewrite replace_surrounding_braces_condition.
Qed.

End SearchFacts.

Section SearchHandler.

Variable float_toString : Q -> string.
Variable downstream : Downstream.
Variable patterns : ErrorPatterns.
Variable JSON_stringify_pretty : value -> string.

Lemma find_default_names (a b : list FieldInfo) :
  same_names a b ->
  option_map f_name
    (find (fun f => strict_eq_str (f_name f) "summary"
                    || strict_eq_str (f_name f) "text") a)
  = option_map f_name
      (find (fun f => strict_eq_str (f_name f) "summary"
                      || strict_eq_str (f_name f) "text") b).
Proof.
  unfold same_names. revert b.
  induction a as [|x a IH]; intros [|y b] Hn; simpl in *; try discriminate;
    [reflexivity|].
  inversion Hn as [[Hx Hr]]. rewrite Hx.
  destruct (strict_eq_str (f_name y) "summary" || strict_eq_str (f_name y) "text");
    simpl; [now rewrite Hx | now apply IH].
Qed.

Lemma textClause_names (a b : list FieldInfo) (phrase : string) :
  same_names a b ->
  textClause float_toString a phrase = textClause float_toString b phrase.
Proof.
  intros Hn. unfold textClause.
  assert (Hs : smartSearchableFields a = smartSearchableFields b).
  { unfold smartSearchableFields. apply filter_ext. intros f.
    now apply has_field_names. }
  rewrite Hs.
  destruct (0 <? List.length (smartSearchableFields b))%nat; [reflexivity|].
  pose proof (find_default_names a b Hn) as Hfind.
  destruct (find _ a) as [fa|]; destruct (find _ b) as [fb|]; simpl in Hfind;
    try discriminate; [|reflexivity].
  inversion Hfind as [Hname]. now rewrite Hname.
Qed.

Lemma filterClauses_names (a b : list FieldInfo) (extType : option string)
  (personaIds : option (list value)) :
  same_names a b ->
  filterClauses float_toString a extType personaIds
  = filterClauses float_toString b extType personaIds.
Proof.
  intros Hn. unfold filterClauses. now rewrite (has_field_names a b "speaker" Hn).
Qed.

Lemma selectionFields_names (a b : list FieldInfo) :
  same_names a b -> selectionFields a = selectionFields b.
Proof.
  intros Hn. unfold selectionFields.
  now rewrite !(has_field_names a b _ Hn).
Qed.

(** The declared types of the fields are not consulted: the query depends
    on the names of the fields only. *)
Lemma search_query_names (a b : list FieldInfo) (phrase : string)
  (extType : option string) (limit : value) (personaIds : option (list value)) :
  same_names a b ->
  search_query float_toString a phrase extType limit personaIds
  = search_query float_toString b phrase extType limit personaIds.
Proof.
  intros Hn. unfold search_query.
  rewrite (textClause_names a b phrase Hn), (filterClauses_names a b _ _ Hn),
    (selectionFields_names a b Hn). reflexivity.
Qed.

(** What the handler does once the fields of [extraction] are known: it
    sends the query, once, and returns. *)
Lemma search_extractions_sends (c : ascii) (r : string) (extType : option string)
  (limit : value) (personaIds : option (list value)) (w w1 : World)
  (fields : list FieldInfo) (q : string) :
  getTypeFields downstream "extraction" w = (inr fields, w1) ->
  search_query float_toString fields (String c r) extType limit personaIds = Some q ->
  exists result w2,
    search_extractions float_toString downstream patterns JSON_stringify_pretty
      (Some (String c r)) extType limit personaIds w = (inr result, w2)
    /\ http_log w2 = http_log w1 ++ [search_request q].
Proof.
  intros Hget Hq. unfold search_query in Hq.
  unfold search_extractions, bind. rewrite Hget.
  destruct (textClause float_toString fields (String c r)) as [clause|]; [|discriminate].
  inversion Hq as [Hq']. clear Hq.
  unfold try_catch, bind, request, search_extractions_catch, ret.
  fold (search_request
          (searchQueryString
             (join ", " ([clause] ++ filterClauses float_toString fields
                                       (normalized_type float_toString extType) personaIds))
             (guarded_limit float_toString limit 10 50) (selectionFields fields))).
  destruct (outcome _); eexists; eexists; (split; [reflexivity|]); reflexivity.
Qed.

Lemma searchQueryString_contains (whereCombined : string) (limit : Z)
  (selection : list string) :
  contains ("where: { " ++ whereCombined ++ " }")
           (searchQueryString whereCombined limit selection)
  /\ contains ("limit: " ++ Number.Z_toString limit)
              (searchQueryString whereCombined limit selection).
Proof.
  unfold contains, searchQueryString. split.
  - exists "
      query SearchExtractions {
        extraction(
          ".
    eexists. rewrite !append_assoc. reflexivity.
  - exists ("
      query SearchExtractions {
        extraction(
          where: { " ++ whereCombined ++ " }
          order_by: { display_ts: desc }
          ")%string.
    eexists. rewrite !append_assoc. reflexivity.
Qed.

End SearchHandler.

Lemma join_cons (sep x : string) (l : list string) :
  exists tail, join sep (x :: l) = (x ++ tail)%string.
Proof.
  destruct l as [|y l]; simpl.
  - exists EmptyString. now rewrite append_empty_r.
  - eexists. reflexivity.
Qed.

Lemma contains_prefix (a b hay : string) :
  contains (a ++ b) hay -> contains a hay.
Proof.
  intros (pre & post & H). exists pre, (b ++ post)%string.
  rewrite H. now rewrite !append_assoc.
Qed.

(** C6. A field is present when an entry of the type has its name; the
    searchable fields are the candidates [summary], [exact_quote], [text],
    [context] that are present, in that order. With more than one of them
    the text condition is an [_or] of one [_ilike] condition per field, in
    that order; with one it is the plain condition on that field. For the
    phrase [pricing] and a type that has [summary] and [text] of the
    candidates, it is the [_or] of the two conditions, which is the clause of
    the specification up to spaces. The handler puts the condition first in
    the [where] of the query that it sends. *)
Theorem search_text_clause (float_toString : Q -> string) (downstream : Downstream)
  (patterns : ErrorPatterns) (JSON_stringify_pretty : value -> string) :
  (forall fields f,
      has_field fields f = true <-> exists ef, In ef fields /\ f_name ef = VStr f)
  /\ (forall fields,
        smartSearchableFields fields
        = filter (has_field fields) ["summary"; "exact_quote"; "text"; "context"])
  /\ (forall fields phrase,
        (1 < List.length (smartSearchableFields fields))%nat ->
        textClause float_toString fields phrase
        = Some ("_or: ["
                ++ join ", " (map (ilike_condition phrase) (smartSearchableFields fields))
                ++ "]")%string)
  /\ (forall fields phrase f,
        smartSearchableFields fields = [f] ->
        textClause float_toString fields phrase = Some (plain_condition phrase f))
  /\ (forall fields,
        has_field fields "summary" = true -> has_field fields "text" = true ->
        has_field fields "exact_quote" = false -> has_field fields "context" = false ->
        textClause float_toString fields "pricing"
        = Some ("_or: [{ summary: {_ilike: " ++ dq ++ "%pricing%" ++ dq
                ++ "} }, { text: {_ilike: " ++ dq ++ "%pricing%" ++ dq ++ "} }]")%string
        /\ option_map remove_spaces (textClause float_toString fields "pricing")
           = Some (remove_spaces or_clause_as_stated))
  /\ (forall fields c r extType limit personaIds w w1 clause,
        getTypeFields downstream "extraction" w = (inr fields, w1) ->
        textClause float_toString fields (String c r) = Some clause ->
        exists result w2 q,
          search_extractions float_toString downstream patterns JSON_stringify_pretty
            (Some (String c r)) extType limit personaIds w = (inr result, w2)
          /\ http_log w2 = http_log w1 ++ [search_request q]
          /\ contains ("where: { " ++ clause) q).
Proof.
  split; [apply has_field_iff|].
  split; [reflexivity|].
  split; [apply textClause_or|].
  split; [apply textClause_single|].
  split.
  - intros fields Hs Ht He Hc.
    assert (Hsmart : smartSearchableFields fields = ["summary"; "text"])
      by (unfold smartSearchableFields; cbn [filter]; now rewrite Hs, Ht, He, Hc).
    assert (Hclause : textClause float_toString fields "pricing"
                      = Some ("_or: [{ summary: {_ilike: " ++ dq ++ "%pricing%" ++ dq
                              ++ "} }, { text: {_ilike: " ++ dq ++ "%pricing%" ++ dq
                              ++ "} }]")%string).
    { rewrite textClause_or by (rewrite Hsmart; cbn [List.length]; lia).
      rewrite Hsmart. reflexivity. }
    split; [exact Hclause|]. rewrite Hclause. vm_compute. reflexivity.
  - intros fields c r extType limit personaIds w w1 clause Hget Hclause.
    destruct (search_extractions_sends float_toString downstream patterns
                JSON_stringify_pretty c r extType limit personaIds w w1 fields
                (searchQueryString
                   (join ", " ([clause] ++ filterClauses float_toString fields
                                             (normalized_type float_toString extType)
                                             personaIds))
                   (guarded_limit float_toString limit 10 50) (selectionFields fields))
                Hget) as (result & w2 & Hrun & Hlog).
    { unfold search_query. now rewrite Hclause. }
    exists result, w2. eexists. split; [exact Hrun|]. split; [exact Hlog|].
    destruct (searchQueryString_contains
                (join ", " ([clause] ++ filterClauses float_toString fields
                                          (normalized_type float_toString extType)
                                          personaIds))
                (guarded_limit float_toString limit 10 50) (selectionFields fields))
      as [Hwhere _].
    destruct (join_cons ", " clause
                (filterClauses float_toString fields
                   (normalized_type float_toString extType) personaIds))
      as [tail Htail].
    change ([clause] ++ ?l) with (clause :: l) in Hwhere.
    rewrite Htail in Hwhere at 1.
    apply (contains_prefix _ (tail ++ " }")).
    replace (("where: { " ++ clause) ++ tail ++ " }")%string
      with ("where: { " ++ (clause ++ tail) ++ " }")%string
      by (rewrite !append_assoc; reflexivity).
    exact Hwhere.
Qed.

Lemma search_text_clause_witness :
  exists result w2 q,
    search_extractions sample_float_toString extraction_endpoint no_patterns
      (fun _ => EmptyString) (Some "pricing") None VUndefined None empty_world
    = (inr result, w2)
    /\ http_log w2 = http_log after_extraction_lookup ++ [search_request q]
    /\ contains ("where: { " ++ "_or: [{ summary: {_ilike: " ++ dq ++ "%pricing%" ++ dq
                 ++ "} }, { text: {_ilike: " ++ dq ++ "%pricing%" ++ dq ++ "} }]") q.
Proof.
  destruct (search_text_clause sample_float_toString extraction_endpoint no_patterns
              (fun _ => EmptyString)) as (_ & _ & _ & _ & _ & Hsend).
  apply (Hsend extraction_fields "p"%char "ricing" None VUndefined None empty_world
               after_extraction_lookup).
  - reflexivity.
  - reflexivity.
Defined.

(** C2 fails as it is stated: for a field [summary] that the schema
    declares as an enum, the value of the text search is emitted quoted and
    between wildcards, the same text as for a [summary] declared as a
    string. *)
Lemma search_ignores_declared_kind :
  js_get (f_type summary_declared_enum) "kind" = VStr "ENUM"
  /\ js_get (f_type summary_declared_string) "kind" = VStr "SCALAR"
  /\ textClause sample_float_toString [summary_declared_enum] "Issue"
     = Some (" summary: {_ilike: " ++ dq ++ "%Issue%" ++ dq ++ "} ")%string
  /\ textClause sample_float_toString [summary_declared_string] "Issue"
     = textClause sample_float_toString [summary_declared_enum] "Issue".
Proof. repeat split. Qed.

(** C2, as the code has it. In [search-extractions] the value of the
    argument [type], with a quote removed at either end, is emitted as it is,
    without quotes ([types: { type: { name: {_eq: Issue} } }]); the phrase is
    emitted between quotes and wildcards in every text condition. Which of
    the two forms a value takes is fixed by the argument that it comes from:
    the query is the same for two types whose fields have the same names,
    whatever their declared types. *)
Theorem search_literals (float_toString : Q -> string) :
  (forall fields c r personaIds,
      normalizeEnumValue float_toString (VStr (String c r)) <> EmptyString ->
      exists rest,
        filterClauses float_toString fields
          (normalized_type float_toString (Some (String c r))) personaIds
        = type_condition (normalizeEnumValue float_toString (VStr (String c r))) :: rest)
  /\ (forall q1 q2 s,
        is_quote q1 = true -> is_quote q2 = true ->
        normalizeEnumValue float_toString (VStr (String q1 (s ++ String q2 EmptyString))) = s)
  /\ (forall s,
        strip_leading is_quote s = s -> strip_trailing is_quote s = s ->
        normalizeEnumValue float_toString (VStr s) = s)
  /\ type_condition "Issue" = "types: { type: { name: {_eq: Issue} } }"
  /\ (forall fields phrase clause,
        textClause float_toString fields phrase = Some clause ->
        smartSearchableFields fields <> [] ->
        clause = ("_or: ["
                  ++ join ", " (map (ilike_condition phrase) (smartSearchableFields fields))
                  ++ "]")%string
        \/ exists f, smartSearchableFields fields = [f]
                     /\ clause = plain_condition phrase f)
  /\ (forall phrase field,
        ilike_condition phrase field
        = ("{ " ++ field ++ ": {_ilike: " ++ dq ++ "%" ++ phrase ++ "%" ++ dq ++ "} }")%string)
  /\ (forall a b phrase extType limit personaIds,
        same_names a b ->
        search_query float_toString a phrase extType limit personaIds
        = search_query float_toString b phrase extType limit personaIds).
Proof.
  split; [|split; [|split; [|split; [|split; [|split]]]]].
  - intros fields c r personaIds Hne.
    unfold filterClauses, normalized_type.
    destruct (normalizeEnumValue float_toString (VStr (String c r))) as [|c' r'];
      [contradiction|].
    eexists. reflexivity.
  - intros q1 q2 s H1 H2. unfold normalizeEnumValue. cbn [js_String].
    now apply replace_surrounding_quotes_quoted.
  - intros s Hl Ht. unfold normalizeEnumValue, replace_surrounding_quotes.
    cbn [js_String]. now rewrite Hl, Ht.
  - reflexivity.
  - intros fields phrase clause Hclause Hsmart.
    destruct (smartSearchableFields fields) as [|f [|g l]] eqn:Hs; [contradiction| |].
    + right. exists f. split; [reflexivity|].
      rewrite (textClause_single float_toString fields phrase f Hs) in Hclause.
      now inversion Hclause.
    + left. rewrite textClause_or in Hclause by (rewrite Hs; cbn [List.length]; lia).
      rewrite Hs in Hclause. now inversion Hclause.
  - reflexivity.
  - intros a b phrase extType limit personaIds Hn.
    now apply search_query_names.
Qed.

Lemma search_literals_witness :
  normalizeEnumValue sample_float_toString (VStr (String "034" ("Issue" ++ String "034" EmptyString)))
  = "Issue"
  /\ search_query sample_float_toString [summary_declared_enum] "pricing" (Some "Issue")
       VUndefined None
     = search_query sample_float_toString [summary_declared_string] "pricing" (Some "Issue")
         VUndefined None.
Proof.
  destruct (search_literals sample_float_toString) as (_ & Hq & _ & _ & _ & _ & Hn).
  split.
  - apply Hq; reflexivity.
  - apply Hn. reflexivity.
Defined.

Section LimitFacts.

Variable float_toString : Q -> string.
Variable downstream : Downstream.
Variable patterns : ErrorPatterns.
Variable JSON_stringify_pretty : value -> string.
Variable isoDateDaysAgo : Z -> Z -> string.



End LimitFacts.




Section BuildQueryFacts.

Variable float_toString : Q -> string.
Variable downstream : Downstream.
Variable JSON_stringify : value -> string.
Variable unquote_keys : string -> string.






End BuildQueryFacts.





(* ===================================================================== *)
(** ** The theorems at sample inputs                                      *)
(* ===================================================================== *)


Lemma getSchemaInfo_failed_refresh_witness :
  exists w',
    getSchemaInfo failing_endpoint stale_world = (inl (ClientError "fetch failed"), w')
    /\ cachedSchema w' = cachedSchema stale_world
    /\ http_log w' = http_log stale_world ++ [introspection_request].
Proof.
  apply (getSchemaInfo_failed_refresh failing_endpoint stale_world).
  - unfold needs_fetch, fresh, SCHEMA_CACHE_TTL_MS. simpl. lia.
  - reflexivity.
Defined.

Lemma formatTypeForDisplay_chain_witness :
  formatTypeForDisplay (Some required_list_of_strings) = "[String!]!".
Proof.
  destruct formatTypeForDisplay_chain as (Hchain & _).
  destruct (Hchain (mkType "SCALAR" (Some "String") None) "String"
                   [TypeRef.NON_NULL; TypeRef.LIST; TypeRef.NON_NULL]
                   required_list_of_strings) as (Hrender & _).
  - repeat split; discriminate.
  - unfold required_list_of_strings.
    apply (TypeRef.Chain_wrap _ TypeRef.NON_NULL None).
    apply (TypeRef.Chain_wrap _ TypeRef.LIST None).
    apply (TypeRef.Chain_wrap _ TypeRef.NON_NULL None).
    apply TypeRef.Chain_base.
  - exact Hrender.
Defined.

(* ===================================================================== *)
(** ** Properties of the remaining code                                   *)
(* ===================================================================== *)

(** *** [levenshteinDistance] as a metric *)

Local Open Scope nat_scope.

Lemma script_refl (xs : list ascii) : edit_script xs xs 0.
Proof. induction xs; constructor; assumption. Qed.

Lemma script_zero (xs ys : list ascii) (n : nat) :
  edit_script xs ys n -> n = 0 -> xs = ys.
Proof.
  induction 1; intros Hn; try discriminate; [reflexivity|].
  f_equal. auto.
Qed.

Lemma script_lengths (xs ys : list ascii) (n : nat) :
  edit_script xs ys n ->
  List.length xs <= List.length ys + n /\ List.length ys <= List.length xs + n.
Proof. induction 1; simpl; lia. Qed.

Lemma script_substitute_all (xs ys : list ascii) :
  exists n, n <= Nat.max (List.length xs) (List.length ys) /\ edit_script xs ys n.
Proof.
  revert ys. induction xs as [|x xs IH]; intros ys.
  - exists (List.length ys). split; [simpl; lia | apply script_insert_all].
  - destruct ys as [|y ys].
    + exists (List.length (x :: xs)). split; [simpl; lia | apply script_delete_all].
    + destruct (IH ys) as (n & Hn & Hs).
      exists (S n). split; [simpl; lia | now apply script_substitute].
Qed.

Lemma script_trans (xs ys : list ascii) (n : nat) :
  edit_script xs ys n ->
  forall zs m, edit_script ys zs m ->
    exists k, k <= n + m /\ edit_script xs zs k.
Proof.
  induction 1 as [|c xs ys n _ IH|c d xs ys n _ IH|c xs ys n _ IH|d xs ys n _ IH].
  - intros zs m H2. exists m. split; [lia | exact H2].
  - intros zs m H2. remember (c :: ys) as l eqn:El.
    induction H2 as [|c' ys' zs m H2 _|c' d' ys' zs m H2 _|c' ys' zs m H2 _|d' ys' zs m H2 IH2];
      try discriminate.
    + injection El as -> ->. destruct (IH zs m H2) as (k & Hk & Hs).
      exists k. split; [lia | now apply script_keep].
    + injection El as -> ->. destruct (IH zs m H2) as (k & Hk & Hs).
      exists (S k). split; [lia | now apply script_substitute].
    + injection El as -> ->. destruct (IH zs m H2) as (k & Hk & Hs).
      exists (S k). split; [lia | now apply script_delete].
    + destruct (IH2 El) as (k & Hk & Hs).
      exists (S k). split; [lia | now apply script_insert].
  - intros zs m H2. remember (d :: ys) as l eqn:El.
    induction H2 as [|c' ys' zs m H2 _|c' d' ys' zs m H2 _|c' ys' zs m H2 _|d' ys' zs m H2 IH2];
      try discriminate.
    + injection El as -> ->. destruct (IH zs m H2) as (k & Hk & Hs).
      exists (S k). split; [lia | now apply script_substitute].
    + injection El as -> ->. destruct (IH zs m H2) as (k & Hk & Hs).
      exists (S k). split; [lia | now apply script_substitute].
    + injection El as -> ->. destruct (IH zs m H2) as (k & Hk & Hs).
      exists (S k). split; [lia | now apply script_delete].
    + destruct (IH2 El) as (k & Hk & Hs).
      exists (S k). split; [lia | now apply script_insert].
  - intros zs m H2. destruct (IH zs m H2) as (k & Hk & Hs).
    exists (S k). split; [lia | now apply script_delete].
  - intros zs m H2. remember (d :: ys) as l eqn:El.
    induction H2 as [|c' ys' zs m H2 _|c' d' ys' zs m H2 _|c' ys' zs m H2 _|d' ys' zs m H2 IH2];
      try discriminate.
    + injection El as -> ->. destruct (IH zs m H2) as (k & Hk & Hs).
      exists (S k). split; [lia | now apply script_insert].
    + injection El as -> ->. destruct (IH zs m H2) as (k & Hk & Hs).
      exists (S k). split; [lia | now apply script_insert].
    + injection El as -> ->. destruct (IH zs m H2) as (k & Hk & Hs).
      exists k. split; [lia | exact Hs].
    + destruct (IH2 El) as (k & Hk & Hs).
      exists (S k). split; [lia | now apply script_insert].
Qed.

Lemma chars_inj (a b : string) : chars a = chars b -> a = b.
Proof.
  intros H. rewrite <- (string_of_list_ascii_of_string a), <- (string_of_list_ascii_of_string b).
  unfold chars in H. now rewrite H.
Qed.

Lemma levenshteinDistance_script (a b : string) :
  edit_script (chars a) (chars b) (levenshteinDistance a b)
  /\ forall n, edit_script (chars a) (chars b) n -> levenshteinDistance a b <= n.
Proof. rewrite levenshteinDistance_recurrence. apply edit_distance_minimal. Qed.

(** X2. [levenshteinDistance] is a metric on strings: it is 0 exactly
    between equal strings, it is symmetric, and it obeys the triangle
    inequality. *)
Theorem levenshteinDistance_metric :
  (forall a b, levenshteinDistance a b = 0 <-> a = b)
  /\ (forall a b, levenshteinDistance a b = levenshteinDistance b a)
  /\ (forall a b c,
        levenshteinDistance a c <= levenshteinDistance a b + levenshteinDistance b c).
Proof.
  split; [|split].
  - intros a b. split.
    + intros H0. apply chars_inj.
      apply (script_zero _ _ _ (proj1 (levenshteinDistance_script a b)) H0).
    + intros ->. pose proof (proj2 (levenshteinDistance_script b b) 0 (script_refl _)). lia.
  - intros a b. apply Nat.le_antisymm.
    + apply levenshteinDistance_script, script_sym, levenshteinDistance_script.
    + apply levenshteinDistance_script, script_sym, levenshteinDistance_script.
  - intros a b c.
    destruct (script_trans _ _ _ (proj1 (levenshteinDistance_script a b)) _ _
                (proj1 (levenshteinDistance_script b c))) as (k & Hk & Hs).
    pose proof (proj2 (levenshteinDistance_script a c) k Hs). lia.
Qed.

(** X3. The distance is at most the length of the longer string and at
    least the difference of the two lengths. *)
Theorem levenshteinDistance_bounds (a b : string) :
  levenshteinDistance a b <= Nat.max (String.length a) (String.length b)
  /\ String.length a <= String.length b + levenshteinDistance a b
  /\ String.length b <= String.length a + levenshteinDistance a b.
Proof.
  rewrite <- !chars_length. split.
  - destruct (script_substitute_all (chars a) (chars b)) as (n & Hn & Hs).
    pose proof (proj2 (levenshteinDistance_script a b) n Hs). lia.
  - apply script_lengths, levenshteinDistance_script.
Qed.

Local Open Scope Z_scope.




Lemma remove_wildcards_filter (s : string) :
  chars (remove_wildcards s) = filter (fun c => negb (is_wildcard c)) (chars s).
Proof.
  induction s as [|c r IH]; [reflexivity|]. simpl. unfold is_wildcard at 1.
  destruct (Ascii.eqb c "%" || Ascii.eqb c "_"); simpl; [exact IH | now rewrite IH].
Qed.

Lemma remove_wildcards_clean (s : string) : no_wildcard (remove_wildcards s).
Proof.
  intros c Hc. rewrite remove_wildcards_filter in Hc.
  apply filter_In in Hc. destruct Hc as (_ & Hc).
  unfold is_wildcard in Hc. apply negb_true_iff, orb_false_iff in Hc.
  destruct Hc as (H1 & H2). split; intros ->; discriminate.
Qed.

Section TemplateFacts.

Variable float_toString : Q -> string.
Variable isoDateDaysAgo : Z -> Z -> string.

Local Abbreviation templates := (queryTemplates float_toString isoDateDaysAgo).
Local Abbreviation signals := (signal_by_type float_toString isoDateDaysAgo).

Lemma limit_param_integer (params : Params) (k : string) (dflt cap n : Z) :
  Z.abs n <= Number.MAX_SAFE_INTEGER ->
  lookup_prop k params = VNum (inject_Z n) ->
  limit_param float_toString params k dflt cap = Some (Z.min (Z.max 1 n) cap).
Proof.
  intros Hn Hk. unfold limit_param. rewrite Hk.
  change (nullish_or (VNum (inject_Z n)) (VNum (inject_Z dflt))) with (VNum (inject_Z n)).
  destruct (inject_Z_safe n Hn) as (Hsafe & Hz).
  rewrite (parseInt_safe float_toString _ Hsafe), Hz. reflexivity.
Qed.

Lemma text_param_clean (params : Params) (k dflt : string) :
  no_wildcard dflt -> no_wildcard (text_param float_toString params k dflt).
Proof.
  intros Hd. unfold text_param. destruct (truthy _); [apply remove_wildcards_clean | exact Hd].
Qed.

Lemma getExampleVariables_pure (t : QueryTemplate) :
  In t (map snd templates) ->
  forall (params : Params) (w : World),
    exists vars, getExampleVariables t params w = (inr vars, w).
Proof.
  unfold queryTemplates. cbn [map snd In].
  intros [<-|[<-|[<-|[<-|[<-|[<-|[]]]]]]] params w;
    try (eexists; reflexivity).
  cbn [getExampleVariables signal_by_type]. unfold bind, ret, Date_now.
  destruct (is_defined (lookup_prop "days" params)).
  - destruct (parseInt (js_String float_toString (lookup_prop "days" params))) as [d|].
    + destruct (0 <? d); eexists; reflexivity.
    + eexists; reflexivity.
  - eexists; reflexivity.
Qed.

Lemma assoc_In {A} (k : string) (l : list (string * A)) (a : A) :
  assoc k l = Some a -> In (k, a) l.
Proof.
  induction l as [|[k' a'] r IH]; simpl; [discriminate|].
  destruct (String.eqb_spec k k') as [->|Hne].
  - intros [= ->]. now left.
  - intros H. right. auto.
Qed.


(** X14. The query templates clamp an integer limit between 1 and the
    cap. Unlike the guard of the tools, which replaces a limit of 0 or
    below by the default, they turn it into 1. *)
Theorem template_limit_clamp (params : Params) (k : string) (dflt cap n : Z) :
  1 <= cap ->
  Z.abs n <= Number.MAX_SAFE_INTEGER ->
  lookup_prop k params = VNum (inject_Z n) ->
  limit_param float_toString params k dflt cap = Some (Z.min (Z.max 1 n) cap)
  /\ 1 <= Z.min (Z.max 1 n) cap <= cap
  /\ (n <= 0 ->
      limit_param float_toString params k dflt cap = Some 1
      /\ guarded_limit float_toString (lookup_prop k params) dflt cap = Z.min dflt cap).
Proof.
  intros Hcap Hn Hk.
  rewrite (limit_param_integer params k dflt cap n Hn Hk).
  split; [reflexivity|]. split; [lia|].
  intros Hle. split; [f_equal; lia|].
  rewrite Hk. destruct (inject_Z_safe n Hn) as (Hsafe & Hz).
  rewrite (guarded_limit_safe float_toString _ dflt cap Hsafe), Hz.
  destruct (Z.leb_spec n 0); [reflexivity | lia].
Qed.

Lemma contains_refl (s : string) : contains s s.
Proof. exists EmptyString, EmptyString. now rewrite append_empty_r. Qed.

Lemma contains_app_l (needle a b : string) :
  contains needle a -> contains needle (a ++ b).
Proof.
  intros (pre & post & ->). exists pre, (post ++ b)%string.
  now rewrite !append_assoc.
Qed.

Lemma contains_app_r (needle a b : string) :
  contains needle b -> contains needle (a ++ b).
Proof.
  intros (pre & post & ->). exists (a ++ pre)%string, post.
  now rewrite !append_assoc.
Qed.

Lemma contains_span (lit mid post pre needle : string) :
  lit = (pre ++ needle)%string ->
  contains (needle ++ mid) (lit ++ mid ++ post).
Proof.
  intros ->. exists pre, post. now rewrite !append_assoc.
Qed.

Lemma contains_join (x sep : string) (l : list string) :
  In x l -> contains x (join sep l).
Proof.
  induction l as [|y l IH]; [intros []|].
  intros [->|Hin].
  - destruct (join_cons sep x l) as (tail & ->). apply contains_app_l, contains_refl.
  - destruct l as [|z l]; [destruct Hin|].
    change (join sep (y :: z :: l)) with (y ++ sep ++ join sep (z :: l))%string.
    apply contains_app_r, contains_app_r, IH, Hin.
Qed.

Lemma contains_between (pre n1 mid n2 post : string) (lit1 lit2 : string) :
  lit1 = (pre ++ n1)%string -> lit2 = (n2 ++ post)%string ->
  contains (n1 ++ mid ++ n2) (lit1 ++ mid ++ lit2).
Proof.
  intros -> ->. exists pre, post. now rewrite !append_assoc.
Qed.

(** X16. [generateQuery] of [signal-by-type] throws when the type, after
    [normalizeEnumValue], is empty. Otherwise the query carries the type as
    a bare value and the clamped limit as text; a limit without a leading
    integer is not replaced by the default: the query reads
    [limit: NaN]. *)
Theorem signal_by_type_interpolates (params : Params) :
  let type := normalizeEnumValue float_toString (lookup_prop "type" params) in
  let limit := limit_param float_toString params "limit" 10 50 in
  (type = EmptyString ->
   generateQuery signals params
   = inl (Error "The 'type' parameter is required for the signal-by-type template."))
  /\ (type <> EmptyString ->
      exists q, generateQuery signals params = inr q
                /\ contains ("name: {_eq: " ++ type ++ "}") q
                /\ contains ("limit: " ++ int_toString limit) q
                /\ (limit = None -> contains "limit: NaN" q)).
Proof.
  intros type limit. split.
  - intros Ht. cbn [generateQuery signal_by_type]. fold type. now rewrite Ht.
  - intros Ht. cbn [generateQuery signal_by_type]. fold type. fold limit.
    destruct type as [|c r] eqn:Htype; [contradiction|]. cbn [is_empty].
    eexists. split; [reflexivity|].
    split; [|split].
    + do 3 apply contains_app_r. apply contains_app_l.
      unfold signal_whereClauses.
      match goal with
      | |- contains _ (join _ ([?x] ++ ?r)) =>
          destruct (join_cons ", " x r) as (tail & Htail);
          change ([x] ++ r) with (x :: r); rewrite Htail
      end.
      apply contains_app_l.
      apply (contains_between "types: { type: { " "name: {_eq: " (String c r) "}" " } }");
        reflexivity.
    + do 4 apply contains_app_r. match goal with
      | |- contains _ (?lit ++ _ ++ _)%string =>
          apply (contains_span lit _ _ (substring 0 (String.length lit - 7) lit));
          vm_compute; reflexivity
      end.
    + intros Hnan. rewrite Hnan. cbn [int_toString].
      change "limit: NaN" with ("limit: " ++ "NaN")%string.
      do 4 apply contains_app_r. match goal with
      | |- contains _ (?lit ++ _ ++ _)%string =>
          apply (contains_span lit _ _ (substring 0 (String.length lit - 7) lit));
          vm_compute; reflexivity
      end.
Qed.


Lemma inr_inj {A B} (a b : B) : @inr A B a = inr b -> a = b.
Proof. intros [= ->]. reflexivity. Qed.

Lemma lookup_template_own (name : string) (t : QueryTemplate) :
  lookup_template float_toString isoDateDaysAgo name = OwnTemplate t ->
  In (name, t) templates.
Proof.
  unfold lookup_template.
  destruct (assoc name templates) as [t'|] eqn:Ha.
  - intros [= <-]. apply assoc_In, Ha.
  - destruct (existsb _ _); discriminate.
Qed.

Lemma lookup_template_In (name : string) (t : QueryTemplate) :
  In (name, t) templates ->
  lookup_template float_toString isoDateDaysAgo name = OwnTemplate t.
Proof.
  unfold queryTemplates. cbn [In].
  intros [[= <- <-]|[[= <- <-]|[[= <- <-]|[[= <- <-]|[[= <- <-]|[[= <- <-]|[]]]]]]];
    reflexivity.
Qed.

(** X15. In the example variables of the templates that search by name
    or topic, the LIKE pattern is a text between two [%] marks and the text
    has no wildcard of its own: for a string parameter it is the parameter
    without its [%] and [_] characters, the other characters in their
    order. Reading the variables changes nothing in the world. *)
Theorem template_patterns_wildcards :
  forall t param key,
    In (t, param, key)
       [ (find_person float_toString, "name", "nameParam");
         (last_call_with_person float_toString, "name", "nameParam");
         (recent_calls_with_person float_toString, "name", "nameParam");
         (call_with_topic float_toString, "topic", "topicParam") ] ->
    forall (params : Params) (w : World),
    exists text rest,
      getExampleVariables t params w
      = (inr ((key, EText ("%" ++ text ++ "%")) :: rest), w)
      /\ no_wildcard text
      /\ (forall s, lookup_prop param params = VStr s -> s <> EmptyString ->
                    chars text = filter (fun c => negb (is_wildcard c)) (chars s)).
Proof.
  intros t param key Hin params w. cbn [In] in Hin.
  assert (Htext : forall s, lookup_prop param params = VStr s -> s <> EmptyString ->
                  forall dflt,
                    chars (text_param float_toString params param dflt)
                    = filter (fun c => negb (is_wildcard c)) (chars s)).
  { intros s Hs Hne dflt. unfold text_param. rewrite Hs.
    destruct s as [|c r]; [contradiction|]. cbn [truthy is_empty negb js_String].
    apply remove_wildcards_filter. }
  destruct Hin as [[= <- <- <-]|[[= <- <- <-]|[[= <- <- <-]|[[= <- <- <-]|[]]]]];
    eexists; eexists; (split; [reflexivity|]);
    (split; [apply text_param_clean; intros c Hc; vm_compute in Hc;
             repeat (destruct Hc as [<-|Hc]; [split; discriminate|]); destruct Hc
            | intros s Hs Hne; apply (Htext s Hs Hne)]).
Qed.

(** X17. Every example variable of [signal-by-type] is declared by the
    generated query, and each declared variable is in its text. The
    converse fails: when [days] is given but is not an integer above 0, the
    query declares the required [$sinceDateParam] and the example variables
    have none. *)
Theorem signal_by_type_variables (params : Params) (w : World) :
  exists vars,
    getExampleVariables signals params w = (inr vars, w)
    /\ (forall k, In k (map fst vars) ->
          (k = "sinceDateParam"
           /\ In "$sinceDateParam: timestamp!" (signal_gqlVariables params))
          \/ (k = "personaIdParam"
              /\ In "$personaIdParam: Int!" (signal_gqlVariables params)))
    /\ (forall q v,
          generateQuery signals params = inr q ->
          In v (signal_gqlVariables params) -> contains v q)
    /\ (is_defined (lookup_prop "days" params) = true ->
        (forall n, parseInt (js_String float_toString (lookup_prop "days" params)) = Some n ->
                   n <= 0) ->
        In "$sinceDateParam: timestamp!" (signal_gqlVariables params)
        /\ ~ In "sinceDateParam" (map fst vars)).
Proof.
  cbn [getExampleVariables signal_by_type]. unfold bind, ret, Date_now, signal_gqlVariables.
  set (days := lookup_prop "days" params).
  set (personaId := lookup_prop "personaId" params).
  assert (Hq : forall q v,
             generateQuery signals params = inr q ->
             In v ((if is_defined days then ["$sinceDateParam: timestamp!"] else [])
                   ++ (if is_defined personaId then ["$personaIdParam: Int!"] else [])) ->
             contains v q).
  { intros q v Hgen Hv. cbn [generateQuery signal_by_type] in Hgen.
    destruct (is_empty _); [discriminate|].
    apply inr_inj in Hgen. subst q.
    unfold signal_gqlVariables. fold days. fold personaId.
    apply contains_app_r, contains_app_l.
    destruct ((if is_defined days then ["$sinceDateParam: timestamp!"] else [])
              ++ (if is_defined personaId then ["$personaIdParam: Int!"] else []))
      as [|x l] eqn:Hl; [destruct Hv|].
    apply contains_app_r, contains_app_l, contains_join, Hv. }
  destruct (is_defined days) eqn:Hd; destruct (is_defined personaId) eqn:Hp;
    destruct (parseInt (js_String float_toString days)) as [d|] eqn:Hpd;
    try destruct (0 <? d) eqn:Hpos;
    destruct (parseInt (js_String float_toString personaId)) as [pid|] eqn:Hpp;
    eexists; (split; [reflexivity|]); cbn [map fst app In];
    (split; [intros k Hk; repeat (destruct Hk as [<-|Hk]; [tauto|]); destruct Hk|]);
    (split; [exact Hq|]);
    intros Hdef Hn; try discriminate Hdef;
    try (specialize (Hn d eq_refl); apply Z.ltb_lt in Hpos; lia);
    (split; [tauto|]); intros Hk;
    repeat (destruct Hk as [Hk|Hk]; [discriminate Hk|]); destruct Hk.
Qed.

End TemplateFacts.

Lemma getTypeFields_cache (downstream : Downstream) (typeName : string) (w : World) :
  cachedSchema (snd (getTypeFields downstream typeName w)) = cachedSchema w.
Proof.
  unfold getTypeFields, bind, request, lift, ret.
  destruct (outcome _) as [e|data]; [reflexivity|]. cbn [snd fst].
  destruct (read_prop data "__type") as [e|t]; [reflexivity|].
  destruct (truthy t); [|reflexivity]. cbn [negb].
  destruct (push_entries (js_get t "fields") field_entry []) as [e|f1]; [reflexivity|].
  destruct (push_entries (js_get t "inputFields") field_entry f1) as [e|f2]; [reflexivity|].
  destruct (push_entries (js_get t "enumValues") enum_entry f2) as [e|f3]; reflexivity.
Qed.

Lemma findSimilarFields_cache (downstream : Downstream) (typeName fieldName : string)
  (maxDistance : nat) (w : World) :
  cachedSchema (snd (findSimilarFields downstream typeName fieldName maxDistance w))
  = cachedSchema w.
Proof.
  unfold findSimilarFields, try_catch, bind, lift, ret.
  pose proof (getTypeFields_cache downstream typeName w) as Hc.
  destruct (getTypeFields downstream typeName w) as [[e|fields] w1]; cbn [snd] in *;
    [exact Hc|].
  destruct (filter_names _ _); exact Hc.
Qed.

Section GeneratorFacts.

Variable float_toString : Q -> string.
Variable downstream : Downstream.
Variable patterns : ErrorPatterns.
Variable JSON_stringify_pretty : value -> string.
Variable isoDateDaysAgo : Z -> Z -> string.
Variable descriptionPatterns : DescriptionPatterns.
Variable quotedEnumPattern : string -> list (string * string).
Variable subSelectionPattern : string -> string -> bool.

Local Abbreviation templates := (queryTemplates float_toString isoDateDaysAgo).

Lemma template_member (name : string) (t : QueryTemplate) :
  In (name, t) templates -> In t (map snd templates).
Proof. intros H. apply (in_map snd) in H. exact H. Qed.

(** X18. [query-template] never throws and never touches the world: it
    sends nothing. Its result is no error exactly when the name is one of
    the six templates and the template generates a query for the
    parameters. A name that is neither a template nor a property of
    [Object.prototype] is answered with the list of the six templates, in
    their order. *)
Theorem query_template_generates (templateName : option string)
  (parameters : option Params) (w : World) :
  exists result,
    query_template float_toString JSON_stringify_pretty isoDateDaysAgo
      templateName parameters w = (inr result, w)
    /\ (isError result = false <->
        exists name t q,
          templateName = Some name /\ In (name, t) templates
          /\ generateQuery t (or_empty parameters) = inr q)
    /\ (forall name,
          templateName = Some name -> name <> EmptyString ->
          lookup_template float_toString isoDateDaysAgo name = NoTemplate ->
          content result
          = [ ("Template '" ++ name ++ "' not found. Available templates: find-person, last-call-with-person, recent-calls-with-person, recent-calls, call-with-topic, signal-by-type")%string ]).
Proof.
  assert (Hno : forall name t,
             lookup_template float_toString isoDateDaysAgo name <> OwnTemplate t ->
             ~ In (name, t) templates).
  { intros name t Hl Hin. apply Hl, lookup_template_In, Hin. }
  unfold query_template.
  destruct templateName as [[|c r]|].
  - eexists. split; [reflexivity|]. split.
    + split; [discriminate|]. intros (name & t & q & [= <-] & Hin & _).
      destruct (Hno EmptyString t); [discriminate | exact Hin].
    + intros name [= <-] Hne. contradiction.
  - set (name := String c r).
    destruct (lookup_template float_toString isoDateDaysAgo name) as [t| |] eqn:Hl.
    + pose proof (lookup_template_own _ _ _ _ Hl) as Hin.
      unfold try_catch, bind, lift.
      destruct (generateQuery t (or_empty parameters)) as [e|q] eqn:Hgen.
      * eexists. split; [reflexivity|]. split.
        -- split; [discriminate|]. intros (name' & t' & q & [= <-] & Hin' & Hgen').
           apply lookup_template_In in Hin'. fold name in Hin'. rewrite Hl in Hin'.
           injection Hin' as <-. rewrite Hgen in Hgen'. discriminate.
        -- intros name' [= <-] _ Hnone. fold name in Hnone. rewrite Hl in Hnone.
           discriminate Hnone.
      * destruct (getExampleVariables_pure float_toString isoDateDaysAgo t
                    (template_member _ _ Hin) (or_empty parameters) w) as (vars & Hvars).
        rewrite Hvars. eexists. split; [reflexivity|]. split.
        -- split; [|reflexivity]. intros _. exists name, t, q. auto.
        -- intros name' [= <-] _ Hnone. fold name in Hnone. rewrite Hl in Hnone.
           discriminate Hnone.
    + eexists. split; [reflexivity|]. split.
      * split; [discriminate|]. intros (name' & t' & q & [= <-] & Hin' & _).
        destruct (Hno name t'); [rewrite Hl; discriminate | exact Hin'].
      * intros name' [= <-] _ Hnone. fold name in Hnone. rewrite Hl in Hnone.
           discriminate Hnone.
    + eexists. split; [reflexivity|]. split.
      * split; [discriminate|]. intros (name' & t' & q & [= <-] & Hin' & _).
        destruct (Hno name t'); [rewrite Hl; discriminate | exact Hin'].
      * intros name' [= <-] _ _. reflexivity.
  - eexists. split; [reflexivity|]. split.
    + split; [discriminate|]. intros (name & t & q & [=] & _).
    + intros name [=].
Qed.






(** The result of the diagnosis of a failed query: three blocks, the last
    with the message of the error; at most one type is looked up. *)
Lemma run_query_catch_shape (e : error) (w : World) :
  exists headline suggestions w' lookups,
    run_query_catch downstream patterns e w
    = (inr (tool_error [ headline; suggestions;
                         ("Original error: " ++ message_of e)%string ]), w')
    /\ http_log w' = http_log w ++ lookups
    /\ (lookups = [] \/ exists typeName, lookups = [type_lookup typeName])
    /\ cachedSchema w' = cachedSchema w.
Proof.
  unfold run_query_catch.
  destruct (includes "expected an enum value" (message_of e)
            && (includes "but found a string" (message_of e)
                || includes "but found String" (message_of e))).
  { eexists. eexists. exists w, []. rewrite app_nil_r.
    split; [reflexivity|]. repeat split. now left. }
  destruct (includes "field not found" (message_of e)
            || includes "Cannot query field" (message_of e)).
  { destruct (group1 (onType patterns (message_of e))) as [typeName|].
    - unfold bind at 1. unfold bind at 1.
      match goal with
      | |- context [findSimilarFields downstream typeName ?f 3 w] =>
          pose proof (findSimilarFields_log downstream typeName f 3 w) as Hlog;
          pose proof (findSimilarFields_cache downstream typeName f 3 w) as Hcache;
          destruct (findSimilarFields_returns downstream typeName f 3 w) as (l & w1 & Hrun)
      end.
      rewrite Hrun in *. cbn [snd] in Hlog, Hcache.
      eexists. eexists. exists w1. eexists.
      split; [reflexivity|]. split; [exact Hlog|].
      split; [right; exists typeName; reflexivity | exact Hcache].
    - eexists. eexists. exists w, []. rewrite app_nil_r.
      split; [reflexivity|]. repeat split. now left. }
  destruct (includes "unexpected subselection" (message_of e)).
  { eexists. eexists. exists w, []. rewrite app_nil_r.
    split; [reflexivity|]. repeat split. now left. }
  eexists. eexists. exists w, []. rewrite app_nil_r.
  split; [reflexivity|]. repeat split. now left.
Qed.

(** X20. [validate-query] reports an error for exactly the non-empty
    queries that [run-query] rejects as mutations: both apply the same test
    to the trimmed, lower-cased text. For those the report is the fixed text
    that ends with the INVALID verdict. *)
Theorem validate_query_agrees (query : string) (variables : value) (w : World) :
  query <> EmptyString ->
  let blocked :=
    startsWith "mutation" (toLowerCase (trim query))
    || includes "mutation {" (toLowerCase (trim query)) in
  (isError (validate_query quotedEnumPattern subSelectionPattern (Some query)) = blocked)
  /\ (fst (run_query downstream patterns JSON_stringify_pretty (Some query) variables w)
      = inr MutationRejected <-> blocked = true)
  /\ (blocked = true ->
      content (validate_query quotedEnumPattern subSelectionPattern (Some query))
      = [ "## Query Validation Report ##\n**Syntax Valid:** Yes\n**Is Mutation:** Yes (Mutations are BLOCKED)\n\n**Overall Result: INVALID (Mutations not allowed)**" ]).
Proof.
  intros Hne blocked. destruct query as [|c r]; [contradiction|].
  unfold validate_query, run_query. fold blocked. cbn [andb negb orb].
  destruct blocked eqn:Hb.
  - split; [reflexivity|]. split; [|intros _; reflexivity].
    split; [reflexivity | intros _; reflexivity].
  - split; [reflexivity|]. split; [|discriminate].
    split; [|discriminate]. unfold try_catch, bind, request.
    destruct (outcome _) as [e|result].
    + match goal with
      | |- context [run_query_catch _ _ e ?w1] =>
          destruct (run_query_catch_shape e w1) as (h & s & w' & l & Hrun & _)
      end.
      rewrite Hrun. cbn [fst]. intros [=].
    + cbn [fst ret]. intros [=].
Qed.


(** X12. [recent-conversation-with], given a name, sends one request: the
    fixed query with the name between [%] marks after [normalizeEnumValue],
    5 as the person limit and an interview limit between 1 and 10. It
    returns the serialized data, or an error result with the message of the
    rejection; it never throws and leaves the schema cache alone. *)
Theorem recent_conversation_with_sends (c : ascii) (r : string) (limit : value)
  (w : World) :
  let interviewLimit := guarded_limit float_toString limit 1 10 in
  let sent :=
    {| req_query := FindPersonConversationsQuery;
       req_variables :=
         VObj [ ("nameParam",
                 VStr ("%" ++ normalizeEnumValue float_toString (VStr (String c r)) ++ "%"));
                ("personLimitParam", VNum (inject_Z 5));
                ("interviewLimitParam", VNum (inject_Z interviewLimit)) ] |} in
  1 <= interviewLimit <= 10
  /\ exists result w',
      recent_conversation_with float_toString downstream JSON_stringify_pretty
        (Some (String c r)) limit w = (inr result, w')
      /\ http_log w' = http_log w ++ [sent]
      /\ cachedSchema w' = cachedSchema w
      /\ (forall data, outcome (downstream (clock w) (http_log w) sent) = inr data ->
                       result = tool_ok [ JSON_stringify_pretty data ])
      /\ (forall e, outcome (downstream (clock w) (http_log w) sent) = inl e ->
                    result = tool_error
                               [ ("Error finding conversations with " ++ String c r ++ ": "
                                  ++ message_of e)%string ]).
Proof.
  intros interviewLimit sent. split.
  - apply guarded_limit_range; lia.
  - unfold recent_conversation_with, try_catch, bind, request, ret.
    fold interviewLimit. cbv zeta. fold sent.
    destruct (outcome (downstream (clock w) (http_log w) sent)) as [e|data];
      eexists; eexists; (split; [reflexivity|]); (split; [reflexivity|]);
      (split; [reflexivity|]); split; intros x [= <-]; reflexivity.
Qed.

(** X13. [topic-conversations], given a topic, sends one request: the
    fixed query with the topic between [%] marks after
    [normalizeEnumValue] and a limit between 1 and 25. It returns the
    serialized data, or an error result with the message of the rejection;
    it never throws and leaves the schema cache alone. *)
Theorem topic_conversations_sends (c : ascii) (r : string) (limit : value)
  (w : World) :
  let limitParam := guarded_limit float_toString limit 5 25 in
  let sent :=
    {| req_query := CallsWithTopicQuery;
       req_variables :=
         VObj [ ("topicParam",
                 VStr ("%" ++ normalizeEnumValue float_toString (VStr (String c r)) ++ "%"));
                ("limitParam", VNum (inject_Z limitParam)) ] |} in
  1 <= limitParam <= 25
  /\ exists result w',
      topic_conversations float_toString downstream JSON_stringify_pretty
        (Some (String c r)) limit w = (inr result, w')
      /\ http_log w' = http_log w ++ [sent]
      /\ cachedSchema w' = cachedSchema w
      /\ (forall data, outcome (downstream (clock w) (http_log w) sent) = inr data ->
                       result = tool_ok [ JSON_stringify_pretty data ])
      /\ (forall e, outcome (downstream (clock w) (http_log w) sent) = inl e ->
                    result = tool_error
                               [ ("Error finding conversations about '" ++ String c r ++ "': "
                                  ++ message_of e)%string ]).
Proof.
  intros limitParam sent. split.
  - apply guarded_limit_range; lia.
  - unfold topic_conversations, try_catch, bind, request, ret.
    fold limitParam. cbv zeta. fold sent.
    destruct (outcome (downstream (clock w) (http_log w) sent)) as [e|data];
      eexists; eexists; (split; [reflexivity|]); (split; [reflexivity|]);
      (split; [reflexivity|]); split; intros x [= <-]; reflexivity.
Qed.

End GeneratorFacts.

Lemma filter_names_kept (keep : string -> bool) (names : list value) (kept : list string) :
  filter_names keep names = inr kept ->
  forall n, In n kept -> keep n = true /\ In (VStr n) names.
Proof.
  revert kept. induction names as [|v r IH]; intros kept H n Hn.
  - injection H as <-. destruct Hn.
  - destruct v; try discriminate H. simpl in H.
    destruct (filter_names keep r) as [e|r'] eqn:Hr; [discriminate|].
    injection H as <-.
    destruct (keep s) eqn:Hk.
    + destruct Hn as [<-|Hn].
      * split; [exact Hk | now left].
      * destruct (IH r' eq_refl n Hn). split; [assumption | now right].
    + destruct (IH r' eq_refl n Hn). split; [assumption | now right].
Qed.

Lemma In_firstn_prefix {A} (n : nat) (l : list A) (x : A) : In x (firstn n l) -> In x l.
Proof. intros H. rewrite <- (firstn_skipn n l). apply in_or_app. now left. Qed.

Section SuggestionFacts.

Variable downstream : Downstream.

(** X4. [findSimilarFields] always returns; it gives at most three names,
    none of them the looked-for name up to case and each within
    [maxDistance] edits of it in lower case; it sends exactly the lookup of
    the type and leaves the schema cache alone. *)
Theorem findSimilarFields_suggestions (typeName fieldName : string) (maxDistance : nat)
  (w : World) :
  exists suggestions w',
    findSimilarFields downstream typeName fieldName maxDistance w = (inr suggestions, w')
    /\ (List.length suggestions <= 3)%nat
    /\ (forall n, In n suggestions ->
          toLowerCase n <> toLowerCase fieldName
          /\ (levenshteinDistance (toLowerCase n) (toLowerCase fieldName)
              <= maxDistance)%nat)
    /\ http_log w' = http_log w ++ [type_lookup typeName]
    /\ cachedSchema w' = cachedSchema w.
Proof.
  pose proof (findSimilarFields_log downstream typeName fieldName maxDistance w) as Hlog.
  pose proof (findSimilarFields_cache downstream typeName fieldName maxDistance w) as Hcache.
  unfold findSimilarFields, try_catch, bind, lift, ret in *.
  destruct (getTypeFields downstream typeName w) as [[e|fields] w1].
  - exists [], w1. split; [reflexivity|]. split; [simpl; lia|].
    split; [intros n []|]. split; [exact Hlog | exact Hcache].
  - destruct (filter_names _ (map f_name fields)) as [e|similar] eqn:Hf.
    + exists [], w1. split; [reflexivity|]. split; [simpl; lia|].
      split; [intros n []|]. split; [exact Hlog | exact Hcache].
    + eexists. exists w1. split; [reflexivity|].
      split; [apply firstn_le_length|].
      split; [|split; [exact Hlog | exact Hcache]].
      intros n Hn. apply In_firstn_prefix in Hn.
      apply (Permutation_in n (Array_sort_perm (distance_to fieldName) similar)) in Hn.
      destruct (filter_names_kept _ _ _ Hf n Hn) as (Hkeep & _).
      apply andb_true_iff in Hkeep. destruct Hkeep as (Hpos & Hmax).
      apply Nat.ltb_lt in Hpos. apply Nat.leb_le in Hmax. unfold distance_to in *.
      split; [|exact Hmax].
      intros Heq. rewrite Heq in Hpos.
      pose proof (proj2 (levenshteinDistance_script (toLowerCase fieldName)
                           (toLowerCase fieldName)) 0%nat (script_refl _)).
      lia.
Qed.

End SuggestionFacts.

Section QueryFacts.

Variable float_toString : Q -> string.
Variable downstream : Downstream.
Variable patterns : ErrorPatterns.
Variable JSON_stringify_pretty : value -> string.
Variable JSON_stringify : value -> string.
Variable unquote_keys : string -> string.
Variable isoDateDaysAgo : Z -> Z -> string.

(** X7. A non-empty query that passes the guard is sent as it is, not
    trimmed and not lower-cased, with its variables. When the endpoint
    resolves, the result is the serialized data, no error, and that request
    is the only one. When it rejects, the result is an error of three
    blocks, the last quoting the message of the endpoint, and at most one
    further request follows: the lookup of a type. *)
Theorem run_query_outcome (query : string) (variables : value) (w : World) :
  query <> EmptyString ->
  startsWith "mutation" (toLowerCase (trim query)) = false ->
  includes "mutation {" (toLowerCase (trim query)) = false ->
  let sent := {| req_query := query; req_variables := variables |} in
  let reply := downstream (clock w) (http_log w) sent in
  (forall data,
      outcome reply = inr data ->
      exists w',
        run_query downstream patterns JSON_stringify_pretty (Some query) variables w
        = (inr (tool_ok [ JSON_stringify_pretty data ]), w')
        /\ http_log w' = http_log w ++ [sent])
  /\ (forall e,
        outcome reply = inl e ->
        exists headline suggestions w' lookups,
          run_query downstream patterns JSON_stringify_pretty (Some query) variables w
          = (inr (tool_error [ headline; suggestions;
                               ("Original error: " ++ message_of e)%string ]), w')
          /\ http_log w' = http_log w ++ sent :: lookups
          /\ (lookups = [] \/ exists typeName, lookups = [type_lookup typeName])).
Proof.
  intros Hne Hs Hi sent reply. destruct query as [|c r]; [contradiction|].
  unfold run_query. rewrite Hs, Hi. cbn [orb].
  unfold try_catch, bind, request. fold sent. fold reply. split.
  - intros data Hd. rewrite Hd. eexists. split; reflexivity.
  - intros e He. rewrite He.
    match goal with
    | |- context [run_query_catch _ _ e ?w1] =>
        destruct (run_query_catch_shape downstream patterns e w1)
          as (h & s & w' & l & Hrun & Hlog & Hl & _)
    end.
    rewrite Hrun. exists h, s, w', l. split; [reflexivity|].
    split; [|exact Hl]. rewrite Hlog. cbn [http_log]. now rewrite <- app_assoc.
Qed.


Lemma getSchemaInfo_log (w : World) :
  exists sent,
    http_log (snd (getSchemaInfo downstream w)) = http_log w ++ sent
    /\ (sent = [] \/ sent = [introspection_request]).
Proof.
  destruct (cachedSchema w) as [c|] eqn:Hc.
  - destruct (Z.lt_ge_cases (clock w - fetchedAt c) SCHEMA_CACHE_TTL_MS) as [Hlt|Hge].
    + rewrite (getSchemaInfo_hit downstream w c Hc Hlt). exists [].
      rewrite app_nil_r. split; [reflexivity | now left].
    + rewrite (getSchemaInfo_miss downstream w)
        by (unfold needs_fetch; rewrite Hc; unfold fresh; lia).
      exists [introspection_request]. split; [apply fetchSchema_log | now right].
  - rewrite (getSchemaInfo_miss downstream w) by (unfold needs_fetch; now rewrite Hc).
    exists [introspection_request]. split; [apply fetchSchema_log | now right].
Qed.


Lemma strict_eq_str_true (v : value) (s : string) :
  strict_eq_str v s = true -> v = VStr s.
Proof.
  destruct v; simpl; try discriminate. intros H. apply String.eqb_eq in H. now subst.
Qed.

(** X9. A query that [build-query] returns names checked fields only:
    the type is an object type of the snapshot under exactly the requested
    name, every requested field is the name of one of its fields and has no
    dot, and the text is the query built from them; the world is the one
    that reading the schema left. *)
Theorem build_query_checked (typeName : option string) (fields : option (list string))
  (limit : value) (filter : option (list (string * value))) (w w' : World)
  (result : ToolResult) :
  build_query float_toString downstream JSON_stringify unquote_keys
    typeName fields limit filter w = (inr result, w') ->
  isError result = false ->
  exists tn fs schema objectTypes selectedType validFields,
    typeName = Some tn /\ fields = Some fs
    /\ getSchemaInfo downstream w = (inr schema, w')
    /\ filterObjectTypes schema = inr objectTypes
    /\ In selectedType objectTypes
    /\ js_get selectedType "name" = VStr tn
    /\ valid_fields (js_get selectedType "fields") = inr validFields
    /\ (forall f, In f fs -> In (VStr f) validFields /\ includes "." f = false)
    /\ content result
       = [ trim (build_query_string float_toString JSON_stringify unquote_keys
                   tn tn fs limit filter) ].
Proof.
  unfold build_query.
  destruct typeName as [[|c0 r0]|]; try (intros H; inversion H; subst; discriminate).
  destruct fields as [[|f0 fr]|]; try (intros H; inversion H; subst; discriminate).
  destruct (existsb _ _) eqn:Hnested; [intros H; inversion H; subst; discriminate|].
  unfold try_catch, bind.
  destruct (getSchemaInfo downstream w) as [[e|schema] w1] eqn:Hschema;
    [intros H; inversion H; subst; discriminate|].
  unfold lift.
  destruct (filterObjectTypes schema) as [e|objectTypes] eqn:Hobj;
    [intros H; inversion H; subst; discriminate|].
  destruct (find _ objectTypes) as [selectedType|] eqn:Hfind;
    [|intros H; inversion H; subst; discriminate].
  destruct (valid_fields _) as [e|validFields] eqn:Hvalid;
    [intros H; inversion H; subst; discriminate|].
  destruct (List.filter _ (f0 :: fr)) as [|first rest] eqn:Hinvalid.
  - intros H Hok. unfold ret in H. inversion H; subst.
    apply find_some in Hfind. destruct Hfind as (Hin & Hname).
    apply strict_eq_str_true in Hname.
    exists (String c0 r0), (f0 :: fr), schema, objectTypes, selectedType, validFields.
    repeat (split; [first [reflexivity | assumption]|]).
    split.
    + intros f Hf. split.
      * destruct (existsb (fun v => strict_eq_str v f) validFields) eqn:Hex.
        -- apply existsb_exists in Hex. destruct Hex as (v & Hv & Heq).
           apply strict_eq_str_true in Heq. now subst.
        -- assert (Hin' : In f (List.filter
                                  (fun f => negb (existsb (fun v => strict_eq_str v f)
                                                    validFields)) (f0 :: fr))).
           { apply filter_In. split; [exact Hf|]. now rewrite Hex. }
           rewrite Hinvalid in Hin'. destruct Hin'.
      * destruct (includes "." f) eqn:Hdot; [|reflexivity].
        assert (Hex : existsb (fun f => includes "." f) (f0 :: fr) = true)
          by (apply existsb_exists; exists f; split; assumption).
        rewrite Hnested in Hex. discriminate Hex.
    + cbn [content tool_ok]. rewrite Hname. reflexivity.
  - destruct (findSimilarFields downstream (String c0 r0) first 3 w1) as [[e|s] w2];
      intros H; inversion H; subst; discriminate.
Qed.

(** X10. [search-extractions] looks up the type [extraction] outside its
    [try]: when that lookup fails the error escapes the handler and no
    result is returned. When the type has none of [summary], [exact_quote],
    [text], [context], the handler returns its no-suitable-field error after
    that one request, and sends no query. The fallback on a default text
    field never rescues a search: there is a text condition exactly when
    one of the four fields exists. *)
Theorem search_extractions_failures (c : ascii) (r : string) (extType : option string)
  (limit : value) (personaIds : option (list value)) (w : World) :
  (forall e w1,
      getTypeFields downstream "extraction" w = (inl e, w1) ->
      search_extractions float_toString downstream patterns JSON_stringify_pretty
        (Some (String c r)) extType limit personaIds w = (inl e, w1))
  /\ (forall fields w1,
        getTypeFields downstream "extraction" w = (inr fields, w1) ->
        smartSearchableFields fields = [] ->
        search_extractions float_toString downstream patterns JSON_stringify_pretty
          (Some (String c r)) extType limit personaIds w
        = (inr (tool_error [ "Error: No suitable text field found on 'extraction' for searching." ]), w1)
        /\ http_log w1 = http_log w ++ [type_lookup "extraction"])
  /\ (forall fields,
        textClause float_toString fields (String c r) = None
        <-> smartSearchableFields fields = []).
Proof.
  assert (Hclause : forall fields,
             textClause float_toString fields (String c r) = None
             <-> smartSearchableFields fields = []).
  { intros fields. unfold textClause.
    destruct (smartSearchableFields fields) as [|s l] eqn:Hsmart.
    - cbn [List.length Nat.ltb Nat.leb]. split; [reflexivity|]. intros _.
      destruct (find _ fields) as [f|] eqn:Hfind; [|reflexivity].
      exfalso. apply find_some in Hfind. destruct Hfind as (Hin & Hname).
      assert (Hhas : has_field fields "summary" = true \/ has_field fields "text" = true).
      { apply orb_true_iff in Hname. destruct Hname as [H|H]; [left|right];
          apply existsb_exists; exists f; split; assumption. }
      assert (Hmem : forall n, In n ["summary"; "exact_quote"; "text"; "context"] ->
                               has_field fields n = true -> False).
      { intros n Hn Hh.
        assert (Hin' : In n (smartSearchableFields fields))
          by (apply filter_In; split; assumption).
        rewrite Hsmart in Hin'. destruct Hin'. }
      destruct Hhas as [H|H]; [apply (Hmem "summary") | apply (Hmem "text")];
        simpl; tauto.
    - cbn [List.length]. split; [|discriminate].
      change (0 <? S (List.length l))%nat with true. cbv iota.
      destruct (1 <? S (List.length l))%nat; discriminate. }
  split; [|split; [|exact Hclause]].
  - intros e w1 Hget. unfold search_extractions, bind. now rewrite Hget.
  - intros fields w1 Hget Hsmart. split.
    + unfold search_extractions, bind. rewrite Hget.
      rewrite (proj2 (Hclause fields) Hsmart). reflexivity.
    + pose proof (getTypeFields_log downstream "extraction" w) as Hlog.
      rewrite Hget in Hlog. exact Hlog.
Qed.

End QueryFacts.







(** *** Limits given as text *)






Lemma trimStart_white (ws s : string) :
  all_white_space ws -> trimStart (ws ++ s) = trimStart s.
Proof.
  induction ws as [|c r IH]; intros H; [reflexivity|]. simpl.
  rewrite (H c) by (now left). apply IH. intros c' Hc'. apply H. now right.
Qed.



Section NumberTextFacts.

Variable float_toString : Q -> string.


End NumberTextFacts.

(** *** [normalizeEnumValue] *)

Lemma strip_leading_split (X : ascii -> bool) (s : string) :
  exists pre, s = (pre ++ strip_leading X s)%string
              /\ (pre = EmptyString
                  \/ exists c, pre = String c EmptyString /\ X c = true).
Proof.
  destruct s as [|c r]; simpl.
  - exists EmptyString. split; [reflexivity | now left].
  - destruct (X c) eqn:Hc.
    + exists (String c EmptyString). split; [reflexivity|]. right. now exists c.
    + exists EmptyString. split; [reflexivity | now left].
Qed.

Lemma strip_trailing_split (Y : ascii -> bool) (s : string) :
  exists post, s = (strip_trailing Y s ++ post)%string
               /\ (post = EmptyString
                   \/ exists c, post = String c EmptyString /\ Y c = true).
Proof.
  induction s as [|c r IH].
  - exists EmptyString. split; [reflexivity | now left].
  - destruct r as [|c' r'].
    + simpl. destruct (Y c) eqn:Hc.
      * exists (String c EmptyString). split; [reflexivity|]. right. now exists c.
      * exists EmptyString. split; [reflexivity | now left].
    + destruct IH as (post & Heq & Hpost). exists post. split; [|exact Hpost].
      change (strip_trailing Y (String c (String c' r')))
        with (String c (strip_trailing Y (String c' r'))).
      rewrite Heq at 1. reflexivity.
Qed.

Lemma strip_leading_none (X : ascii -> bool) (s : string) :
  (forall c, In c (chars s) -> X c = false) -> strip_leading X s = s.
Proof.
  destruct s as [|c r]; [reflexivity|]. intros H. simpl.
  now rewrite (H c) by (now left).
Qed.

Lemma strip_trailing_none (Y : ascii -> bool) (s : string) :
  (forall c, In c (chars s) -> Y c = false) -> strip_trailing Y s = s.
Proof.
  induction s as [|c r IH]; [reflexivity|]. intros H.
  destruct r as [|c' r'].
  - simpl. now rewrite (H c) by (now left).
  - change (strip_trailing Y (String c (String c' r')))
      with (String c (strip_trailing Y (String c' r'))).
    rewrite IH; [reflexivity|]. intros x Hx. apply H. now right.
Qed.

Section EnumValueFacts.

Variable float_toString : Q -> string.

(** X5. [normalizeEnumValue] removes at most one character at each end
    of a string, a quote of either kind, and nothing else: the argument is
    the result between a prefix and a suffix that are empty or one quote.
    A string without quotes is unchanged; a string between two quotes,
    matching or not, loses both; [null] and [undefined] give the empty
    string. *)
Theorem normalizeEnumValue_quotes :
  (forall s,
      exists pre post,
        s = (pre ++ normalizeEnumValue float_toString (VStr s) ++ post)%string
        /\ (pre = EmptyString \/ exists c, pre = String c EmptyString /\ is_quote c = true)
        /\ (post = EmptyString
            \/ exists c, post = String c EmptyString /\ is_quote c = true))
  /\ (forall s,
        (forall c, In c (chars s) -> is_quote c = false) ->
        normalizeEnumValue float_toString (VStr s) = s)
  /\ (forall q1 q2 body,
        is_quote q1 = true -> is_quote q2 = true ->
        normalizeEnumValue float_toString
          (VStr (String q1 (body ++ String q2 EmptyString))) = body)
  /\ normalizeEnumValue float_toString VNull = EmptyString
  /\ normalizeEnumValue float_toString VUndefined = EmptyString.
Proof.
  split; [|split; [|split; [|split; reflexivity]]].
  - intros s. cbn [normalizeEnumValue js_String]. unfold replace_surrounding_quotes.
    destruct (strip_leading_split is_quote s) as (pre & Hpre & Hp).
    destruct (strip_trailing_split is_quote (strip_leading is_quote s))
      as (post & Hpost & Hq).
    exists pre, post. split; [|split; assumption].
    rewrite <- Hpost. exact Hpre.
  - intros s Hs. cbn [normalizeEnumValue js_String]. unfold replace_surrounding_quotes.
    rewrite (strip_leading_none is_quote s Hs). now apply strip_trailing_none.
  - intros q1 q2 body H1 H2. cbn [normalizeEnumValue js_String].
    now apply replace_surrounding_quotes_quoted.
Qed.

End EnumValueFacts.

(** *** The entries of [getTypeFields] *)

Lemma map_throwing_total {A B} (f : A -> error + B) (g : A -> B) (l : list A)
  (res : list B) :
  (forall a b, f a = inr b -> b = g a) ->
  map_throwing f l = inr res -> res = map g l.
Proof.
  intros Hfg. revert res. induction l as [|a r IH]; intros res H.
  - injection H as <-. reflexivity.
  - simpl in H. destruct (f a) as [e|b] eqn:Hfa; [discriminate|].
    destruct (map_throwing f r) as [e|r']; [discriminate|].
    injection H as <-. simpl. rewrite (Hfg a b Hfa). f_equal. now apply IH.
Qed.

Lemma field_entry_total (f : value) (entry : FieldInfo) :
  field_entry f = inr entry -> entry = as_field f.
Proof.
  unfold field_entry, read_prop.
  destruct f; try discriminate; intros [= <-]; reflexivity.
Qed.

Lemma enum_entry_total (ev : value) (entry : FieldInfo) :
  enum_entry ev = inr entry -> entry = as_enum_value ev.
Proof.
  unfold enum_entry, read_prop.
  destruct ev; try discriminate; intros [= <-]; reflexivity.
Qed.

Lemma push_entries_total (member : value) (entry : value -> error + FieldInfo)
  (total : value -> FieldInfo) (acc res : list FieldInfo) :
  (forall a b, entry a = inr b -> b = total a) ->
  push_entries member entry acc = inr res ->
  res = acc ++ map total (members member).
Proof.
  intros Ht. unfold push_entries.
  destruct (truthy member) eqn:Htruthy.
  - unfold as_array. destruct member; try discriminate.
    destruct (map_throwing entry items) as [e|entries] eqn:Hm; [discriminate|].
    intros [= <-]. cbn [members]. f_equal. now apply (map_throwing_total entry total).
  - intros [= <-]. destruct member; try discriminate Htruthy;
      cbn [members]; now rewrite app_nil_r.
Qed.

Section TypeFieldFacts.

Variable downstream : Downstream.

(** X1. When [getTypeFields] returns, it sent the one lookup of the type
    and the endpoint resolved it. A type that the endpoint does not know
    gives no entries, and no error; otherwise the entries are those of
    [fields], then of [inputFields], then of [enumValues], each in the
    order of the reply, an enum value as an entry of the kind [ENUM_VALUE]
    under its own name. *)
Theorem getTypeFields_members (typeName : string) (w w' : World)
  (fields : list FieldInfo) :
  getTypeFields downstream typeName w = (inr fields, w') ->
  exists data,
    outcome (downstream (clock w) (http_log w) (type_lookup typeName)) = inr data
    /\ http_log w' = http_log w ++ [type_lookup typeName]
    /\ (truthy (js_get data "__type") = false -> fields = [])
    /\ (truthy (js_get data "__type") = true ->
        fields
        = map as_field (members (js_get (js_get data "__type") "fields"))
          ++ map as_field (members (js_get (js_get data "__type") "inputFields"))
          ++ map as_enum_value (members (js_get (js_get data "__type") "enumValues"))).
Proof.
  intros Hrun. pose proof (getTypeFields_log downstream typeName w) as Hlog.
  rewrite Hrun in Hlog. cbn [snd] in Hlog. fold (type_lookup typeName) in Hlog.
  revert Hrun. unfold getTypeFields, bind, request, lift, ret.
  fold (type_lookup typeName).
  destruct (outcome (downstream (clock w) (http_log w) (type_lookup typeName)))
    as [e|data]; [discriminate|].
  exists data. split; [reflexivity|]. split; [exact Hlog|].
  revert Hrun. unfold read_prop.
  destruct data as [| |b|q|s|items|props]; try discriminate;
    set (t := js_get _ "__type");
    (destruct (truthy t) eqn:Ht; cbn [negb];
     [ destruct (push_entries (js_get t "fields") field_entry []) as [e|f1] eqn:H1;
         [discriminate|];
       destruct (push_entries (js_get t "inputFields") field_entry f1) as [e|f2] eqn:H2;
         [discriminate|];
       destruct (push_entries (js_get t "enumValues") enum_entry f2) as [e|f3] eqn:H3;
         [discriminate|];
       intros [= <- _]; split; [discriminate|]; intros _;
       apply (push_entries_total _ _ as_field) in H1; [|exact field_entry_total];
       apply (push_entries_total _ _ as_field) in H2; [|exact field_entry_total];
       apply (push_entries_total _ _ as_enum_value) in H3; [|exact enum_entry_total];
       subst f3 f2 f1; cbn [app]; now rewrite <- app_assoc
     | intros [= <- _]; split; [reflexivity | discriminate] ]).
Qed.

End TypeFieldFacts.

(** *** The read-only guard *)

Lemma lower_char_white (c : ascii) : is_white_space (lower_char c) = is_white_space c.
Proof. destruct c as [[] [] [] [] [] [] [] []]; reflexivity. Qed.

Lemma trimStart_lower (s : string) : trimStart (toLowerCase s) = toLowerCase (trimStart s).
Proof.
  induction s as [|c r IH]; [reflexivity|].
  cbn [toLowerCase trimStart]. rewrite lower_char_white.
  destruct (is_white_space c); [exact IH | reflexivity].
Qed.

Lemma trimEnd_lower (s : string) : trimEnd (toLowerCase s) = toLowerCase (trimEnd s).
Proof.
  induction s as [|c r IH]; [reflexivity|].
  cbn [toLowerCase trimEnd]. rewrite IH, lower_char_white.
  destruct (trimEnd r); [destruct (is_white_space c)|]; reflexivity.
Qed.

Lemma trim_lower (s : string) : trim (toLowerCase s) = toLowerCase (trim s).
Proof. unfold trim. now rewrite trimStart_lower, trimEnd_lower. Qed.

Lemma trimEnd_all_white (ws : string) : all_white_space ws -> trimEnd ws = EmptyString.
Proof.
  induction ws as [|c r IH]; intros H; [reflexivity|].
  cbn [trimEnd]. rewrite IH by (intros x Hx; apply H; now right).
  now rewrite (H c) by (now left).
Qed.

Lemma trimEnd_white (s ws : string) :
  all_white_space ws -> trimEnd (s ++ ws) = trimEnd s.
Proof.
  intros H. induction s as [|c r IH].
  - simpl. now apply trimEnd_all_white.
  - change (String c r ++ ws)%string with (String c (r ++ ws)).
    cbn [trimEnd]. now rewrite IH.
Qed.

Lemma trimStart_all_white (ws : string) : all_white_space ws -> trimStart ws = EmptyString.
Proof.
  intros H. rewrite <- (append_empty_r ws). now rewrite trimStart_white.
Qed.

Lemma trimStart_app (s ws : string) :
  all_white_space ws ->
  trimStart (s ++ ws) = (trimStart s ++ ws)%string
  \/ (trimStart s = EmptyString /\ trimStart (s ++ ws) = EmptyString).
Proof.
  intros H. induction s as [|c r IH].
  - right. split; [reflexivity|]. now apply trimStart_all_white.
  - change (String c r ++ ws)%string with (String c (r ++ ws)).
    cbn [trimStart]. destruct (is_white_space c); [exact IH | now left].
Qed.

Lemma trim_white (ws1 s ws2 : string) :
  all_white_space ws1 -> all_white_space ws2 -> trim (ws1 ++ s ++ ws2) = trim s.
Proof.
  intros H1 H2. unfold trim. rewrite trimStart_white by exact H1.
  destruct (trimStart_app s ws2 H2) as [-> | (-> & ->)].
  - now apply trimEnd_white.
  - reflexivity.
Qed.

Section GuardFacts.

Variable downstream : Downstream.
Variable patterns : ErrorPatterns.
Variable JSON_stringify_pretty : value -> string.

(** X6. The read-only guard looks through white space around the query
    and through letter case: white space before and after changes nothing,
    two queries with the same lower-case text are treated alike, and a
    query that the guard catches is rejected by [run-query], the world
    unchanged, with any white space around it. *)
Theorem mutation_guard_robust (query ws1 ws2 : string) :
  all_white_space ws1 -> all_white_space ws2 ->
  mutation_guard (ws1 ++ query ++ ws2) = mutation_guard query
  /\ (forall query',
        toLowerCase query' = toLowerCase query ->
        mutation_guard query' = mutation_guard query)
  /\ (mutation_guard query = true ->
      forall variables w,
        run_query downstream patterns JSON_stringify_pretty
          (Some (ws1 ++ query ++ ws2)%string) variables w
        = (inr MutationRejected, w)).
Proof.
  intros H1 H2.
  assert (Hws : mutation_guard (ws1 ++ query ++ ws2) = mutation_guard query)
    by (unfold mutation_guard; now rewrite trim_white).
  split; [exact Hws|]. split.
  - intros query' Hlower. unfold mutation_guard.
    now rewrite <- !trim_lower, Hlower.
  - intros Hguard variables w. rewrite <- Hws in Hguard.
    unfold run_query. unfold mutation_guard in Hguard.
    destruct (ws1 ++ query ++ ws2)%string as [|c r].
    + rewrite trim_lower_empty in Hguard. discriminate Hguard.
    + rewrite Hguard. reflexivity.
Qed.

End GuardFacts.



Lemma formatTypeForDisplay_render (base t : GraphQLOutputType)
  (layers : list TypeRef.Wrapper) (X : string) :
  TypeRef.concrete base X -> TypeRef.Chain base layers t ->
  formatTypeForDisplay (Some t) = TypeRef.render layers X.
Proof.
  intros Hbase Hchain. induction Hchain as [|l n layers t Hchain IH].
  - exact (formatTypeForDisplay_concrete base X Hbase).
  - rewrite formatTypeForDisplay_wrap, IH. destruct l; reflexivity.
Qed.

Section FindFieldsFacts.

Variable float_toString : Q -> string.
Variable downstream : Downstream.

Lemma formatTypeForDisplay_json_eqn (props : list (string * value)) :
  formatTypeForDisplay_json float_toString (VObj props)
  = let rec := formatTypeForDisplay_json float_toString (lookup_prop "ofType" props) in
    if strict_eq_str (lookup_prop "kind" props) "NON_NULL"
    then template [rec; "!"]
    else if strict_eq_str (lookup_prop "kind" props) "LIST"
         then template ["["; rec; "]"]
         else if truthy (lookup_prop "name" props)
              then js_String float_toString (lookup_prop "name" props)
              else "UnnamedType".
Proof.
  cbn [formatTypeForDisplay_json]. cbv zeta.
  assert (Hrec : forall l,
             (fix at_ofType (l : list (string * value)) : string :=
                match l with
                | [] => "Unknown"
                | (k, v) :: r =>
                    if String.eqb "ofType" k
                    then formatTypeForDisplay_json float_toString v
                    else at_ofType r
                end) l
             = formatTypeForDisplay_json float_toString (lookup_prop "ofType" l)).
  { induction l as [|[k v] r IH]; [reflexivity|].
    cbn [lookup_prop]. destruct (String.eqb "ofType" k); [reflexivity | exact IH]. }
  now rewrite Hrec.
Qed.

Lemma formatTypeForDisplay_json_encode (t : GraphQLOutputType) :
  formatTypeForDisplay_json float_toString (encode_type t) = formatType t.
Proof.
  revert t. fix IH 1. intros [k n o]. cbn [encode_type].
  rewrite formatTypeForDisplay_json_eqn. cbv zeta.
  change (lookup_prop "kind" _) with (VStr k).
  change (lookup_prop "name" [("kind", VStr k);
                              ("name", match n with Some s => VStr s | None => VNull end);
                              ("ofType", match o with
                                         | Some t' => encode_type t'
                                         | None => VNull
                                         end)])
    with (match n with Some s => VStr s | None => VNull end).
  change (lookup_prop "ofType" [("kind", VStr k);
                                ("name", match n with Some s => VStr s | None => VNull end);
                                ("ofType", match o with
                                           | Some t' => encode_type t'
                                           | None => VNull
                                           end)])
    with (match o with Some t' => encode_type t' | None => VNull end).
  cbn [formatType strict_eq_str].
  assert (Hrec : formatTypeForDisplay_json float_toString
                   (match o with Some t' => encode_type t' | None => VNull end)
                 = match o with Some t' => formatType t' | None => "Unknown" end).
  { destruct o as [t'|]; [apply (IH t') | reflexivity]. }
  rewrite Hrec.
  destruct (String.eqb k "NON_NULL"); [reflexivity|].
  destruct (String.eqb k "LIST"); [reflexivity|].
  destruct n as [[|c r]|]; reflexivity.
Qed.

(** X21. On the JSON of a type reference, which is what [find-fields]
    passes, [formatTypeForDisplay] gives the text that it gives on the
    reference itself; [null] and [undefined] are [Unknown]. So a chain of
    NON_NULL and LIST layers around a concrete type is displayed with a
    trailing [!] for every NON_NULL layer and brackets for every LIST
    layer. *)
Theorem formatTypeForDisplay_json_typed :
  (forall t : GraphQLOutputType,
      formatTypeForDisplay_json float_toString (encode_type t)
      = formatTypeForDisplay (Some t))
  /\ formatTypeForDisplay_json float_toString VNull = formatTypeForDisplay None
  /\ formatTypeForDisplay_json float_toString VUndefined = formatTypeForDisplay None
  /\ (forall base X layers t,
        TypeRef.concrete base X -> TypeRef.Chain base layers t ->
        formatTypeForDisplay_json float_toString (encode_type t)
        = TypeRef.render layers X).
Proof.
  split; [|split; [|split]]; try reflexivity.
  - intros t. apply formatTypeForDisplay_json_encode.
  - intros base X layers t Hbase Hchain. rewrite formatTypeForDisplay_json_encode.
    exact (formatTypeForDisplay_render base t layers X Hbase Hchain).
Qed.

Lemma unwrap_encode (base t : GraphQLOutputType) (layers : list TypeRef.Wrapper) :
  kind base <> "NON_NULL" -> kind base <> "LIST" ->
  TypeRef.Chain base layers t ->
  unwrap (encode_type t) = encode_type base.
Proof.
  intros Hnn Hl Hchain. induction Hchain as [|l n layers t Hchain IH].
  - destruct base as [k n o]. cbn [kind] in Hnn, Hl. cbn [encode_type unwrap].
    cbn [String.eqb Ascii.eqb Bool.eqb andb lookup_prop strict_eq_str].
    apply String.eqb_neq in Hnn, Hl. rewrite Hnn, Hl. cbn [orb].
    now rewrite andb_false_r.
  - cbn [encode_type unwrap].
    cbn [String.eqb Ascii.eqb Bool.eqb andb lookup_prop strict_eq_str].
    assert (Ht : truthy (encode_type t) = true) by (destruct t; reflexivity).
    rewrite Ht. destruct l; cbn [TypeRef.wrapper_kind]; exact IH.
Qed.

Lemma isList_encode (base t : GraphQLOutputType) (layers : list TypeRef.Wrapper) :
  kind base <> "NON_NULL" -> kind base <> "LIST" ->
  TypeRef.Chain base layers t ->
  isList (encode_type t) = list_field layers.
Proof.
  intros Hnn Hl Hchain.
  assert (Hkind : forall layers t, TypeRef.Chain base layers t ->
                    js_get (encode_type t) "kind"
                    = VStr (match layers with
                            | [] => kind base
                            | l :: _ => TypeRef.wrapper_kind l
                            end)).
  { intros ls u Hu. destruct Hu; [destruct base|]; reflexivity. }
  apply String.eqb_neq in Hnn, Hl. unfold isList.
  destruct Hchain as [|l n layers t Hchain].
  - rewrite (Hkind [] base (TypeRef.Chain_base base)). cbn [strict_eq_str list_field].
    now rewrite Hnn, Hl.
  - change (js_get (encode_type (mkType (TypeRef.wrapper_kind l) n (Some t))) "kind")
      with (VStr (TypeRef.wrapper_kind l)).
    change (js_get (encode_type (mkType (TypeRef.wrapper_kind l) n (Some t))) "ofType")
      with (encode_type t).
    rewrite (Hkind layers t Hchain).
    destruct l; cbn [TypeRef.wrapper_kind strict_eq_str list_field]; [|reflexivity].
    change (String.eqb "NON_NULL" "LIST") with false.
    change (String.eqb "NON_NULL" "NON_NULL") with true. cbn [orb andb].
    destruct layers as [|[] layers']; [exact Hl | reflexivity | reflexivity].
Qed.

(** X22. For a field whose type is a chain of NON_NULL and LIST layers
    around an object type [X], [find-fields] prints the field with its
    displayed type, then the relationship to [X], in brackets exactly when
    the field is a list (a LIST layer outermost, or under the outermost
    NON_NULL), and the access path. *)
Theorem field_lines_relationship (typeName X fieldName : string)
  (base t : GraphQLOutputType) (layers : list TypeRef.Wrapper) (description : value) :
  kind base = "OBJECT" -> name base = Some X -> X <> EmptyString ->
  TypeRef.Chain base layers t ->
  exists line,
    field_lines float_toString typeName
      {| f_name := VStr fieldName; f_type := encode_type t; f_description := description |}
    = inr (line
           ++ "   Relationship to: "
           ++ (if list_field layers then "[" ++ X ++ "]" else X) ++ "\n"
           ++ "   Access via: " ++ typeName ++ " { " ++ fieldName ++ " { ... } }\n")%string
    /\ contains ("`" ++ fieldName ++ "`: `" ++ TypeRef.render layers X ++ "`") line.
Proof.
  intros Hkind Hname HX Hchain.
  assert (Hnn : kind base <> "NON_NULL") by (rewrite Hkind; discriminate).
  assert (Hl : kind base <> "LIST") by (rewrite Hkind; discriminate).
  assert (Hconcrete : TypeRef.concrete base X) by (repeat split; assumption).
  unfold field_lines. cbn [f_name f_type f_description js_String].
  assert (Hread : exists v, read_prop (encode_type t) "ofType" = inr v)
    by (destruct t; eexists; reflexivity).
  destruct Hread as (v & ->).
  rewrite (unwrap_encode base t layers Hnn Hl Hchain).
  rewrite (isList_encode base t layers Hnn Hl Hchain).
  destruct base as [k n o]. cbn [kind name] in Hkind, Hname. subst k n.
  cbn [encode_type js_get lookup_prop String.eqb Ascii.eqb Bool.eqb andb strict_eq_str].
  destruct X as [|c r]; [contradiction|]. cbn [truthy is_empty negb js_String].
  match goal with
  | |- exists line, inr (?l ++ _)%string = _ /\ _ => exists l
  end.
  split.
  - rewrite !append_assoc. reflexivity.
  - rewrite formatTypeForDisplay_json_encode.
    change (formatType t) with (formatTypeForDisplay (Some t)).
    rewrite (formatTypeForDisplay_render _ _ _ _ Hconcrete Hchain).
    exists "- ".
    exists ((if truthy description
             then " - " ++ js_String float_toString description
             else "") ++ "\n")%string.
    rewrite !append_assoc. reflexivity.
Qed.


(** X23. [find-fields] always returns a result; it sends at most the
    introspection and one lookup of the type. A type that the snapshot does
    not have is answered with [Type '...' not found.], which is not flagged
    as an error, and no lookup is sent. *)
Theorem find_fields_requests (typeName : option string) (w : World) :
  exists result w' sent,
    find_fields float_toString downstream typeName w = (inr result, w')
    /\ http_log w' = http_log w ++ sent
    /\ (forall rq, In rq sent ->
          rq = introspection_request \/ exists t, rq = type_lookup t)
    /\ (List.length sent <= 2)%nat
    /\ (forall name schema w1,
          typeName = Some name -> name <> EmptyString ->
          getSchemaInfo downstream w = (inr schema, w1) ->
          find_typeDetail schema name = inr None ->
          result = tool_ok [ ("Type '" ++ name ++ "' not found.")%string ]
          /\ w' = w1).
Proof.
  unfold find_fields.
  destruct typeName as [[|c r]|].
  - eexists. exists w, []. rewrite app_nil_r. split; [reflexivity|].
    split; [reflexivity|]. split; [intros rq []|]. split; [simpl; lia|].
    intros name schema w1 [= <-] Hne. contradiction.
  - destruct (getSchemaInfo_log downstream w) as (sent & Hlog & Hsent).
    assert (Hschema : forall rq, In rq sent ->
                        rq = introspection_request \/ exists t, rq = type_lookup t).
    { intros rq Hrq. left. destruct Hsent as [->| ->]; [destruct Hrq|].
      destruct Hrq as [<-|[]]. reflexivity. }
    assert (Hlen : (List.length sent <= 1)%nat)
      by (destruct Hsent as [->| ->]; simpl; lia).
    unfold try_catch, bind, lift.
    destruct (getSchemaInfo downstream w) as [[e|schema] w1]; cbn [snd] in Hlog.
    { eexists. exists w1, sent. split; [reflexivity|]. split; [exact Hlog|].
      split; [exact Hschema|]. split; [lia|].
      intros name schema' w1' _ _ [=]. }
    destruct (find_typeDetail schema (String c r)) as [e|[typeDetail|]] eqn:Hfind.
    { eexists. exists w1, sent. split; [reflexivity|]. split; [exact Hlog|].
      split; [exact Hschema|]. split; [lia|].
      intros name schema' w1' [= <-] _ [= <- <-] Hnone.
      rewrite Hfind in Hnone. discriminate Hnone. }
    2:{ eexists. exists w1, sent. split; [reflexivity|]. split; [exact Hlog|].
        split; [exact Hschema|]. split; [lia|].
        intros name schema' w1' [= <-] _ [= <- <-] _. split; reflexivity. }
    pose proof (getTypeFields_log downstream (String c r) w1) as Hlog2.
    assert (Hall : forall rq, In rq (sent ++ [type_lookup (String c r)]) ->
                     rq = introspection_request \/ exists t, rq = type_lookup t).
    { intros rq Hrq. apply in_app_or in Hrq. destruct Hrq as [Hrq|[<-|[]]].
      - apply Hschema, Hrq.
      - right. eexists. reflexivity. }
    assert (Hlog3 : forall w2, http_log w2 = http_log w1 ++ [type_lookup (String c r)] ->
                      http_log w2 = http_log w ++ sent ++ [type_lookup (String c r)])
      by (intros w2 ->; rewrite Hlog; now rewrite <- app_assoc).
    assert (Hlen2 : (List.length (sent ++ [type_lookup (String c r)]) <= 2)%nat)
      by (rewrite length_app; simpl; lia).
    destruct (getTypeFields downstream (String c r) w1) as [[e|fields] w2];
      cbn [snd] in Hlog2.
    { eexists. exists w2, (sent ++ [type_lookup (String c r)]).
      split; [reflexivity|]. split; [apply Hlog3, Hlog2|].
      split; [exact Hall|]. split; [exact Hlen2|].
      intros name schema' w1' [= <-] _ [= <- <-] Hnone.
      rewrite Hfind in Hnone. discriminate Hnone. }
    destruct (strict_eq_str (js_get typeDetail "kind") "ENUM").
    { destruct fields; unfold ret; eexists; exists w2, (sent ++ [type_lookup (String c r)]);
        (split; [reflexivity|]); (split; [apply Hlog3, Hlog2|]);
        (split; [exact Hall|]); (split; [exact Hlen2|]);
        intros name schema' w1' [= <-] _ [= <- <-] Hnone;
        rewrite Hfind in Hnone; discriminate Hnone. }
    destruct (strict_eq_str (js_get typeDetail "kind") "OBJECT"
              || strict_eq_str (js_get typeDetail "kind") "INPUT_OBJECT").
    2:{ unfold ret. eexists. exists w2, (sent ++ [type_lookup (String c r)]).
        split; [reflexivity|]. split; [apply Hlog3, Hlog2|].
        split; [exact Hall|]. split; [exact Hlen2|].
        intros name schema' w1' [= <-] _ [= <- <-] Hnone.
        rewrite Hfind in Hnone. discriminate Hnone. }
    destruct fields as [|f fs].
    { unfold ret. eexists. exists w2, (sent ++ [type_lookup (String c r)]).
      split; [reflexivity|]. split; [apply Hlog3, Hlog2|].
      split; [exact Hall|]. split; [exact Hlen2|].
      intros name schema' w1' [= <-] _ [= <- <-] Hnone.
      rewrite Hfind in Hnone. discriminate Hnone. }
    unfold lift.
    destruct (fields_lines _ _ _ _) as [e|output];
      unfold ret; eexists; exists w2, (sent ++ [type_lookup (String c r)]);
      (split; [reflexivity|]); (split; [apply Hlog3, Hlog2|]);
      (split; [exact Hall|]); (split; [exact Hlen2|]);
      intros name schema' w1' [= <-] _ [= <- <-] Hnone;
      rewrite Hfind in Hnone; discriminate Hnone.
  - eexists. exists w, []. rewrite app_nil_r. split; [reflexivity|].
    split; [reflexivity|]. split; [intros rq []|]. split; [simpl; lia|].
    intros name schema w1 [=].
Qed.

End FindFieldsFacts.

Section PromptFacts.

Variable float_toString : Q -> string.
Variable Date_toISOString : Z -> string.
Variable isoDateDaysAgo : Z -> Z -> string.

(** X24. The day window of the objection prompts, written with a test
    against [undefined] and [isNaN], is the guarded limit of the tools with
    the default 30 and the cap 365, for every argument; it lies between 1
    and 365. *)
Theorem daysVal_agrees (days : value) :
  daysVal float_toString days = guarded_limit float_toString days 30 365
  /\ 1 <= daysVal float_toString days <= 365.
Proof.
  assert (Heq : daysVal float_toString days = guarded_limit float_toString days 30 365).
  { unfold daysVal, guarded_limit.
    destruct days as [| |b|q|s|items|props]; cbn [is_defined nullish_or].
    - rewrite (parseInt_safe float_toString (inject_Z 30)) by reflexivity. reflexivity.
    - reflexivity.
    - destruct (parseInt _) as [n|]; [|reflexivity].
      destruct (Z.ltb_spec 0 n); destruct (Z.leb_spec n 0); try lia; reflexivity.
    - destruct (parseInt _) as [n|]; [|reflexivity].
      destruct (Z.ltb_spec 0 n); destruct (Z.leb_spec n 0); try lia; reflexivity.
    - destruct (parseInt _) as [n|]; [|reflexivity].
      destruct (Z.ltb_spec 0 n); destruct (Z.leb_spec n 0); try lia; reflexivity.
    - destruct (parseInt _) as [n|]; [|reflexivity].
      destruct (Z.ltb_spec 0 n); destruct (Z.leb_spec n 0); try lia; reflexivity.
    - destruct (parseInt _) as [n|]; [|reflexivity].
      destruct (Z.ltb_spec 0 n); destruct (Z.leb_spec n 0); try lia; reflexivity. }
  split; [exact Heq|]. rewrite Heq. apply guarded_limit_range; lia.
Qed.


(** X25. The prompt handler agrees with the list of prompts that the
    server advertises: a listed prompt gives its message when every
    argument that the list declares as required is present (truthy), and
    throws the invalid-parameters error -32602 when one is missing; a name
    that is not listed throws -32601. *)
Theorem get_prompt_required (args : option Params) (w : World) :
  (forall p,
      In p promptsList ->
      (forall a, In a (prompt_arguments p) -> a_required a = true ->
                 truthy (lookup_prop (a_name a) (or_empty args)) = true) ->
      exists text,
        get_prompt float_toString Date_toISOString isoDateDaysAgo
          (prompt_name p) args w = inr text)
  /\ (forall p a,
        In p promptsList -> In a (prompt_arguments p) -> a_required a = true ->
        truthy (lookup_prop (a_name a) (or_empty args)) = false ->
        exists message,
          get_prompt float_toString Date_toISOString isoDateDaysAgo
            (prompt_name p) args w
          = inl {| rpc_code := -32602; rpc_message := message |})
  /\ (forall name,
        ~ In name (map prompt_name promptsList) ->
        get_prompt float_toString Date_toISOString isoDateDaysAgo name args w
        = inl {| rpc_code := -32601;
                 rpc_message := ("Prompt named '" ++ name ++ "' not found.")%string |}).
Proof.
  split; [|split].
  - intros p Hp Hreq. unfold promptsList in Hp. cbn [In] in Hp.
    repeat (destruct Hp as [<-|Hp];
            [ cbn [prompt_name prompt_arguments] in *;
              unfold get_prompt; fold (or_empty args); repeat match goal with
                     | |- context [String.eqb ?a ?b] =>
                         let v := eval vm_compute in (String.eqb a b) in
                         progress change (String.eqb a b) with v
                     end;
              cbv iota;
              repeat match goal with
                     | |- context [truthy (lookup_prop ?k (or_empty args))] =>
                         rewrite (Hreq {| a_name := k; a_description := _;
                                          a_required := true |})
                           by (first [reflexivity | cbn [In]; tauto])
                     end;
              cbn [negb orb]; eexists; reflexivity
            | ]).
    destruct Hp.
  - intros p a Hp Ha Hr Hmissing. unfold promptsList in Hp. cbn [In] in Hp.
    repeat (destruct Hp as [<-|Hp];
            [ cbn [prompt_name prompt_arguments In] in *;
              repeat (destruct Ha as [<-|Ha]; [try discriminate Hr|]); try destruct Ha;
              cbn [a_name] in Hmissing;
              unfold get_prompt; fold (or_empty args); repeat match goal with
                     | |- context [String.eqb ?a ?b] =>
                         let v := eval vm_compute in (String.eqb a b) in
                         progress change (String.eqb a b) with v
                     end;
              cbv iota;
              rewrite ?Hmissing; cbn [negb orb]; rewrite ?orb_true_r;
              eexists; reflexivity
            | ]).
    destruct Hp.
  - intros name Hname. unfold promptsList in Hname. cbn [map prompt_name In] in Hname.
    unfold get_prompt.
    repeat match goal with
           | |- context [String.eqb name ?lit] =>
               let H := fresh in
               destruct (String.eqb_spec name lit) as [H|H];
               [exfalso; apply Hname; rewrite H;
                repeat (first [left; reflexivity | right])|]
           end.
    reflexivity.
Qed.

End PromptFacts.

(** *** The properties at sample inputs *)

(** The fields of the sample type [extraction] are its eight fields, in the
    order of the reply. *)
Lemma getTypeFields_members_witness :
  exists data,
    outcome (extraction_endpoint (clock empty_world) (http_log empty_world)
               (type_lookup "extraction")) = inr data
    /\ extraction_fields
       = map as_field (members (js_get (js_get data "__type") "fields"))
         ++ map as_field (members (js_get (js_get data "__type") "inputFields"))
         ++ map as_enum_value (members (js_get (js_get data "__type") "enumValues")).
Proof.
  destruct (getTypeFields_members extraction_endpoint "extraction" empty_world
              after_extraction_lookup extraction_fields eq_refl)
    as (data & Hdata & _ & _ & Hmembers).
  exists data. split; [exact Hdata|].
  apply Hmembers. injection Hdata as <-. reflexivity.
Defined.

(** An upper-case mutation between spaces and a line feed is rejected. *)
Lemma mutation_guard_robust_witness :
  run_query sample_endpoint no_patterns (fun _ => EmptyString)
    (Some ("  " ++ "MUTATION { delete_all }" ++ nl)%string) VUndefined empty_world
  = (inr MutationRejected, empty_world).
Proof.
  apply (mutation_guard_robust sample_endpoint no_patterns (fun _ => EmptyString)
           "MUTATION { delete_all }" "  " nl).
  - intros c [<-|[<-|[]]]; reflexivity.
  - intros c [<-|[]]; reflexivity.
  - reflexivity.
Defined.

(** A query for the schema is sent as it is and its data returned. *)
Lemma run_query_outcome_witness :
  exists w',
    run_query sample_endpoint no_patterns (fun _ => "data")
      (Some "{ interview { id } }") VUndefined empty_world
    = (inr (tool_ok [ "data" ]), w')
    /\ http_log w'
       = [ {| req_query := "{ interview { id } }"; req_variables := VUndefined |} ].
Proof.
  destruct (run_query_outcome sample_endpoint no_patterns (fun _ => "data")
              "{ interview { id } }" VUndefined empty_world)
    as (Hresolved & _).
  - discriminate.
  - reflexivity.
  - reflexivity.
  - exact (Hresolved sample_schema eq_refl).
Defined.

(** The fields [id] and [summary] of the sample type pass the check. *)
Lemma build_query_checked_witness :
  exists validFields,
    valid_fields (VArr [field_named "id"; field_named "summary"]) = inr validFields
    /\ In (VStr "id") validFields /\ In (VStr "summary") validFields.
Proof.
  destruct (build_query_checked sample_float_toString schema_endpoint
              (fun _ => EmptyString) (fun s => s)
              (Some "extraction") (Some ["id"; "summary"]) VUndefined None
              empty_world after_schema_fetch
              (tool_ok [bare_query "extraction" "extraction" ["id"; "summary"]]))
    as (tn & fs & schema & objectTypes & selectedType & validFields
        & Htn & Hfs & Hschema & Hobj & Hin & Hname & Hvalid & Hfields & _).
  - vm_compute. reflexivity.
  - reflexivity.
  - injection Hfs as <-.
    assert (Hs : schema = schema_with_fields).
    { vm_compute in Hschema. injection Hschema as <-. reflexivity. }
    subst schema. vm_compute in Hobj. injection Hobj as <-.
    destruct Hin as [<-|[]].
    exists validFields. split; [exact Hvalid|].
    split; apply Hfields; simpl; tauto.
Defined.


(** A limit of 0 is 1 for a template and the default for a tool. *)
Lemma template_limit_clamp_witness :
  limit_param sample_float_toString [("limit", VNum (inject_Z 0))] "limit" 5 25 = Some 1
  /\ guarded_limit sample_float_toString (VNum (inject_Z 0)) 5 25 = 5.
Proof.
  destruct (template_limit_clamp sample_float_toString
              [("limit", VNum (inject_Z 0))] "limit" 5 25 0)
    as (_ & _ & Hzero).
  - lia.
  - unfold Number.MAX_SAFE_INTEGER. simpl. lia.
  - reflexivity.
  - exact (Hzero (Z.le_refl 0)).
Defined.

(** The pattern for the name [100%_sure] has the two wildcards that the
    template adds. *)
Lemma template_patterns_wildcards_witness :
  exists text rest,
    getExampleVariables (find_person sample_float_toString)
      [("name", VStr "100%_sure")] empty_world
    = (inr (("nameParam", EText ("%" ++ text ++ "%")) :: rest), empty_world)
    /\ no_wildcard text.
Proof.
  destruct (template_patterns_wildcards sample_float_toString
              (find_person sample_float_toString) "name" "nameParam"
              (or_introl eq_refl) [("name", VStr "100%_sure")] empty_world)
    as (text & rest & Hrun & Hclean & _).
  exists text, rest. split; [exact Hrun | exact Hclean].
Defined.

(** A mutation is an error for [validate-query]. *)
Lemma validate_query_agrees_witness :
  isError (validate_query (fun _ => []) (fun _ _ => false) (Some "mutation { x }"))
  = true.
Proof.
  destruct (validate_query_agrees sample_endpoint no_patterns (fun _ => EmptyString)
              (fun _ => []) (fun _ _ => false) "mutation { x }" VUndefined empty_world)
    as (Herror & _).
  - discriminate.
  - exact Herror.
Defined.

(** A required list of calls is shown as a relationship in brackets. *)
Lemma field_lines_relationship_witness :
  exists line,
    field_lines sample_float_toString "interview"
      {| f_name := VStr "calls"; f_type := encode_type required_list_of_calls;
         f_description := VNull |}
    = inr (line ++ "   Relationship to: [call]\n"
                ++ "   Access via: interview { calls { ... } }\n")%string.
Proof.
  destruct (field_lines_relationship sample_float_toString "interview" "call" "calls"
              call_type required_list_of_calls required_list_layers VNull)
    as (line & Hrun & _).
  - reflexivity.
  - reflexivity.
  - discriminate.
  - unfold required_list_of_calls, required_list_layers.
    apply (TypeRef.Chain_wrap _ TypeRef.NON_NULL None).
    apply (TypeRef.Chain_wrap _ TypeRef.LIST None).
    apply (TypeRef.Chain_wrap _ TypeRef.NON_NULL None).
    apply TypeRef.Chain_base.
  - exists line. rewrite Hrun. cbn [list_field required_list_layers].
    now rewrite !append_assoc.
Defined.
